(** * Proposal matching: a shallow embedding of [match_final.py]

    The matching script of the dashboard reconciles two staging tables
    (Snapshot and Tally rows) with the catalogue of forum proposals.  This
    file embeds the text helpers, the slug and title matchers, the two
    per-row loops and the final table update, and states the properties of
    the specification over them.

    Modelling conventions.
    - Python [str] is [string]: the model covers ASCII text, where
      [str.lower], [\s], [\w] and [\d] have their ASCII meaning.
    - Similarity scores are Python floats; they are rationals [Q] here, and
      the library metrics of [rapidfuzz], [html.unescape] and the float
      product are parameters of the development.
    - A Python exception is the [None] of the error monad [option]. *)

From Stdlib Require Import List Bool Arith Lia.
From Stdlib Require Import Ascii String.
From Stdlib Require Import ZArith QArith Qminmax.
Import ListNotations.

Local Open Scope string_scope.
Local Open Scope list_scope.

(* ================================================================= *)
(** ** Characters and strings, as Python sees them *)

Module Py.

Definition newline : ascii := "010"%char.

Definition is_upper (c : ascii) : bool :=
  let n := nat_of_ascii c in (65 <=? n)%nat && (n <=? 90)%nat.

Definition is_lower (c : ascii) : bool :=
  let n := nat_of_ascii c in (97 <=? n)%nat && (n <=? 122)%nat.

Definition is_digit (c : ascii) : bool :=
  let n := nat_of_ascii c in (48 <=? n)%nat && (n <=? 57)%nat.

(** [str.isspace] on one ASCII character: TAB..CR, FS..US and the blank. *)
Definition is_space (c : ascii) : bool :=
  let n := nat_of_ascii c in
  ((9 <=? n)%nat && (n <=? 13)%nat) || ((28 <=? n)%nat && (n <=? 32)%nat).

(** The class [\w]. *)
Definition is_word (c : ascii) : bool :=
  is_upper c || is_lower c || is_digit c || Ascii.eqb c "_"%char.

Definition lower_char (c : ascii) : ascii :=
  if is_upper c then ascii_of_nat (nat_of_ascii c + 32) else c.

(** [s.lower()] *)
Fixpoint lower (s : string) : string :=
  match s with
  | EmptyString => EmptyString
  | String c s' => String (lower_char c) (lower s')
  end.

(** Truthiness of a [str]: [bool(s)]. *)
Definition truthy (s : string) : bool :=
  match s with EmptyString => false | String _ _ => true end.

(** Truthiness of an optional [str] ([None] or a string). *)
Definition truthy_opt (o : option string) : bool :=
  match o with None => false | Some s => truthy s end.

Fixpoint starts_with (p s : string) : bool :=
  match p, s with
  | EmptyString, _ => true
  | String a p', String b s' => Ascii.eqb a b && starts_with p' s'
  | String _ _, EmptyString => false
  end.

(** [needle in hay] *)
Fixpoint contains (needle hay : string) : bool :=
  starts_with needle hay ||
  match hay with
  | EmptyString => false
  | String _ hay' => contains needle hay'
  end.

(** [x in xs] for a list of strings. *)
Fixpoint in_list (x : string) (xs : list string) : bool :=
  match xs with
  | [] => false
  | y :: ys => String.eqb x y || in_list x ys
  end.

Fixpoint rev_acc (s acc : string) : string :=
  match s with
  | EmptyString => acc
  | String c s' => rev_acc s' (String c acc)
  end.

Definition rev (s : string) : string := rev_acc s EmptyString.

Fixpoint lstrip_by (p : ascii -> bool) (s : string) : string :=
  match s with
  | EmptyString => EmptyString
  | String c s' => if p c then lstrip_by p s' else s
  end.

Definition strip_by (p : ascii -> bool) (s : string) : string :=
  rev (lstrip_by p (rev (lstrip_by p s))).

(** [s.strip()] *)
Definition strip (s : string) : string := strip_by is_space s.

(** [s.strip(c)] for a one-character argument. *)
Definition strip_char (c : ascii) (s : string) : string :=
  strip_by (Ascii.eqb c) s.

(** [s.split(sep)] for a one-character separator: the pieces between the
    separators, empty pieces included. *)
Fixpoint split_aux (sep : ascii) (s cur : string) : list string :=
  match s with
  | EmptyString => [rev cur]
  | String c s' =>
      if Ascii.eqb c sep then rev cur :: split_aux sep s' EmptyString
      else split_aux sep s' (String c cur)
  end.

Definition split (sep : ascii) (s : string) : list string :=
  split_aux sep s EmptyString.

(** [s[:n]] *)
Fixpoint take (n : nat) (s : string) : string :=
  match n, s with
  | S n', String c s' => String c (take n' s')
  | _, _ => EmptyString
  end.

(** Every character of [s] satisfies [p]. *)
Fixpoint all_chars (p : ascii -> bool) (s : string) : bool :=
  match s with
  | EmptyString => true
  | String c s' => p c && all_chars p s'
  end.

Definition not_upper (c : ascii) : bool := negb (is_upper c).

(** Comparisons of scores. *)
Definition ge (a b : Q) : bool := Qle_bool b a.
Definition gt (a b : Q) : bool := negb (Qle_bool a b).

(** [max(a, b, c)]: the first of the largest arguments. *)
Definition max3 (a b c : Q) : Q :=
  let m := if gt b a then b else a in
  if gt c m then c else m.

End Py.

(* ================================================================= *)
(** ** The fragment of [re] the script uses *)

Module Re.

(** Patterns.  [Bos] is [^], [Eos] is [$]; [Cls] is any single-character
    class ([.], [\s], [\d], a bracket class); [Star] is greedy. *)
Inductive regex : Type :=
| Eps
| Chr (c : ascii)
| Cls (p : ascii -> bool)
| Seq (r1 r2 : regex)
| Alt (r1 r2 : regex)
| Star (r : regex)
| Group (n : nat) (r : regex)
| Bos
| Eos.

Definition Opt (r : regex) : regex := Alt r Eps.
Definition Plus (r : regex) : regex := Seq r (Star r).

(** A literal word. *)
Fixpoint lit (s : string) : regex :=
  match s with
  | EmptyString => Eps
  | String c s' => Seq (Chr c) (lit s')
  end.

(** [.] matches everything but a newline. *)
Definition dot : regex := Cls (fun c => negb (Ascii.eqb c Py.newline)).
Definition space : regex := Cls Py.is_space.
Definition digit : regex := Cls Py.is_digit.

(** Sequence and alternation of several patterns. *)
Fixpoint seqs (rs : list regex) : regex :=
  match rs with
  | [] => Eps
  | [r] => r
  | r :: rs' => Seq r (seqs rs')
  end.

Fixpoint alts (r : regex) (rs : list regex) : regex :=
  match rs with
  | [] => r
  | r' :: rs' => Alt r (alts r' rs')
  end.

(** Captured groups, most recent first. *)
Definition captures := list (nat * string).

Fixpoint group (n : nat) (caps : captures) : string :=
  match caps with
  | [] => EmptyString
  | (m, s) :: caps' => if Nat.eqb m n then s else group n caps'
  end.

Section Matcher.
(** [ic] is the flag [re.IGNORECASE]. *)
Variable ic : bool.
Variable A : Type.

Definition chr_eq (c x : ascii) : bool :=
  if ic then Ascii.eqb (Py.lower_char c) (Py.lower_char x) else Ascii.eqb c x.

(** Backtracking matcher in continuation-passing style: [pos] is the
    offset of [s] in the subject, [k] receives the captures, the offset
    and the rest after the match.  Alternatives are tried left to right
    and [Star] takes as many rounds as it can before it gives one back,
    which is the order of Python's engine.  A round of [Star] that
    consumes nothing is refused. *)
Fixpoint rmatch (r : regex) (pos : nat) (s : string) (caps : captures)
         (k : captures -> nat -> string -> option A) {struct r} : option A :=
  match r with
  | Eps => k caps pos s
  | Chr c =>
      match s with
      | String x s' => if chr_eq c x then k caps (S pos) s' else None
      | EmptyString => None
      end
  | Cls p =>
      match s with
      | String x s' => if p x then k caps (S pos) s' else None
      | EmptyString => None
      end
  | Seq r1 r2 =>
      rmatch r1 pos s caps (fun caps' pos' s' => rmatch r2 pos' s' caps' k)
  | Alt r1 r2 =>
      match rmatch r1 pos s caps k with
      | Some x => Some x
      | None => rmatch r2 pos s caps k
      end
  | Star r' =>
      (fix rounds (fuel : nat) (pos : nat) (s : string) (caps : captures)
         : option A :=
         match fuel with
         | O => k caps pos s
         | S fuel' =>
             match rmatch r' pos s caps
                     (fun caps' pos' s' =>
                        if (pos <? pos')%nat then rounds fuel' pos' s' caps'
                        else None) with
             | Some x => Some x
             | None => k caps pos s
             end
         end) (String.length s) pos s caps
  | Group n r' =>
      rmatch r' pos s caps
        (fun caps' pos' s' => k ((n, Py.take (pos' - pos) s) :: caps') pos' s')
  | Bos => if (pos =? 0)%nat then k caps pos s else None
  | Eos =>
      match s with
      | EmptyString => k caps pos s
      | String c EmptyString =>
          if Ascii.eqb c Py.newline then k caps pos s else None
      | _ => None
      end
  end.
End Matcher.

(** The rounds of [Star r], as [rmatch] runs them. *)
Definition star_rounds (ic : bool) (A : Type) (r : regex)
           (k : captures -> nat -> string -> option A)
  : nat -> nat -> string -> captures -> option A :=
  fix rounds (fuel pos : nat) (s : string) (caps : captures) : option A :=
    match fuel with
    | O => k caps pos s
    | S fuel' =>
        match rmatch ic A r pos s caps
                (fun caps' pos' s' =>
                   if (pos <? pos')%nat then rounds fuel' pos' s' caps'
                   else None) with
        | Some x => Some x
        | None => k caps pos s
        end
    end.

(** A match of [r] starting exactly at offset [pos]: the captures and the
    offset where the match ends. *)
Definition match_at (ic : bool) (r : regex) (pos : nat) (s : string)
  : option (captures * nat) :=
  rmatch ic _ r pos s [] (fun caps pos' _ => Some (caps, pos')).

(** [re.search(r, s)] as a truth value. *)
Fixpoint search_from (ic : bool) (r : regex) (pos : nat) (s : string) : bool :=
  match match_at ic r pos s with
  | Some _ => true
  | None =>
      match s with
      | EmptyString => false
      | String _ s' => search_from ic r (S pos) s'
      end
  end.

Definition search (ic : bool) (r : regex) (s : string) : bool :=
  search_from ic r 0 s.

(** [re.sub(r, rep, s)] for a literal replacement: matches are taken left
    to right and do not overlap; [skip] counts the characters of the
    current match still to be dropped. *)
Fixpoint sub_from (ic : bool) (r : regex) (rep : string)
         (pos skip : nat) (s : string) : string :=
  match skip with
  | S skip' =>
      match s with
      | EmptyString => EmptyString
      | String _ s' => sub_from ic r rep (S pos) skip' s'
      end
  | O =>
      match match_at ic r pos s with
      | Some (_, pos') =>
          rep ++
          match s with
          | EmptyString => EmptyString
          | String c s' =>
              match (pos' - pos)%nat with
              | O => String c (sub_from ic r rep (S pos) 0 s')
              | S n => sub_from ic r rep (S pos) n s'
              end
          end
      | None =>
          match s with
          | EmptyString => EmptyString
          | String c s' => String c (sub_from ic r rep (S pos) 0 s')
          end
      end
  end.

Definition sub (ic : bool) (r : regex) (rep s : string) : string :=
  sub_from ic r rep 0 0 s.

(** [re.findall(r, s)]: the captures of every match, in order. *)
Fixpoint findall_from (ic : bool) (r : regex) (pos skip : nat) (s : string)
  : list captures :=
  match skip with
  | S skip' =>
      match s with
      | EmptyString => []
      | String _ s' => findall_from ic r (S pos) skip' s'
      end
  | O =>
      match match_at ic r pos s with
      | Some (caps, pos') =>
          caps ::
          match s with
          | EmptyString => []
          | String _ s' => findall_from ic r (S pos) (pos' - pos - 1) s'
          end
      | None =>
          match s with
          | EmptyString => []
          | String _ s' => findall_from ic r (S pos) 0 s'
          end
      end
  end.

Definition findall (ic : bool) (r : regex) (s : string) : list captures :=
  findall_from ic r 0 0 s.

End Re.

(* ================================================================= *)
(** ** Data model *)

(** A JSON scalar of the staging tables: [null] or text. *)
Inductive json : Type :=
| JNull
| JStr (s : string).

Definition json_eqb (a b : json) : bool :=
  match a, b with
  | JNull, JNull => true
  | JStr x, JStr y => String.eqb x y
  | _, _ => false
  end.

(** A Python [dict]: keys in insertion order, one entry per key. *)
Section Dict.
Variables K V : Type.
Variable eqb : K -> K -> bool.

Definition dict := list (K * V).

(** [d.get(k)] *)
Fixpoint dict_get (k : K) (d : dict) : option V :=
  match d with
  | [] => None
  | (k', v) :: d' => if eqb k k' then Some v else dict_get k d'
  end.

(** [k in d] *)
Definition dict_mem (k : K) (d : dict) : bool :=
  match dict_get k d with Some _ => true | None => false end.

(** [d[k] = v]: an existing key keeps its place, a new one goes last. *)
Fixpoint dict_set (k : K) (v : V) (d : dict) : dict :=
  match d with
  | [] => [(k, v)]
  | (k', v') :: d' =>
      if eqb k k' then (k', v) :: d' else (k', v') :: dict_set k v d'
  end.

Definition dict_keys (d : dict) : list K := map fst d.
Definition dict_values (d : dict) : list V := map snd d.
End Dict.

Arguments dict_get {K V} eqb k d.
Arguments dict_mem {K V} eqb k d.
Arguments dict_set {K V} eqb k v d.
Arguments dict_keys {K V} d.
Arguments dict_values {K V} d.

(** A row of a staging table, as [json.load] returns it. *)
Definition row := dict string json.

(** [row[k]]; [None] stands for [KeyError]. *)
Definition row_item (k : string) (r : row) : option json :=
  dict_get String.eqb k r.

(** [row.get(k)] *)
Definition row_get (k : string) (r : row) : json :=
  match dict_get String.eqb k r with Some v => v | None => JNull end.

(** [row.get(k) or ''] *)
Definition row_text (k : string) (r : row) : string :=
  match row_get k r with
  | JStr s => s
  | JNull => EmptyString
  end.

(** A canonical forum proposal: the fields [id] and [title] the script reads. *)
Record proposal : Type := {
  p_id : string;
  p_title : string
}.

(** An extracted forum link: the slug and the optional topic id. *)
Definition link := (string * option string)%type.

(** The [result] dictionary built for every row.  [forum_links] is [None]
    in a Tally result, which has no such key. *)
Record match_result : Type := {
  r_id : json;
  r_title : string;
  r_author : json;
  r_proposal_id : option string;
  r_matched_title : option string;
  r_score : option Q;
  r_method : option string;
  r_forum_links : option (list link);
  r_category : string
}.

Definition with_proposal_id (v : option string) (r : match_result) :=
  {| r_id := r_id r; r_title := r_title r; r_author := r_author r;
     r_proposal_id := v; r_matched_title := r_matched_title r;
     r_score := r_score r; r_method := r_method r;
     r_forum_links := r_forum_links r; r_category := r_category r |}.

Definition with_matched_title (v : option string) (r : match_result) :=
  {| r_id := r_id r; r_title := r_title r; r_author := r_author r;
     r_proposal_id := r_proposal_id r; r_matched_title := v;
     r_score := r_score r; r_method := r_method r;
     r_forum_links := r_forum_links r; r_category := r_category r |}.

Definition with_score (v : option Q) (r : match_result) :=
  {| r_id := r_id r; r_title := r_title r; r_author := r_author r;
     r_proposal_id := r_proposal_id r; r_matched_title := r_matched_title r;
     r_score := v; r_method := r_method r;
     r_forum_links := r_forum_links r; r_category := r_category r |}.

Definition with_method (v : option string) (r : match_result) :=
  {| r_id := r_id r; r_title := r_title r; r_author := r_author r;
     r_proposal_id := r_proposal_id r; r_matched_title := r_matched_title r;
     r_score := r_score r; r_method := v;
     r_forum_links := r_forum_links r; r_category := r_category r |}.

Definition with_forum_links (v : option (list link)) (r : match_result) :=
  {| r_id := r_id r; r_title := r_title r; r_author := r_author r;
     r_proposal_id := r_proposal_id r; r_matched_title := r_matched_title r;
     r_score := r_score r; r_method := r_method r;
     r_forum_links := v; r_category := r_category r |}.

Definition with_category (v : string) (r : match_result) :=
  {| r_id := r_id r; r_title := r_title r; r_author := r_author r;
     r_proposal_id := r_proposal_id r; r_matched_title := r_matched_title r;
     r_score := r_score r; r_method := r_method r;
     r_forum_links := r_forum_links r; r_category := v |}.

(** The buckets of [snapshot_results] and of [tally_results]. *)
Inductive snapshot_bucket : Type :=
| matched_by_link
| matched_by_title
| low_confidence
| stip_ltipp
| elections
| unmatched.

Inductive tally_bucket : Type :=
| t_matched
| t_low_confidence
| t_unmatched.

Record snapshot_results : Type := {
  sr_matched_by_link : list match_result;
  sr_matched_by_title : list match_result;
  sr_low_confidence : list match_result;
  sr_stip_ltipp : list match_result;
  sr_elections : list match_result;
  sr_unmatched : list match_result
}.

Record tally_results : Type := {
  tr_matched : list match_result;
  tr_low_confidence : list match_result;
  tr_unmatched : list match_result
}.

(** The error monad of the row loops. *)
Definition bind {A B : Type} (m : option A) (f : A -> option B) : option B :=
  match m with
  | Some a => f a
  | None => None
  end.

Notation "x <- m ;; k" := (bind m (fun x => k))
  (at level 61, m at next level, right associativity).
Notation "' pat <- m ;; k" := (bind m (fun x => match x with pat => k end))
  (at level 61, pat pattern, m at next level, right associativity).

(* ================================================================= *)
(** ** Text helpers that need no library *)

(** [[a-zA-Z0-9_-]] *)
Definition slug_char (c : ascii) : bool :=
  Py.is_word c || Ascii.eqb c "-"%char.

(** [forum\.arbitrum\.foundation/t/([a-zA-Z0-9_-]+)(?:/(\d+))?] *)
Definition forum_link_pattern : Re.regex :=
  Re.seqs [ Re.lit "forum.arbitrum.foundation/t/";
            Re.Group 1 (Re.Plus (Re.Cls slug_char));
            Re.Opt (Re.Seq (Re.Chr "/") (Re.Group 2 (Re.Plus Re.digit))) ].

(** [extract_forum_links(text)]: the slug, lower-cased, and the topic id
    of every forum link, in order of appearance. *)
Definition extract_forum_links (text : string) : list link :=
  if negb (Py.truthy text) then []
  else
    map (fun m =>
           (Py.lower (Re.group 1 m),
            if Py.truthy (Re.group 2 m) then Some (Re.group 2 m) else None))
        (Re.findall true forum_link_pattern text).

Definition stip_ltipp_patterns : list Re.regex :=
  [ Re.Seq (Re.lit "STIP Proposal - Round 1") Re.Eos;
    Re.Seq (Re.lit "STIP Addendum") Re.Eos;
    Re.Seq (Re.lit "LTIPP Council Recommended Proposal") Re.Eos;
    Re.Seq (Re.lit "STIP Bridge Challenge") Re.Eos;
    Re.Seq (Re.lit "LTIPP [Post Council Feedback]") Re.Eos ].

(** [is_stip_ltipp_protocol(title)]: case-sensitive search. *)
Definition is_stip_ltipp_protocol (title : string) : bool :=
  if negb (Py.truthy title) then false
  else existsb (fun p => Re.search false p title) stip_ltipp_patterns.

(** [a.*b] *)
Definition gap (a b : string) : Re.regex :=
  Re.seqs [Re.lit a; Re.Star Re.dot; Re.lit b].

Definition election_patterns : list Re.regex :=
  [ gap "Security Council" "Election";
    gap "reconfirmation" "council";
    gap "D.A.O." "Elections";
    Re.lit "Domain Allocator Election";
    Re.lit "Council Election";
    gap "ARDC" "Election";
    Re.lit "Advisor Elections";
    gap "Election of" "Members";
    gap "Election of" "Manager" ].

(** [is_election(title)]: case-insensitive search. *)
Definition is_election (title : string) : bool :=
  if negb (Py.truthy title) then false
  else existsb (fun p => Re.search true p title) election_patterns.

Definition garbage_titles : list string := ["art dra"; "Arcubtang"; "AIP 4"].

(** [is_skip_tally(title)] of [generate_prompts.py]. *)
Definition is_skip_tally (title : string) : bool :=
  if negb (Py.truthy title) then true
  else Py.in_list (Py.strip title) garbage_titles
       || (String.length (Py.strip title) <? 3)%nat.

(** The inline garbage test of the Tally loop in [match_final.py]. *)
Definition tally_garbage (title : string) : bool :=
  negb (Py.truthy title) || Py.in_list title garbage_titles.

Definition MANUAL_OVERRIDES_TALLY : list (string * string) :=
  [ ("ArbOS 20", "8b760c14-6f2b-4069-b326-23653e5c20f9");
    ("BoLD + Infura Nova Validator", "4c1d960e-0ff6-47ba-92cf-d0612f84d2f6");
    ("Subsidy Fund Proposal from the ADPC", "5b5c2bee-ea99-411a-afbb-a1df3f8d1b11");
    ("ArbOS 51", "a952f794-6c33-453b-9e30-83e67dda98e2");
    ("Safeguarding Software Developers", "08bc7918-8046-444c-b689-ebea647cb0ee") ].

Definition MANUAL_OVERRIDES_SNAPSHOT : list (string * string) :=
  [ ("Safeguarding Software Developers", "08bc7918-8046-444c-b689-ebea647cb0ee") ].

(** The override loop: the first key, in table order, whose lower-cased
    text occurs in the lower-cased title. *)
Fixpoint override_lookup (table : list (string * string)) (title : string)
  : option string :=
  match table with
  | [] => None
  | (key, proposal_id) :: table' =>
      if Py.contains (Py.lower key) (Py.lower title) then Some proposal_id
      else override_lookup table' title
  end.

(** The links the Snapshot loop skips as generic references. *)
Definition generic_link (slug : string) : bool :=
  Py.contains "short-term-incentive" slug
  || Py.in_list "stip" (Py.split "-" slug)
  || Py.contains "arbitrum-arbos-upgrades" slug.

(** The extracted links the Snapshot loop does not skip. *)
Definition specific_links (forum_links : list link) : list link :=
  filter (fun l => negb (generic_link (fst l))) forum_links.

(** [str(v)] for a method tag. *)
Definition str_of_method (m : option string) : string :=
  match m with
  | None => "None"
  | Some s => s
  end.

Definition json_of_opt (o : option string) : json :=
  match o with
  | None => JNull
  | Some s => JStr s
  end.

Definition empty_snapshot_results : snapshot_results :=
  {| sr_matched_by_link := []; sr_matched_by_title := [];
     sr_low_confidence := []; sr_stip_ltipp := [];
     sr_elections := []; sr_unmatched := [] |}.

Definition empty_tally_results : tally_results :=
  {| tr_matched := []; tr_low_confidence := []; tr_unmatched := [] |}.

(** [snapshot_results[b].append(r)] *)
Definition snapshot_append (b : snapshot_bucket) (r : match_result)
           (acc : snapshot_results) : snapshot_results :=
  match b with
  | matched_by_link =>
      {| sr_matched_by_link := sr_matched_by_link acc ++ [r];
         sr_matched_by_title := sr_matched_by_title acc;
         sr_low_confidence := sr_low_confidence acc;
         sr_stip_ltipp := sr_stip_ltipp acc;
         sr_elections := sr_elections acc;
         sr_unmatched := sr_unmatched acc |}
  | matched_by_title =>
      {| sr_matched_by_link := sr_matched_by_link acc;
         sr_matched_by_title := sr_matched_by_title acc ++ [r];
         sr_low_confidence := sr_low_confidence acc;
         sr_stip_ltipp := sr_stip_ltipp acc;
         sr_elections := sr_elections acc;
         sr_unmatched := sr_unmatched acc |}
  | low_confidence =>
      {| sr_matched_by_link := sr_matched_by_link acc;
         sr_matched_by_title := sr_matched_by_title acc;
         sr_low_confidence := sr_low_confidence acc ++ [r];
         sr_stip_ltipp := sr_stip_ltipp acc;
         sr_elections := sr_elections acc;
         sr_unmatched := sr_unmatched acc |}
  | stip_ltipp =>
      {| sr_matched_by_link := sr_matched_by_link acc;
         sr_matched_by_title := sr_matched_by_title acc;
         sr_low_confidence := sr_low_confidence acc;
         sr_stip_ltipp := sr_stip_ltipp acc ++ [r];
         sr_elections := sr_elections acc;
         sr_unmatched := sr_unmatched acc |}
  | elections =>
      {| sr_matched_by_link := sr_matched_by_link acc;
         sr_matched_by_title := sr_matched_by_title acc;
         sr_low_confidence := sr_low_confidence acc;
         sr_stip_ltipp := sr_stip_ltipp acc;
         sr_elections := sr_elections acc ++ [r];
         sr_unmatched := sr_unmatched acc |}
  | unmatched =>
      {| sr_matched_by_link := sr_matched_by_link acc;
         sr_matched_by_title := sr_matched_by_title acc;
         sr_low_confidence := sr_low_confidence acc;
         sr_stip_ltipp := sr_stip_ltipp acc;
         sr_elections := sr_elections acc;
         sr_unmatched := sr_unmatched acc ++ [r] |}
  end.

(** [tally_results[b].append(r)] *)
Definition tally_append (b : tally_bucket) (r : match_result)
           (acc : tally_results) : tally_results :=
  match b with
  | t_matched =>
      {| tr_matched := tr_matched acc ++ [r];
         tr_low_confidence := tr_low_confidence acc;
         tr_unmatched := tr_unmatched acc |}
  | t_low_confidence =>
      {| tr_matched := tr_matched acc;
         tr_low_confidence := tr_low_confidence acc ++ [r];
         tr_unmatched := tr_unmatched acc |}
  | t_unmatched =>
      {| tr_matched := tr_matched acc;
         tr_low_confidence := tr_low_confidence acc;
         tr_unmatched := tr_unmatched acc ++ [r] |}
  end.

Definition snapshot_bucket_eqb (a b : snapshot_bucket) : bool :=
  match a, b with
  | matched_by_link, matched_by_link
  | matched_by_title, matched_by_title
  | low_confidence, low_confidence
  | stip_ltipp, stip_ltipp
  | elections, elections
  | unmatched, unmatched => true
  | _, _ => false
  end.

Definition tally_bucket_eqb (a b : tally_bucket) : bool :=
  match a, b with
  | t_matched, t_matched
  | t_low_confidence, t_low_confidence
  | t_unmatched, t_unmatched => true
  | _, _ => false
  end.

(** [snapshot_results[b]] and [tally_results[b]] *)
Definition snapshot_get (b : snapshot_bucket) (acc : snapshot_results)
  : list match_result :=
  match b with
  | matched_by_link => sr_matched_by_link acc
  | matched_by_title => sr_matched_by_title acc
  | low_confidence => sr_low_confidence acc
  | stip_ltipp => sr_stip_ltipp acc
  | elections => sr_elections acc
  | unmatched => sr_unmatched acc
  end.

Definition tally_get (b : tally_bucket) (acc : tally_results)
  : list match_result :=
  match b with
  | t_matched => tr_matched acc
  | t_low_confidence => tr_low_confidence acc
  | t_unmatched => tr_unmatched acc
  end.

(** The results a list of (bucket, result) pairs sends to bucket [b]. *)
Definition sent_to {B : Type} (eqb : B -> B -> bool) (b : B)
           (brs : list (B * match_result)) : list match_result :=
  map snd (filter (fun br => eqb (fst br) b) brs).

(** The invariant of a result: a candidate is set exactly when a score is. *)
Definition candidate_iff_score (r : match_result) : Prop :=
  r_proposal_id r <> None <-> r_score r <> None.

(** Which strategy provides the candidate of a row. *)
Inductive choice : Type :=
| use_title
| use_link
| no_candidate.

(** The selection order of the specification for Snapshot rows: the title
    match at 70 or more, else the link match at 70 or more, else the title
    match at 55 or more, else the link match at 60 or more, else nothing.
    A match is a candidate, when there is one, and its score. *)
Definition selection_order (title_match link_match : option string * Q)
  : choice :=
  let reaches (m : option string * Q) (threshold : Q) :=
    match fst m with
    | Some _ => Py.ge (snd m) threshold
    | None => false
    end in
  if reaches title_match 70 then use_title
  else if reaches link_match 70 then use_link
  else if reaches title_match 55 then use_title
  else if reaches link_match 60 then use_link
  else no_candidate.

(** The selection for Tally rows in the words of the specification: the
    link match only when it reaches 70 and there is no title match,
    otherwise the title match, and nothing when there is neither. *)
Definition tally_order_claimed (title_match link_match : option string * Q)
  : choice :=
  match fst title_match with
  | Some _ => use_title
  | None =>
      match fst link_match with
      | Some _ => if Py.ge (snd link_match) 70 then use_link else no_candidate
      | None => no_candidate
      end
  end.

(** Every result of a run, bucket after bucket. *)
Definition snapshot_all (acc : snapshot_results) : list match_result :=
  sr_matched_by_link acc ++ sr_matched_by_title acc ++ sr_low_confidence acc
  ++ sr_stip_ltipp acc ++ sr_elections acc ++ sr_unmatched acc.

Definition tally_all (acc : tally_results) : list match_result :=
  tr_matched acc ++ tr_low_confidence acc ++ tr_unmatched acc.

(** [table[id] = proposal_id] for every result of a bucket, in order. *)
Definition collect_ids (rs : list match_result)
           (table : dict json (option string)) : dict json (option string) :=
  fold_left (fun d r => dict_set json_eqb (r_id r) (r_proposal_id r) d) rs table.

(** The copy of one row for the updated table. *)
Definition update_row (table : dict json (option string)) (s : row)
  : option row :=
  id <- row_item "id" s ;;
  Some (match dict_get json_eqb id table with
        | Some v => dict_set String.eqb "proposal_id" (json_of_opt v) s
        | None => s
        end).

(** A loop whose body may raise: the rows are visited in order and the
    first exception ends the run. *)
Fixpoint for_each {X S : Type} (body : X -> S -> option S) (xs : list X)
         (acc : S) : option S :=
  match xs with
  | [] => Some acc
  | x :: xs' => acc' <- body x acc ;; for_each body xs' acc'
  end.

Fixpoint map_m {X Y : Type} (f : X -> option Y) (xs : list X)
  : option (list Y) :=
  match xs with
  | [] => Some []
  | x :: xs' => y <- f x ;; ys <- map_m f xs' ;; Some (y :: ys)
  end.

(* ================================================================= *)
(** ** Stand-ins for the similarity metrics

    The engine below takes the metrics of [rapidfuzz] as parameters.  The
    definitions of this module are used only to run it on sample tables. *)

Module Fuzz.

(** One row of the table of longest common subsequences: [old] is the row
    of the previous character, [diag] and [left] the neighbours. *)
Fixpoint lcs_row (c : ascii) (b : string) (old : list nat) (diag left : nat)
  : list nat :=
  match b, old with
  | String x b', o :: old' =>
      let v := if Ascii.eqb c x then S diag else Nat.max o left in
      v :: lcs_row c b' old' o v
  | _, _ => []
  end.

Fixpoint lcs_rows (a b : string) (cur : list nat) : list nat :=
  match a with
  | EmptyString => cur
  | String c a' => lcs_rows a' b (lcs_row c b cur 0 0)
  end.

(** Length of a longest common subsequence. *)
Definition lcs (a b : string) : nat :=
  last (lcs_rows a b (repeat 0%nat (String.length b))) 0%nat.

(** Modelled from the spec: [fuzz.ratio] of [rapidfuzz], which is not part
    of the sources; the edit-similarity ratio on the scale 0..100, from
    the lengths and the insert/delete distance of the two strings:
    [100 * 2 * lcs / (len a + len b)]. *)
Definition ratio (a b : string) : Q :=
  let n := (String.length a + String.length b)%nat in
  if (n =? 0)%nat then 100
  else Z.of_nat (200 * lcs a b) # Pos.of_nat n.

(** The substrings of [s] of length [n], from left to right. *)
Fixpoint windows (n : nat) (s : string) : list string :=
  Py.take n s ::
  match s with
  | EmptyString => []
  | String _ s' => if (String.length s' <? n)%nat then [] else windows n s'
  end.

Definition best_of (scores : list Q) : Q :=
  fold_left (fun m x => if Py.gt x m then x else m) scores 0.

(** Modelled from the spec: [fuzz.partial_ratio] of [rapidfuzz], which is
    not part of the sources; the best [ratio] of the shorter string
    against a substring of the longer one of the same length. *)
Definition partial_ratio (a b : string) : Q :=
  let '(short, long) :=
    if (String.length a <=? String.length b)%nat then (a, b) else (b, a) in
  best_of (map (ratio short) (windows (String.length short) long)).

(** [s.split()]: the words between runs of blanks. *)
Fixpoint tokens_aux (s cur : string) : list string :=
  match s with
  | EmptyString => if Py.truthy cur then [Py.rev cur] else []
  | String c s' =>
      if Py.is_space c
      then (if Py.truthy cur then [Py.rev cur] else []) ++ tokens_aux s' EmptyString
      else tokens_aux s' (String c cur)
  end.

Definition tokens (s : string) : list string := tokens_aux s EmptyString.

(** Modelled from the spec: [fuzz.token_set_ratio] of [rapidfuzz], which
    is not part of the sources; the overlap of the two sets of words,
    whatever their order and repetitions, on the scale 0..100. *)
Definition token_set_ratio (a b : string) : Q :=
  let ta := nodup string_dec (tokens a) in
  let tb := nodup string_dec (tokens b) in
  let n := (List.length ta + List.length tb)%nat in
  if (n =? 0)%nat then 0
  else
    Z.of_nat (200 * List.length (filter (fun t => Py.in_list t tb) ta))
    # Pos.of_nat n.

End Fuzz.

(* ================================================================= *)
(** ** Sample tables *)

Module Sample.

(** [html.unescape] returns a text without [&] as it is; no sample text
    below has one. *)
Definition unescape (s : string) : string := s.

Definition catalogue : list proposal :=
  [ {| p_id := "P-beta"; p_title := "Beta Plan" |};
    {| p_id := "P-alpha"; p_title := "Alpha Plan" |};
    {| p_id := "P-stip"; p_title := "Short Term Incentive Program" |} ].

(** A catalogue whose only title has no letter or digit: its slug is empty. *)
Definition punctuation : list proposal :=
  [ {| p_id := "P1"; p_title := "!!!" |} ].

(** A catalogue with a two-letter title. *)
Definition short_catalogue : list proposal :=
  [ {| p_id := "P-ab"; p_title := "AB" |} ].

Definition field (k v : string) : string * json := (k, JStr v).

(** Snapshot rows: a title match; an election title that also holds an
    override key, with a forum link in the body; a title that is both a
    protocol grant and an election; an override; a link match; a row
    without title; an election row that already carries a [proposal_id]. *)
Definition s_title : row :=
  [ field "id" "s1"; field "title" "Beta Plan"; field "body" "" ].

Definition s_election : row :=
  [ field "id" "s2";
    field "title" "Security Council Election: Safeguarding Software Developers";
    field "body" "Thread: https://forum.arbitrum.foundation/t/alpha-plan/12" ].

Definition s_stip_election : row :=
  [ field "id" "s3"; field "title" "Security Council Election STIP Addendum" ].

Definition s_override : row :=
  [ field "id" "s4"; field "title" "AIP: Safeguarding Software Developers";
    field "author_name" "carol" ].

Definition s_link : row :=
  [ field "id" "s5"; field "title" "Quarterly report";
    field "body" "Thread: https://forum.arbitrum.foundation/t/alpha-plan/12" ].

Definition s_null : row :=
  [ field "id" "s6"; ("title", JNull) ].

Definition s_stale : row :=
  [ field "id" "s7"; field "title" "Council Election";
    field "proposal_id" "stale" ].

Definition snapshot_stage : list row :=
  [ s_title; s_election; s_stip_election; s_override; s_link; s_null; s_stale ].

(** Tally rows: a title and a description that point to different
    proposals; an empty title; an override; a two-letter title; an
    election title with an override key; a generic link; two links of
    which the second scores higher. *)
Definition t_conflict : row :=
  [ field "id" "t1"; field "title" "Beta Plan";
    field "description" "See https://forum.arbitrum.foundation/t/alpha-plan/77" ].

Definition t_empty : row :=
  [ field "id" "t2"; field "title" "" ].

Definition t_override : row :=
  [ field "id" "t3"; field "title" "ArbOS 20 upgrade" ].

Definition t_short : row :=
  [ field "id" "t4"; field "title" "ab" ].

Definition t_election : row :=
  [ field "id" "t5"; field "title" "Security Council Election after ArbOS 20" ].

Definition t_generic : row :=
  [ field "id" "t6"; field "title" "Grants";
    field "description"
      "https://forum.arbitrum.foundation/t/short-term-incentive-program/100" ].

Definition t_two_links : row :=
  [ field "id" "t7"; field "title" "Misc";
    field "description"
      "forum.arbitrum.foundation/t/alpha-plans/7 forum.arbitrum.foundation/t/beta-plan/9" ].

Definition tally_stage : list row :=
  [ t_conflict; t_empty; t_override; t_short; t_election; t_generic;
    t_two_links ].

End Sample.

(* ================================================================= *)
(** ** Helpers of [generate_prompts.py] that need no library *)

(** [is_skip_snapshot(title)]: an empty title is skipped, and so is a
    title in which one of the fourteen patterns is found, all of them
    searched case-insensitively. *)
Definition is_skip_snapshot (title : string) : bool :=
  if negb (Py.truthy title) then true
  else existsb (fun p => Re.search true p title)
               (stip_ltipp_patterns ++ election_patterns).

(* ================================================================= *)
(** ** Shapes of strings, to state what the text helpers return *)

Module Shape.

(** Length of the longest prefix of [s] whose characters satisfy [p]. *)
Fixpoint span (p : ascii -> bool) (s : string) : nat :=
  match s with
  | String c s' => if p c then S (span p s') else O
  | EmptyString => O
  end.

(** [s] without the characters that satisfy [p]. *)
Fixpoint remove (p : ascii -> bool) (s : string) : string :=
  match s with
  | String c s' => if p c then remove p s' else String c (remove p s')
  | EmptyString => EmptyString
  end.

(** [s] with every maximal run of characters that satisfy [p] replaced by
    the single character [d]; [inrun] tells that such a run is going on. *)
Fixpoint squeeze (p : ascii -> bool) (d : ascii) (inrun : bool) (s : string)
  : string :=
  match s with
  | String c s' =>
      if p c then
        if inrun then squeeze p d true s' else String d (squeeze p d true s')
      else String c (squeeze p d false s')
  | EmptyString => EmptyString
  end.

(** No two characters in a row satisfy [p]. *)
Fixpoint no_adjacent (p : ascii -> bool) (s : string) : bool :=
  match s with
  | String a t =>
      match t with
      | String b _ => negb (p a && p b) && no_adjacent p t
      | EmptyString => true
      end
  | EmptyString => true
  end.

(** The first, respectively the last, character satisfies [p]. *)
Definition starts_by (p : ascii -> bool) (s : string) : bool :=
  match s with
  | String c _ => p c
  | EmptyString => false
  end.

Definition ends_by (p : ascii -> bool) (s : string) : bool :=
  starts_by p (Py.rev s).

(** [s[n:]] *)
Fixpoint drop (n : nat) (s : string) : string :=
  match n, s with
  | S n', String _ s' => drop n' s'
  | _, _ => s
  end.

(** [s] begins with the word [w], compared as the matcher compares
    characters. *)
Fixpoint begins (ic : bool) (w s : string) : bool :=
  match w, s with
  | EmptyString, _ => true
  | String a w', String b s' => Re.chr_eq ic a b && begins ic w' s'
  | String _ _, EmptyString => false
  end.

(** A character of the ASCII range. *)
Definition is_ascii (c : ascii) : bool := (nat_of_ascii c <? 128)%nat.

Definition is_hyphen (c : ascii) : bool := Ascii.eqb "-"%char c.

(** The characters of a slug: lower-case letters, digits, [_] and [-]. *)
Definition slug_alphabet (c : ascii) : bool :=
  Py.is_lower c || Py.is_digit c || Ascii.eqb c "_"%char
  || Ascii.eqb c "-"%char.

(** Blank is the only white space. *)
Definition blank_or_ink (c : ascii) : bool :=
  negb (Py.is_space c) || Ascii.eqb c " "%char.

End Shape.

(* ================================================================= *)
(** ** The matching engine *)

Section Engine.

(** [html.unescape] *)
Variable html_unescape : string -> string.
(** [fuzz.ratio], [fuzz.partial_ratio] and [fuzz.token_set_ratio] *)
Variable fuzz_ratio : string -> string -> Q.
Variable fuzz_partial_ratio : string -> string -> Q.
Variable fuzz_token_set_ratio : string -> string -> Q.
(** The product of two floats. *)
Variable fmul : Q -> Q -> Q.
(** The catalogue read from [proposal.json]. *)
Variable proposals : list proposal.

Definition normalize_prefixes : list Re.regex :=
  [ Re.seqs [ Re.Bos; Re.Opt (Re.Chr "[");
              Re.Group 1
                (Re.alts
                   (Re.seqs [Re.lit "Non"; Re.Opt (Re.Chr "-");
                             Re.lit "Constitutional"])
                   [ Re.lit "Constitutional"; Re.lit "RFC"; Re.lit "AIP";
                     Re.lit "Draft"; Re.lit "DRAFT";
                     Re.lit "NON-CONSTITUTIONAL"; Re.lit "FINAL" ]);
              Re.Opt (Re.Chr "]"); Re.Star Re.space;
              Re.Opt (Re.Chr ":"); Re.Star Re.space ];
    Re.seqs [ Re.Bos; Re.lit "Proposal"; Re.Star Re.space;
              Re.Opt (Re.Chr ":"); Re.Star Re.space ];
    Re.seqs [ Re.Bos; Re.Chr "#"; Re.Star Re.space ];
    Re.seqs [ Re.Bos; Re.Opt (Re.Chr "["); Re.lit "UPDATED";
              Re.Opt (Re.Chr "]"); Re.Star Re.space ];
    Re.seqs [ Re.Bos; Re.Opt (Re.Chr "["); Re.lit "Updated";
              Re.Opt (Re.Chr "]"); Re.Star Re.space ] ].

(** [normalize_title(title)].  The classes [\s] and [lower] are Python's
    on ASCII characters: the definition follows the code when the
    unescaped title is ASCII. *)
Definition normalize_title (title : string) : string :=
  if negb (Py.truthy title) then EmptyString
  else
    let title := html_unescape title in
    let title :=
      fold_left (fun t prefix => Re.sub true prefix EmptyString t)
                normalize_prefixes title in
    Py.lower (Py.strip (Re.sub false (Re.Plus Re.space) " " title)).

(** [title_to_slug(title)].  The classes [\w], [\s] and [lower] are
    Python's on ASCII characters: the definition follows the code when
    the unescaped title is ASCII. *)
Definition title_to_slug (title : string) : string :=
  if negb (Py.truthy title) then EmptyString
  else
    let title := Py.lower (html_unescape title) in
    let title :=
      Re.sub false
        (Re.Cls (fun c => negb (Py.is_word c || Py.is_space c
                                || Ascii.eqb c "-"%char)))
        EmptyString title in
    let title := Re.sub false (Re.Plus Re.space) "-" title in
    let title := Re.sub false (Re.Plus (Re.Chr "-")) "-" title in
    Py.strip_char "-" title.

(** [proposal_by_id]: a later proposal replaces an earlier one of the
    same id. *)
Definition proposal_by_id : dict string proposal :=
  fold_left (fun d p => dict_set String.eqb (p_id p) p d) proposals [].

(** One round of the loop that fills [proposal_slugs]. *)
Definition add_slugs (index : dict string string) (p : proposal)
  : dict string string :=
  let title := html_unescape (p_title p) in
  let slug := title_to_slug title in
  let index := dict_set String.eqb slug (p_id p) index in
  let norm_title := normalize_title title in
  if Py.truthy norm_title
  then dict_set String.eqb (title_to_slug norm_title) (p_id p) index
  else index.

Definition proposal_slugs : dict string string :=
  fold_left add_slugs proposals [].

(** The scan of [find_proposal_by_slug] over the items of the index. *)
Definition slug_scan (slug : string) (index : dict string string)
           (start : option string * Q) : option string * Q :=
  fold_left
    (fun best item =>
       let score := fuzz_ratio slug (fst item) in
       if Py.gt score (snd best) then (Some (snd item), score) else best)
    index start.

(** [find_proposal_by_slug(slug)] *)
Definition find_proposal_by_slug (slug : string) : option string * Q :=
  if negb (Py.truthy slug) then (None, 0)
  else
    let slug := Py.lower slug in
    match dict_get String.eqb slug proposal_slugs with
    | Some id => (Some id, 100)
    | None =>
        let best := slug_scan slug proposal_slugs (None, 0) in
        if Py.ge (snd best) 70 then best else (None, snd best)
    end.

(** [combined_score] of the title matcher, from the three metrics. *)
Definition combine (score1 score2 score3 : Q) : Q :=
  Py.max3 score1 (fmul score2 (95 # 100)) (fmul score3 (9 # 10)).

Definition combined_score (norm_title : string) (p : proposal) : Q :=
  let p_norm := normalize_title (p_title p) in
  combine (fuzz_ratio norm_title p_norm)
          (fuzz_partial_ratio norm_title p_norm)
          (fuzz_token_set_ratio norm_title p_norm).

(** The scan of [find_best_title_match] over the catalogue. *)
Definition title_scan (norm_title : string) (ps : list proposal)
           (start : option proposal * Q) : option proposal * Q :=
  fold_left
    (fun best p =>
       let score := combined_score norm_title p in
       if Py.gt score (snd best) then (Some p, score) else best)
    ps start.

(** [find_best_title_match(title, min_score)]; subscripting a
    [best_match] that is still [None] raises. *)
Definition find_best_title_match (title : string) (min_score : Q)
  : option (option string * option string * Q) :=
  if negb (Py.truthy title) then Some (None, None, 0)
  else
    let norm_title := normalize_title title in
    let best := title_scan norm_title proposals (None, 0) in
    if Py.ge (snd best) min_score then
      match fst best with
      | Some p => Some (Some (p_id p), Some (html_unescape (p_title p)), snd best)
      | None => None
      end
    else Some (None, None, snd best).

(** The fresh [result] of a row. *)
Definition new_result (id : json) (title : string) (author : json)
           (links : option (list link)) : match_result :=
  {| r_id := id; r_title := title; r_author := author;
     r_proposal_id := None; r_matched_title := None; r_score := None;
     r_method := None; r_forum_links := links; r_category := "standard" |}.

(** The Snapshot link strategy: generic links are skipped and the first
    link of the highest score is kept, with its slug. *)
Definition snapshot_link_step (best : option string * Q * option string)
           (l : link) : option string * Q * option string :=
  let slug := fst l in
  if generic_link slug then best
  else
    let '(p_id, score) := find_proposal_by_slug slug in
    if Py.gt score (snd (fst best)) then (p_id, score, Some slug) else best.

Definition snapshot_best_link (forum_links : list link)
  : option string * Q * option string :=
  fold_left snapshot_link_step forum_links (None, 0, None).

(** The method tag of a link match; slicing a [None] slug raises. *)
Definition link_method (best_link_slug : option string) : option string :=
  slug <- best_link_slug ;;
  Some ("forum_link_slug (" ++ Py.take 30 slug ++ "...)")%string.

(** [html.unescape(proposal_by_id[id]['title']) if id in proposal_by_id
    else None] *)
Definition link_matched_title (id : string) : option string :=
  match dict_get String.eqb id proposal_by_id with
  | Some p => Some (html_unescape (p_title p))
  | None => None
  end.

(** The decision of the Snapshot loop between the two strategies. *)
Definition snapshot_decide
           (tm : option string * option string * Q)
           (lm : option string * Q * option string)
           (result : match_result) : option match_result :=
  let '(title_match_id, title_match_title, title_score) := tm in
  let '(best_link_match, best_link_score, best_link_slug) := lm in
  let use_title :=
    Some (with_method (Some "title_fuzzy")
           (with_score (Some title_score)
             (with_matched_title title_match_title
               (with_proposal_id title_match_id result)))) in
  let use_link :=
    method <- link_method best_link_slug ;;
    Some (with_matched_title
            (match best_link_match with
             | Some id => link_matched_title id
             | None => None
             end)
            (with_method (Some method)
              (with_score (Some best_link_score)
                (with_proposal_id best_link_match result)))) in
  if Py.truthy_opt title_match_id && Py.ge title_score 70 then use_title
  else if Py.truthy_opt best_link_match && Py.ge best_link_score 70 then use_link
  else if Py.truthy_opt title_match_id && Py.ge title_score 55 then use_title
  else if Py.truthy_opt best_link_match && Py.ge best_link_score 60 then use_link
  else Some result.

(** The final bucket of a Snapshot result; comparing a [None] score
    raises. *)
Definition snapshot_categorize (result : match_result)
  : option (snapshot_bucket * match_result) :=
  if Py.truthy_opt (r_proposal_id result) then
    score <- r_score result ;;
    if Py.ge score 70 then
      if Py.contains "forum_link" (str_of_method (r_method result))
      then Some (matched_by_link, result)
      else Some (matched_by_title, result)
    else Some (low_confidence, with_category "low_confidence" result)
  else Some (unmatched, result).

(** The body of the loop over [snapshot_stage]: the bucket the result is
    appended to, and the result. *)
Definition snapshot_row (s : row) : option (snapshot_bucket * match_result) :=
  let title := row_text "title" s in
  let body := row_text "body" s in
  id <- row_item "id" s ;;
  let result := new_result id title (row_get "author_name" s) (Some []) in
  if is_stip_ltipp_protocol title then
    Some (stip_ltipp,
          with_forum_links (Some (extract_forum_links body))
            (with_category "stip_ltipp_protocol" result))
  else if is_election title then
    Some (elections, with_category "election" result)
  else
    let result :=
      match override_lookup MANUAL_OVERRIDES_SNAPSHOT title with
      | Some proposal_id =>
          with_matched_title
            (Some (match dict_get String.eqb proposal_id proposal_by_id with
                   | Some p => p_title p
                   | None => "Manual"
                   end))
            (with_score (Some 100)
              (with_method (Some "manual_override")
                (with_proposal_id (Some proposal_id) result)))
      | None => result
      end in
    if Py.truthy_opt (r_proposal_id result) then
      Some (matched_by_title, result)
    else
      let forum_links := extract_forum_links body in
      let result := with_forum_links (Some forum_links) result in
      tm <- find_best_title_match title 55 ;;
      let lm := snapshot_best_link forum_links in
      result <- snapshot_decide tm lm result ;;
      snapshot_categorize result.

(** The test [p_id and score >= 70] of the Tally link loop. *)
Definition tally_hit (r : option string * Q) : bool :=
  Py.truthy_opt (fst r) && Py.ge (snd r) 70.

(** The Tally link strategy: the loop stops at the first link, in order,
    that passes the test, and keeps its candidate and score. *)
Fixpoint tally_first_link (forum_links : list link)
  : option (option string * Q) :=
  match forum_links with
  | [] => None
  | (slug, _) :: rest =>
      let r := find_proposal_by_slug slug in
      if tally_hit r then Some r else tally_first_link rest
  end.

(** The final bucket of a Tally result. *)
Definition tally_categorize (result : match_result)
  : option (tally_bucket * match_result) :=
  if Py.truthy_opt (r_proposal_id result) then
    score <- r_score result ;;
    if Py.ge score 75 then Some (t_matched, result)
    else Some (t_low_confidence, with_category "low_confidence" result)
  else Some (t_unmatched, result).

(** The body of the loop over [tally_stage]. *)
Definition tally_row (t : row) : option (tally_bucket * match_result) :=
  let title := row_text "title" t in
  let description := row_text "description" t in
  id <- row_item "id" t ;;
  let result := new_result id title (row_get "author_name" t) None in
  if tally_garbage title then
    Some (t_unmatched, with_category "garbage" result)
  else
    let result :=
      match override_lookup MANUAL_OVERRIDES_TALLY title with
      | Some proposal_id =>
          with_matched_title
            (Some (match dict_get String.eqb proposal_id proposal_by_id with
                   | Some p => html_unescape (p_title p)
                   | None => "Manual"
                   end))
            (with_score (Some 100)
              (with_method (Some "manual_override")
                (with_proposal_id (Some proposal_id) result)))
      | None => result
      end in
    let result :=
      if negb (Py.truthy_opt (r_proposal_id result)) then
        match tally_first_link (extract_forum_links description) with
        | Some (p_id, score) =>
            with_matched_title
              (match p_id with
               | Some id => link_matched_title id
               | None => None
               end)
              (with_method (Some "forum_link_slug")
                (with_score (Some score)
                  (with_proposal_id p_id result)))
        | None => result
        end
      else result in
    result <-
      (if negb (Py.truthy_opt (r_proposal_id result)) then
         '(p_id, p_title, score) <- find_best_title_match title 60 ;;
         if Py.truthy_opt p_id then
           Some (with_method (Some "title_fuzzy")
                  (with_score (Some score)
                    (with_matched_title p_title
                      (with_proposal_id p_id result))))
         else Some result
       else Some result) ;;
    tally_categorize result.

(** The two matching loops, each taken alone: in the script the Tally
    loop runs once the Snapshot loop has finished, see [matching_run]. *)
Definition match_snapshot (snapshot_stage : list row)
  : option snapshot_results :=
  for_each
    (fun s acc => '(b, r) <- snapshot_row s ;; Some (snapshot_append b r acc))
    snapshot_stage empty_snapshot_results.

Definition match_tally (tally_stage : list row) : option tally_results :=
  for_each
    (fun t acc => '(b, r) <- tally_row t ;; Some (tally_append b r acc))
    tally_stage empty_tally_results.

(** [snapshot_id_to_proposal] and [tally_id_to_proposal] *)
Definition snapshot_id_to_proposal (res : snapshot_results)
  : dict json (option string) :=
  collect_ids (sr_matched_by_title res) (collect_ids (sr_matched_by_link res) []).

Definition tally_id_to_proposal (res : tally_results)
  : dict json (option string) :=
  collect_ids (tr_matched res) [].

(** [snapshot_stage_updated] and [tally_stage_updated], each as a function
    of its own table: in the script both copies are made once both loops
    have finished, see [matching_run]. *)
Definition snapshot_stage_updated (snapshot_stage : list row)
  : option (list row) :=
  res <- match_snapshot snapshot_stage ;;
  map_m (update_row (snapshot_id_to_proposal res)) snapshot_stage.

Definition tally_stage_updated (tally_stage : list row)
  : option (list row) :=
  res <- match_tally tally_stage ;;
  map_m (update_row (tally_id_to_proposal res)) tally_stage.

(** The keys one catalogue entry writes into the slug index: the slug of
    its title and, when the normalised title is not empty, the slug of the
    normalised title. *)
Definition slug_keys (p : proposal) : list string :=
  let title := html_unescape (p_title p) in
  title_to_slug title ::
  (if Py.truthy (normalize_title title)
   then [title_to_slug (normalize_title title)] else []).

(** Truthiness of a JSON scalar. *)
Definition json_truthy (v : json) : bool :=
  match v with
  | JNull => false
  | JStr s => Py.truthy s
  end.

(** [sum(1 for t in rows if t.get('proposal_id'))] *)
Definition with_proposal (rows : list row) : nat :=
  List.length (filter (fun t => json_truthy (row_get "proposal_id" t)) rows).

(** [100*n/total]; the division raises when [total] is zero. *)
Definition percent (n total : nat) : option Q :=
  if (total =? 0)%nat then None
  else Some (inject_Z (Z.of_nat (100 * n)) / inject_Z (Z.of_nat total))%Q.

(** The figures of the lines [Final matched counts]: for Tally and then
    for Snapshot, the number of updated rows with a [proposal_id] and its
    share of the input rows in percent. *)
Definition final_matched_counts (snapshot_stage tally_stage : list row)
  : option ((nat * Q) * (nat * Q)) :=
  snapshot_out <- snapshot_stage_updated snapshot_stage ;;
  tally_out <- tally_stage_updated tally_stage ;;
  let tally_with_proposal := with_proposal tally_out in
  let snapshot_with_proposal := with_proposal snapshot_out in
  tally_share <- percent tally_with_proposal (List.length tally_stage) ;;
  snapshot_share <-
    percent snapshot_with_proposal (List.length snapshot_stage) ;;
  Some ((tally_with_proposal, tally_share),
        (snapshot_with_proposal, snapshot_share)).

(** The run of the script up to the updated tables, in the order of the
    file: the Snapshot loop, the Tally loop, the two id tables and the two
    copies.  The first [KeyError] ends the run, so the Tally loop and both
    copies are reached only when every loop before them has finished.
    [match_snapshot], [match_tally] and the two [_stage_updated] functions
    above describe one loop each, given that the run reaches it. *)
Definition matching_run (snapshot_stage tally_stage : list row)
  : option (snapshot_results * tally_results * list row * list row) :=
  snapshot_results <- match_snapshot snapshot_stage ;;
  tally_results <- match_tally tally_stage ;;
  snapshot_out <-
    map_m (update_row (snapshot_id_to_proposal snapshot_results))
          snapshot_stage ;;
  tally_out <-
    map_m (update_row (tally_id_to_proposal tally_results)) tally_stage ;;
  Some (snapshot_results, tally_results, snapshot_out, tally_out).

(* =============================================================== *)
(** ** Properties *)

(** *** Score comparisons *)

Lemma gt_true (a b : Q) : Py.gt a b = true <-> (b < a)%Q.
Proof.
  unfold Py.gt. rewrite negb_true_iff, <- not_true_iff_false, Qle_bool_iff.
  split; [apply Qnot_le_lt | apply Qlt_not_le].
Qed.

Lemma gt_false (a b : Q) : Py.gt a b = false <-> (a <= b)%Q.
Proof.
  unfold Py.gt. rewrite negb_false_iff. apply Qle_bool_iff.
Qed.

Lemma ge_true (a b : Q) : Py.ge a b = true <-> (b <= a)%Q.
Proof. unfold Py.ge. apply Qle_bool_iff. Qed.

Lemma ge_false (a b : Q) : Py.ge a b = false <-> (a < b)%Q.
Proof.
  unfold Py.ge. rewrite <- not_true_iff_false, Qle_bool_iff.
  split; [apply Qnot_le_lt | apply Qlt_not_le].
Qed.

Lemma max3_upper (a b c : Q) :
  (a <= Py.max3 a b c /\ b <= Py.max3 a b c /\ c <= Py.max3 a b c)%Q.
Proof.
  unfold Py.max3.
  destruct (Py.gt b a) eqn:Hba;
    [apply gt_true in Hba | apply gt_false in Hba];
    match goal with
    | |- context [Py.gt c ?m] =>
        destruct (Py.gt c m) eqn:Hc;
        [apply gt_true in Hc | apply gt_false in Hc]
    end;
    repeat split;
    eauto using Qle_refl, Qlt_le_weak, Qle_trans, Qlt_trans.
Qed.

Lemma max3_attained (a b c : Q) :
  Py.max3 a b c = a \/ Py.max3 a b c = b \/ Py.max3 a b c = c.
Proof.
  unfold Py.max3.
  destruct (Py.gt b a);
    match goal with
    | |- context [Py.gt c ?m] => destruct (Py.gt c m)
    end; auto.
Qed.

(** *** Loops that keep the first item of the highest score *)

Section Scan.
Variables X S : Type.
Variable get : S -> Q.
Variable score : X -> Q.
Variable mk : X -> S.
Hypothesis get_mk : forall x, get (mk x) = score x.

Definition keep_best (best : S) (x : X) : S :=
  if Py.gt (score x) (get best) then mk x else best.

Lemma keep_best_scan (xs : list X) (start : S) :
  (fold_left keep_best xs start = start
   /\ Forall (fun x => score x <= get start)%Q xs)
  \/ exists pre x post,
       xs = pre ++ x :: post /\ fold_left keep_best xs start = mk x
       /\ (get start < score x)%Q
       /\ Forall (fun y => score y < score x)%Q pre
       /\ Forall (fun y => score y <= score x)%Q post.
Proof.
  induction xs as [|x xs IH] using rev_ind.
  - left. split; [reflexivity | constructor].
  - rewrite fold_left_app. cbn [fold_left].
    remember (fold_left keep_best xs start) as r0 eqn:Er0.
    unfold keep_best.
    destruct (Py.gt (score x) (get r0)) eqn:Hgt.
    + apply gt_true in Hgt. right. exists xs, x, [].
      destruct IH as [[Hr Hall] | (pre & y & post & Hxs & Hr & Hlt & Hpre & Hpost)].
      * rewrite Hr in Hgt. repeat split; auto.
        eapply Forall_impl; [| exact Hall]. simpl. intros z Hz.
        eapply Qle_lt_trans; eauto.
      * rewrite Hr, get_mk in Hgt. repeat split; auto.
        -- eapply Qlt_trans; eauto.
        -- subst xs. apply Forall_app. split.
           ++ eapply Forall_impl; [| exact Hpre]. simpl. intros z Hz.
              eapply Qlt_trans; eauto.
           ++ constructor; [assumption |].
              eapply Forall_impl; [| exact Hpost]. simpl. intros z Hz.
              eapply Qle_lt_trans; eauto.
    + apply gt_false in Hgt.
      destruct IH as [[Hr Hall] | (pre & y & post & Hxs & Hr & Hlt & Hpre & Hpost)].
      * left. split; [assumption |]. apply Forall_app. split; [assumption |].
        constructor; [| constructor]. rewrite Hr in Hgt. exact Hgt.
      * right. exists pre, y, (post ++ [x]). subst xs.
        rewrite <- app_assoc. simpl. repeat split; auto.
        apply Forall_app. split; [assumption |].
        constructor; [| constructor]. rewrite Hr, get_mk in Hgt. exact Hgt.
Qed.

(** The score kept at the end bounds the start and every item. *)
Lemma keep_best_upper (xs : list X) (start : S) :
  (get start <= get (fold_left keep_best xs start))%Q
  /\ Forall (fun x => score x <= get (fold_left keep_best xs start))%Q xs.
Proof.
  destruct (keep_best_scan xs start)
    as [[Hr Hall] | (pre & x & post & Hxs & Hr & Hlt & Hpre & Hpost)];
    rewrite Hr.
  - split; [apply Qle_refl | exact Hall].
  - rewrite get_mk. split; [apply Qlt_le_weak; exact Hlt |].
    subst xs. apply Forall_app. split.
    + eapply Forall_impl; [| exact Hpre]. simpl. intros. now apply Qlt_le_weak.
    + constructor; [apply Qle_refl | exact Hpost].
Qed.
End Scan.


(** *** The combined score of the title matcher *)

(** C9 (as amended).  For every query title and catalogue entry the
    combined score is [max(ratio, partial * 0.95, token_set * 0.90)]: it
    is one of the three weighted terms and none of them exceeds it.  It
    is therefore never below [ratio], and strictly above it as soon as
    one of the discounted terms exceeds [ratio]. *)
Theorem combined_score_is_max (norm_title : string) (p : proposal) :
  let p_norm := normalize_title (p_title p) in
  let r := fuzz_ratio norm_title p_norm in
  let s := fmul (fuzz_partial_ratio norm_title p_norm) (95 # 100) in
  let t := fmul (fuzz_token_set_ratio norm_title p_norm) (9 # 10) in
  let c := combined_score norm_title p in
  c = Py.max3 r s t
  /\ (c = r \/ c = s \/ c = t)
  /\ (r <= c /\ s <= c /\ t <= c)%Q
  /\ ((r < s \/ r < t)%Q -> (r < c)%Q).
Proof.
  intros p_norm r s t c.
  assert (Hc : c = Py.max3 r s t) by reflexivity.
  destruct (max3_upper r s t) as (Hr & Hs & Ht).
  rewrite Hc. repeat split; auto using max3_attained.
  intros [H | H]; eapply Qlt_le_trans; eauto.
Qed.


(** *** Strings: what the helpers keep *)

Lemma lower_char_not_upper (c : ascii) : Py.not_upper (Py.lower_char c) = true.
Proof.
  destruct c as [b0 b1 b2 b3 b4 b5 b6 b7].
  destruct b0, b1, b2, b3, b4, b5, b6, b7; reflexivity.
Qed.

Lemma lower_all_not_upper (s : string) :
  Py.all_chars Py.not_upper (Py.lower s) = true.
Proof.
  induction s as [|c s IH]; simpl; [reflexivity |].
  rewrite lower_char_not_upper. exact IH.
Qed.

Lemma lower_fixed (s : string) :
  Py.all_chars Py.not_upper s = true -> Py.lower s = s.
Proof.
  induction s as [|c s IH]; simpl; [reflexivity |].
  intros H. apply andb_true_iff in H. destruct H as [Hc Hs].
  rewrite (IH Hs). unfold Py.lower_char.
  unfold Py.not_upper in Hc. apply negb_true_iff in Hc. now rewrite Hc.
Qed.

Lemma all_chars_app (p : ascii -> bool) (a b : string) :
  Py.all_chars p (a ++ b) = Py.all_chars p a && Py.all_chars p b.
Proof.
  induction a as [|c a IH]; simpl; [reflexivity |].
  now rewrite IH, andb_assoc.
Qed.

Lemma all_chars_rev_acc (p : ascii -> bool) (s acc : string) :
  Py.all_chars p s = true -> Py.all_chars p acc = true ->
  Py.all_chars p (Py.rev_acc s acc) = true.
Proof.
  revert acc. induction s as [|c s IH]; simpl; intros acc Hs Hacc; [exact Hacc |].
  apply andb_true_iff in Hs. destruct Hs as [Hc Hs].
  apply IH; [exact Hs |]. simpl. now rewrite Hc.
Qed.

Lemma all_chars_lstrip (p q : ascii -> bool) (s : string) :
  Py.all_chars p s = true -> Py.all_chars p (Py.lstrip_by q s) = true.
Proof.
  induction s as [|c s IH]; simpl; intros Hs; [reflexivity |].
  destruct (q c); [| exact Hs].
  apply andb_true_iff in Hs. now apply IH.
Qed.

Lemma all_chars_strip (p q : ascii -> bool) (s : string) :
  Py.all_chars p s = true -> Py.all_chars p (Py.strip_by q s) = true.
Proof.
  intros Hs. unfold Py.strip_by, Py.rev.
  repeat (first [ apply all_chars_rev_acc | apply all_chars_lstrip
                | reflexivity | exact Hs ]).
Qed.

(** A substitution only keeps characters of the subject or writes the
    replacement. *)
Lemma all_chars_sub_from (p : ascii -> bool) (ic : bool) (r : Re.regex)
      (rep : string) :
  Py.all_chars p rep = true ->
  forall (s : string) (pos skip : nat),
    Py.all_chars p s = true ->
    Py.all_chars p (Re.sub_from ic r rep pos skip s) = true.
Proof.
  intros Hrep. induction s as [|c s IH]; intros pos skip Hs.
  - destruct skip; simpl; [| reflexivity].
    destruct (Re.match_at ic r pos "") as [[caps pos']|]; [| reflexivity].
    rewrite all_chars_app, Hrep. reflexivity.
  - simpl in Hs. apply andb_true_iff in Hs. destruct Hs as [Hc Hs].
    destruct skip; simpl; [| now apply IH].
    destruct (Re.match_at ic r pos (String c s)) as [[caps pos']|].
    + rewrite all_chars_app, Hrep. simpl.
      destruct (pos' - pos)%nat; simpl; [rewrite Hc; simpl |]; now apply IH.
    + simpl. rewrite Hc. simpl. now apply IH.
Qed.

Lemma all_chars_sub (p : ascii -> bool) (ic : bool) (r : Re.regex)
      (rep s : string) :
  Py.all_chars p rep = true -> Py.all_chars p s = true ->
  Py.all_chars p (Re.sub ic r rep s) = true.
Proof. intros Hrep Hs. unfold Re.sub. now apply all_chars_sub_from. Qed.

(** A slug has no upper-case letter, so lower-casing leaves it as it is. *)
Lemma title_to_slug_lower (title : string) :
  Py.lower (title_to_slug title) = title_to_slug title.
Proof.
  apply lower_fixed. unfold title_to_slug.
  destruct (negb (Py.truthy title)); [reflexivity |].
  unfold Py.strip_char. apply all_chars_strip.
  repeat (apply all_chars_sub; [reflexivity |]).
  apply lower_all_not_upper.
Qed.


(** *** Dictionaries *)

Section DictFacts.
Variables K V : Type.
Variable eqb : K -> K -> bool.
Hypothesis eqb_eq : forall a b, eqb a b = true <-> a = b.

Lemma dict_get_In (k : K) (v : V) (d : dict K V) :
  dict_get eqb k d = Some v -> In (k, v) d.
Proof.
  induction d as [|[k' v'] d IH]; simpl; [discriminate |].
  destruct (eqb k k') eqn:E.
  - apply eqb_eq in E. subst k'. intros [= ->]. now left.
  - intros H. right. now apply IH.
Qed.

Lemma dict_set_In (k k' : K) (v v' : V) (d : dict K V) :
  In (k', v') (dict_set eqb k v d) -> (k' = k /\ v' = v) \/ In (k', v') d.
Proof.
  induction d as [|[k0 v0] d IH]; simpl.
  - intros [[= <- <-] | []]. now left.
  - destruct (eqb k k0) eqn:E; simpl.
    + apply eqb_eq in E. subst k0.
      intros [[= <- <-] | H]; [now left | right; now right].
    + intros [H | H]; [right; now left |].
      destruct (IH H) as [H' | H']; [now left | right; now right].
Qed.

Lemma dict_get_set_same (k : K) (v : V) (d : dict K V) :
  dict_get eqb k (dict_set eqb k v d) = Some v.
Proof.
  assert (Hkk : eqb k k = true) by now apply eqb_eq.
  induction d as [|[k0 v0] d IH]; simpl; [now rewrite Hkk |].
  destruct (eqb k k0) eqn:E; simpl; rewrite E; [reflexivity | exact IH].
Qed.

Lemma dict_get_set_other (k k' : K) (v : V) (d : dict K V) :
  k' <> k -> dict_get eqb k' (dict_set eqb k v d) = dict_get eqb k' d.
Proof.
  intros Hne.
  assert (Hk : eqb k' k = false).
  { apply not_true_iff_false. intros H. now apply eqb_eq in H. }
  induction d as [|[k0 v0] d IH]; simpl; [now rewrite Hk |].
  destruct (eqb k k0) eqn:E; simpl.
  - apply eqb_eq in E. subst k0. now rewrite Hk.
  - destruct (eqb k' k0); [reflexivity | exact IH].
Qed.
End DictFacts.

Lemma json_eqb_eq (a b : json) : json_eqb a b = true <-> a = b.
Proof.
  destruct a as [|x], b as [|y]; simpl.
  - split; reflexivity.
  - split; discriminate.
  - split; discriminate.
  - rewrite String.eqb_eq. split; congruence.
Qed.

(** *** The slug index *)

(** Every key of the index is a slug, hence in lower case, and every
    value is the id of a catalogue entry. *)
Lemma proposal_slugs_entries (k v : string) :
  In (k, v) proposal_slugs ->
  Py.lower k = k /\ exists p, In p proposals /\ v = p_id p.
Proof.
  unfold proposal_slugs.
  assert (Hgen : forall ps index,
             (forall p, In p ps -> In p proposals) ->
             (forall k v, In (k, v) index ->
                          Py.lower k = k /\ exists p, In p proposals /\ v = p_id p) ->
             forall k v, In (k, v) (fold_left add_slugs ps index) ->
                         Py.lower k = k /\ exists p, In p proposals /\ v = p_id p).
  { induction ps as [|p ps IH]; intros index Hps Hidx k0 v0; simpl; [apply Hidx |].
    apply IH; [intros q Hq; apply Hps; now right |].
    intros k1 v1. unfold add_slugs.
    assert (Hp : In p proposals) by (apply Hps; now left).
    assert (Hone : forall x k2 v2,
               In (k2, v2) (dict_set String.eqb (title_to_slug x) (p_id p) index) ->
               Py.lower k2 = k2 /\ exists p', In p' proposals /\ v2 = p_id p').
    { intros x k2 v2 H.
      apply (dict_set_In _ _ _ String.eqb_eq) in H.
      destruct H as [[-> ->] | H]; [| now apply Hidx].
      split; [apply title_to_slug_lower | now exists p]. }
    destruct (Py.truthy (normalize_title (html_unescape (p_title p)))).
    - intros H. apply (dict_set_In _ _ _ String.eqb_eq) in H.
      destruct H as [[-> ->] | H]; [| now apply (Hone _ _ _ H)].
      split; [apply title_to_slug_lower | now exists p].
    - apply Hone. }
  apply Hgen; [auto | intros ? ? []].
Qed.

(** C8 (as amended).  For every non-empty slug query: when the slug (or
    its lower-cased form) is a key of the index the answer is that
    entry's id with score 100; otherwise every key is scored with the
    ratio against the lower-cased query, the answer's score is the best
    score seen (0 when no key scores above 0), and the candidate is the
    id of the first key of that best score when it is at least 70 and
    [None] below 70. *)
Theorem find_proposal_by_slug_spec (slug : string) :
  slug <> EmptyString ->
  let q := Py.lower slug in
  let res := find_proposal_by_slug slug in
  (forall id, dict_get String.eqb slug proposal_slugs = Some id ->
              res = (Some id, 100))
  /\ (forall id, dict_get String.eqb q proposal_slugs = Some id ->
                 res = (Some id, 100))
  /\ (dict_get String.eqb q proposal_slugs = None ->
      Forall (fun item => fuzz_ratio q (fst item) <= snd res)%Q proposal_slugs
      /\ (snd res = 0
          \/ exists key id, In (key, id) proposal_slugs
                            /\ snd res = fuzz_ratio q key)
      /\ ((snd res < 70)%Q /\ fst res = None
          \/ (70 <= snd res)%Q
             /\ exists pre key id post,
                 proposal_slugs = pre ++ (key, id) :: post
                 /\ res = (Some id, fuzz_ratio q key)
                 /\ Forall (fun item => fuzz_ratio q (fst item)
                                        < fuzz_ratio q key)%Q pre)).
Proof.
  intros Hne q res.
  assert (Htr : Py.truthy slug = true) by (destruct slug; [congruence | reflexivity]).
  assert (Hq : forall id, dict_get String.eqb q proposal_slugs = Some id ->
                          res = (Some id, 100)).
  { intros id H. unfold res, find_proposal_by_slug. rewrite Htr. simpl.
    fold q. now rewrite H. }
  split; [| split; [exact Hq |]].
  - intros id H. apply Hq.
    pose proof (dict_get_In _ _ _ String.eqb_eq _ _ _ H) as Hin.
    apply proposal_slugs_entries in Hin. destruct Hin as [Hlow _].
    unfold q. now rewrite Hlow.
  - intros Hnone. unfold res, find_proposal_by_slug. rewrite Htr. simpl.
    fold q. rewrite Hnone.
    set (sc := fun item : string * string => fuzz_ratio q (fst item)).
    set (mk := fun item : string * string => (Some (snd item), sc item)).
    change (slug_scan q proposal_slugs (None, 0))
      with (fold_left (keep_best _ _ snd sc mk) proposal_slugs (None, 0)).
    assert (Hmk : forall x, snd (mk x) = sc x) by reflexivity.
    pose proof (keep_best_upper _ _ snd sc mk Hmk proposal_slugs (None, 0))
      as [_ Hup].
    destruct (keep_best_scan _ _ snd sc mk Hmk proposal_slugs (None, 0))
      as [[Hr Hall] | (pre & [key id] & post & Hxs & Hr & Hlt & Hpre & Hpost)].
    + rewrite Hr in *. simpl. split; [exact Hall |].
      split; [now left |]. left. split; [reflexivity | reflexivity].
    + rewrite Hr in *. unfold mk, sc in *. simpl in *.
      destruct (Py.ge (fuzz_ratio q key) 70) eqn:Hge; simpl.
      * apply ge_true in Hge. split; [exact Hup |].
        split; [right; exists key, id; split; [| reflexivity];
                rewrite Hxs; apply in_or_app; right; now left |].
        right. split; [exact Hge |]. exists pre, key, id, post. auto.
      * apply ge_false in Hge. split; [exact Hup |].
        split; [right; exists key, id; split; [| reflexivity];
                rewrite Hxs; apply in_or_app; right; now left |].
        left. split; [exact Hge | reflexivity].
Qed.


(** *** The two matchers never raise at the call sites *)

(** The slug matcher answers a candidate exactly when its score reaches 70,
    and the candidate is the id of a catalogue entry. *)
Lemma find_proposal_by_slug_candidate (slug : string) :
  (fst (find_proposal_by_slug slug) = None
   /\ (snd (find_proposal_by_slug slug) < 70)%Q)
  \/ (exists p, In p proposals
                /\ fst (find_proposal_by_slug slug) = Some (p_id p)
                /\ (70 <= snd (find_proposal_by_slug slug))%Q).
Proof.
  unfold find_proposal_by_slug.
  destruct (Py.truthy slug); simpl; [| left; split; reflexivity].
  destruct (dict_get String.eqb (Py.lower slug) proposal_slugs) as [id|] eqn:Hget.
  - right. apply (dict_get_In _ _ _ String.eqb_eq) in Hget.
    apply proposal_slugs_entries in Hget. destruct Hget as (_ & p & Hp & ->).
    exists p. repeat split; [assumption | discriminate].
  - set (q := Py.lower slug).
    set (sc := fun item : string * string => fuzz_ratio q (fst item)).
    set (mk := fun item : string * string => (Some (snd item), sc item)).
    change (slug_scan q proposal_slugs (None, 0))
      with (fold_left (keep_best _ _ snd sc mk) proposal_slugs (None, 0)).
    assert (Hmk : forall x, snd (mk x) = sc x) by reflexivity.
    destruct (keep_best_scan _ _ snd sc mk Hmk proposal_slugs (None, 0))
      as [[Hr _] | (pre & [key id] & post & Hxs & Hr & _)]; rewrite Hr; simpl.
    + left. split; reflexivity.
    + unfold sc. simpl. destruct (Py.ge (fuzz_ratio q key) 70) eqn:Hge; simpl.
      * right. apply ge_true in Hge.
        assert (Hin : In (key, id) proposal_slugs).
        { rewrite Hxs. apply in_or_app. right. now left. }
        apply proposal_slugs_entries in Hin. destruct Hin as (_ & p & Hp & ->).
        exists p. auto.
      * left. apply ge_false in Hge. split; [reflexivity | exact Hge].
Qed.

(** For a positive threshold the title matcher returns: either no
    candidate and a best score below the threshold, or the id and the
    title of a catalogue entry whose combined score reaches it. *)
Lemma find_best_title_match_total (title : string) (min_score : Q) :
  (0 < min_score)%Q ->
  exists id t sc,
    find_best_title_match title min_score = Some (id, t, sc)
    /\ ((id = None /\ t = None /\ (sc < min_score)%Q)
        \/ (exists p, In p proposals /\ id = Some (p_id p)
                      /\ t = Some (html_unescape (p_title p))
                      /\ sc = combined_score (normalize_title title) p
                      /\ (min_score <= sc)%Q)).
Proof.
  intros Hmin. unfold find_best_title_match.
  destruct (Py.truthy title); simpl.
  2:{ exists None, None, 0. split; [reflexivity |]. left. auto. }
  set (nt := normalize_title title).
  set (mk := fun p : proposal => (Some p, combined_score nt p)).
  change (title_scan nt proposals (None, 0))
    with (fold_left (keep_best _ _ snd (combined_score nt) mk) proposals (None, 0)).
  assert (Hmk : forall x, snd (mk x) = combined_score nt x) by reflexivity.
  destruct (keep_best_scan _ _ snd (combined_score nt) mk Hmk proposals (None, 0))
    as [[Hr _] | (pre & p & post & Hxs & Hr & _)]; rewrite Hr; simpl.
  - destruct (Py.ge 0 min_score) eqn:Hge.
    + apply ge_true in Hge. exfalso. eapply Qlt_not_le; eauto.
    + exists None, None, 0. split; [reflexivity |]. left. auto.
  - destruct (Py.ge (combined_score nt p) min_score) eqn:Hge.
    + apply ge_true in Hge. do 3 eexists. split; [reflexivity |].
      right. exists p. repeat split; auto.
      rewrite Hxs. apply in_or_app. right. now left.
    + apply ge_false in Hge. do 3 eexists. split; [reflexivity |]. left. auto.
Qed.

(** The Snapshot link loop is a scan of the links that are not generic. *)
Lemma snapshot_best_link_filter (forum_links : list link)
      (start : option string * Q * option string) :
  fold_left snapshot_link_step forum_links start =
  fold_left
    (keep_best _ _ (fun b : option string * Q * option string => snd (fst b))
       (fun l : link => snd (find_proposal_by_slug (fst l)))
       (fun l : link => (fst (find_proposal_by_slug (fst l)),
                         snd (find_proposal_by_slug (fst l)), Some (fst l))))
    (specific_links forum_links) start.
Proof.
  revert start. induction forum_links as [|l ls IH]; intros start;
    [reflexivity |].
  cbn [fold_left]. rewrite IH. unfold specific_links. cbn [filter].
  unfold snapshot_link_step.
  destruct (generic_link (fst l)); cbn [negb fold_left]; [reflexivity |].
  f_equal. unfold keep_best. cbn [fst snd].
  destruct (find_proposal_by_slug (fst l)) as [p_id score]. reflexivity.
Qed.


(** *** The link candidate *)

(** C2 (as amended).  In the Snapshot loop the generic links are skipped
    and, among the others, the first link of the highest slug-match score
    is kept with its candidate and slug (nothing is kept when no link
    scores above 0).  In the Tally loop no link is skipped and the first
    link, in order of appearance, whose slug resolves to a candidate with
    score >= 70 is kept, whatever the later links score. *)
Theorem link_candidate_spec (forum_links : list link) :
  let resolve := fun l : link => find_proposal_by_slug (fst l) in
  (let best := snapshot_best_link forum_links in
   Forall (fun l => snd (resolve l) <= snd (fst best))%Q
          (specific_links forum_links)
   /\ (best = (None, 0, None)
       \/ exists pre l post,
           specific_links forum_links = pre ++ l :: post
           /\ best = (fst (resolve l), snd (resolve l), Some (fst l))
           /\ (0 < snd (resolve l))%Q
           /\ Forall (fun l' => snd (resolve l') < snd (resolve l))%Q pre))
  /\ tally_first_link forum_links =
     option_map resolve (find (fun l => tally_hit (resolve l)) forum_links).
Proof.
  intros resolve. split.
  - unfold snapshot_best_link. rewrite snapshot_best_link_filter.
    set (get := fun b : option string * Q * option string => snd (fst b)).
    set (sc := fun l : link => snd (find_proposal_by_slug (fst l))).
    set (mk := fun l : link => (fst (find_proposal_by_slug (fst l)),
                                snd (find_proposal_by_slug (fst l)),
                                Some (fst l))).
    assert (Hmk : forall x, get (mk x) = sc x) by reflexivity.
    pose proof (keep_best_upper _ _ get sc mk Hmk
                  (specific_links forum_links) (None, 0, None)) as [_ Hup].
    split; [exact Hup |].
    destruct (keep_best_scan _ _ get sc mk Hmk
                (specific_links forum_links) (None, 0, None))
      as [[Hr _] | (pre & l & post & Hxs & Hr & Hlt & Hpre & _)].
    + left. exact Hr.
    + right. exists pre, l, post. auto.
  - induction forum_links as [|[slug topic] ls IH]; simpl; [reflexivity |].
    change (resolve (slug, topic)) with (find_proposal_by_slug slug).
    destruct (tally_hit (find_proposal_by_slug slug)); [reflexivity | exact IH].
Qed.


(** *** Rows *)

Lemma snapshot_best_link_cases (forum_links : list link) :
  snapshot_best_link forum_links = (None, 0, None)
  \/ exists l, In l forum_links
               /\ snapshot_best_link forum_links =
                  (fst (find_proposal_by_slug (fst l)),
                   snd (find_proposal_by_slug (fst l)), Some (fst l)).
Proof.
  unfold snapshot_best_link. rewrite snapshot_best_link_filter.
  set (get := fun b : option string * Q * option string => snd (fst b)).
  set (sc := fun l : link => snd (find_proposal_by_slug (fst l))).
  set (mk := fun l : link => (fst (find_proposal_by_slug (fst l)),
                              snd (find_proposal_by_slug (fst l)),
                              Some (fst l))).
  assert (Hmk : forall x, get (mk x) = sc x) by reflexivity.
  destruct (keep_best_scan _ _ get sc mk Hmk
              (specific_links forum_links) (None, 0, None))
    as [[Hr _] | (pre & l & post & Hxs & Hr & _)].
  - left. exact Hr.
  - right. exists l. split; [| exact Hr].
    assert (Hin : In l (specific_links forum_links)).
    { rewrite Hxs. apply in_or_app. right. now left. }
    unfold specific_links in Hin. apply filter_In in Hin. tauto.
Qed.

(** The decision never raises: a link candidate comes with its slug. *)
Lemma snapshot_decide_total (tm : option string * option string * Q)
      (forum_links : list link) (result : match_result) :
  r_proposal_id result = None -> r_score result = None ->
  exists r0,
    snapshot_decide tm (snapshot_best_link forum_links) result = Some r0
    /\ r_id r0 = r_id result
    /\ (r0 = result
        \/ (Py.truthy_opt (r_proposal_id r0) = true /\ r_score r0 <> None)).
Proof.
  intros Hp Hs. destruct tm as [[ti tt] ts].
  destruct (snapshot_best_link_cases forum_links) as [-> | (l & _ & ->)];
    unfold snapshot_decide, link_method, bind;
    cbn [fst snd Py.truthy_opt andb];
    repeat match goal with
           | |- context [if ?c then _ else _] => destruct c eqn:?
           end;
    eexists; (split; [reflexivity |]); (split; [reflexivity |]);
    try (left; reflexivity);
    right; cbn [r_proposal_id r_score with_proposal_id with_score
                with_method with_matched_title];
    (split; [| discriminate]);
    repeat match goal with
           | H : (_ && _)%bool = true |- _ => apply andb_true_iff in H; destruct H
           end;
    assumption.
Qed.

Lemma snapshot_categorize_total (r0 : match_result) :
  (Py.truthy_opt (r_proposal_id r0) = true -> r_score r0 <> None) ->
  exists b r,
    snapshot_categorize r0 = Some (b, r)
    /\ r_id r = r_id r0 /\ r_proposal_id r = r_proposal_id r0
    /\ r_score r = r_score r0
    /\ (Py.truthy_opt (r_proposal_id r0) = false -> b = unmatched /\ r = r0).
Proof.
  intros H. unfold snapshot_categorize.
  destruct (Py.truthy_opt (r_proposal_id r0)) eqn:Ht.
  - destruct (r_score r0) as [sc|] eqn:Hs; [| now destruct (H eq_refl)].
    cbn [bind].
    destruct (Py.ge sc 70);
      [destruct (Py.contains "forum_link" (str_of_method (r_method r0))) |];
      do 2 eexists; (split; [reflexivity |]); cbn; rewrite ?Hs;
      repeat split; try reflexivity; discriminate.
  - do 2 eexists. split; [reflexivity |]. repeat split; reflexivity.
Qed.


(** Reduction of the field accesses on a result under construction. *)
Ltac row_simpl :=
  repeat progress
    (cbn [bind];
     cbn [r_id r_title r_author r_proposal_id r_matched_title r_score r_method
          r_forum_links r_category new_result
          with_proposal_id with_matched_title with_score with_method
          with_forum_links with_category Py.truthy_opt Py.truthy negb fst snd]).

(** Case analysis on every test a row function runs. *)
Ltac row_cases :=
  repeat (row_simpl;
          match goal with
          | |- context [override_lookup ?t ?x] =>
              destruct (override_lookup t x) as [[|? ?]|]
          | |- context [tally_first_link ?x] =>
              destruct (tally_first_link x) as [[[[|? ?]|] ?]|]
          | |- context [find_best_title_match ?x ?y] =>
              destruct (find_best_title_match x y) as [[[[[|? ?]|] ?] ?]|]
          | |- context [Py.ge ?x ?y] => destruct (Py.ge x y)
          | |- context [Py.contains ?x ?y] => destruct (Py.contains x y)
          end);
  row_simpl.

Lemma override_lookup_truthy (table : list (string * string))
      (title proposal_id : string) :
  Forall (fun entry => Py.truthy (snd entry) = true) table ->
  override_lookup table title = Some proposal_id ->
  Py.truthy proposal_id = true.
Proof.
  induction 1 as [|[key pid] table Hpid _ IH]; simpl; [discriminate |].
  destruct (Py.contains (Py.lower key) (Py.lower title)); [| exact IH].
  now intros [= <-].
Qed.

Lemma overrides_snapshot_truthy :
  Forall (fun entry => Py.truthy (snd entry) = true) MANUAL_OVERRIDES_SNAPSHOT.
Proof. repeat constructor. Qed.

Lemma overrides_tally_truthy :
  Forall (fun entry => Py.truthy (snd entry) = true) MANUAL_OVERRIDES_TALLY.
Proof. repeat constructor. Qed.

Lemma tally_first_link_hit (forum_links : list link) (r : option string * Q) :
  tally_first_link forum_links = Some r -> tally_hit r = true.
Proof.
  induction forum_links as [|[slug topic] ls IH]; simpl; [discriminate |].
  destruct (tally_hit (find_proposal_by_slug slug)) eqn:Hhit; [| exact IH].
  now intros [= <-].
Qed.

Lemma tally_categorize_total (r0 : match_result) :
  (Py.truthy_opt (r_proposal_id r0) = true -> r_score r0 <> None) ->
  exists b r,
    tally_categorize r0 = Some (b, r)
    /\ r_id r = r_id r0 /\ r_proposal_id r = r_proposal_id r0
    /\ r_score r = r_score r0 /\ r_method r = r_method r0
    /\ r_matched_title r = r_matched_title r0
    /\ (Py.truthy_opt (r_proposal_id r0) = false -> b = t_unmatched /\ r = r0).
Proof.
  intros H. unfold tally_categorize.
  destruct (Py.truthy_opt (r_proposal_id r0)) eqn:Ht.
  - destruct (r_score r0) as [sc|] eqn:Hs; [| now destruct (H eq_refl)].
    cbn [bind]. destruct (Py.ge sc 75);
      do 2 eexists; (split; [reflexivity |]); cbn; rewrite ?Hs;
      repeat split; try reflexivity; discriminate.
  - do 2 eexists. split; [reflexivity |]. repeat split; reflexivity.
Qed.

(** Every Snapshot row with an [id] yields one bucket and one result, with
    the row's id, and the result has a candidate exactly when it has a
    score. *)
Lemma snapshot_row_total (s : row) (id : json) :
  row_item "id" s = Some id ->
  exists b r, snapshot_row s = Some (b, r) /\ r_id r = id
              /\ candidate_iff_score r.
Proof.
  intros Hid. unfold snapshot_row. rewrite Hid. cbn [bind].
  set (title := row_text "title" s).
  set (links := extract_forum_links (row_text "body" s)).
  set (base := new_result id title (row_get "author_name" s) (Some [])).
  destruct (is_stip_ltipp_protocol title).
  { do 2 eexists. split; [reflexivity |]. split; [reflexivity |].
    unfold candidate_iff_score. cbn. tauto. }
  destruct (is_election title).
  { do 2 eexists. split; [reflexivity |]. split; [reflexivity |].
    unfold candidate_iff_score. cbn. tauto. }
  destruct (override_lookup MANUAL_OVERRIDES_SNAPSHOT title) as [pid|] eqn:Hov.
  { apply (override_lookup_truthy _ _ _ overrides_snapshot_truthy) in Hov.
    cbn [r_proposal_id with_matched_title with_score with_method
         with_proposal_id Py.truthy_opt]. rewrite Hov.
    do 2 eexists. split; [reflexivity |]. split; [reflexivity |].
    unfold candidate_iff_score. cbn. split; discriminate. }
  cbn [r_proposal_id base new_result Py.truthy_opt].
  destruct (find_best_title_match_total title 55) as (ti & tt & ts & Htm & _);
    [reflexivity |].
  rewrite Htm. cbn [bind].
  destruct (snapshot_decide_total (ti, tt, ts) links
              (with_forum_links (Some links) base) eq_refl eq_refl)
    as (r0 & Hdec & Hid0 & Hr0).
  rewrite Hdec. cbn [bind].
  destruct (snapshot_categorize_total r0) as (b & r & Hcat & Hidr & Hp & Hs & _).
  { destruct Hr0 as [-> | [_ Hsc]]; [discriminate | now intros _]. }
  exists b, r. split; [exact Hcat |]. split; [now rewrite Hidr, Hid0 |].
  unfold candidate_iff_score. rewrite Hp, Hs.
  destruct Hr0 as [-> | [Ht Hsc]]; cbn.
  - tauto.
  - split; [now intros _ |]. intros _ Hnone. rewrite Hnone in Ht. discriminate.
Qed.

(** The same for Tally rows. *)
Lemma tally_row_total (t : row) (id : json) :
  row_item "id" t = Some id ->
  exists b r, tally_row t = Some (b, r) /\ r_id r = id
              /\ candidate_iff_score r.
Proof.
  intros Hid. unfold tally_row. rewrite Hid. cbn [bind].
  set (title := row_text "title" t).
  set (links := extract_forum_links (row_text "description" t)).
  set (base := new_result id title (row_get "author_name" t) None).
  destruct (tally_garbage title).
  { do 2 eexists. split; [reflexivity |]. split; [reflexivity |].
    unfold candidate_iff_score. cbn. tauto. }
  assert (Hfin : forall r0,
             r_id r0 = id ->
             (Py.truthy_opt (r_proposal_id r0) = true /\ r_score r0 <> None) ->
             exists b r, tally_categorize r0 = Some (b, r) /\ r_id r = id
                         /\ candidate_iff_score r).
  { intros r0 Hid0 [Ht Hsc].
    destruct (tally_categorize_total r0) as (b & r & Hcat & Hidr & Hp & Hs & _);
      [now intros _ |].
    exists b, r. split; [exact Hcat |]. split; [congruence |].
    unfold candidate_iff_score. rewrite Hp, Hs.
    split; [now intros _ |]. intros _ Hnone. rewrite Hnone in Ht. discriminate. }
  destruct (override_lookup MANUAL_OVERRIDES_TALLY title) as [pid|] eqn:Hov.
  { apply (override_lookup_truthy _ _ _ overrides_tally_truthy) in Hov.
    repeat (row_simpl; rewrite ?Hov).
    apply Hfin; [reflexivity |]. cbn. rewrite Hov. split; [reflexivity | discriminate]. }
  cbn [r_proposal_id base new_result Py.truthy_opt negb].
  destruct (tally_first_link links) as [[p_id score]|] eqn:Hlink.
  { apply tally_first_link_hit in Hlink. unfold tally_hit in Hlink.
    apply andb_true_iff in Hlink. destruct Hlink as [Ht _]. cbn [fst] in Ht.
    repeat (row_simpl; rewrite ?Ht).
    apply Hfin; [reflexivity |]. cbn. split; [exact Ht | discriminate]. }
  cbn [r_proposal_id base new_result Py.truthy_opt negb].
  destruct (find_best_title_match_total title 60) as (ti & tt & ts & Htm & _);
    [reflexivity |].
  rewrite Htm. cbn [bind].
  destruct (Py.truthy_opt ti) eqn:Hti; cbn [bind].
  - apply Hfin; [reflexivity |]. cbn. split; [exact Hti | discriminate].
  - do 2 eexists. split; [reflexivity |]. split; [reflexivity |].
    unfold candidate_iff_score. cbn. tauto.
Qed.


(** *** The loops *)

Lemma map_m_total {X Y : Type} (f : X -> option Y) (P : X -> Y -> Prop)
      (xs : list X) :
  Forall (fun x => exists y, f x = Some y /\ P x y) xs ->
  exists ys, map_m f xs = Some ys /\ Forall2 P xs ys.
Proof.
  induction 1 as [|x xs (y & Hy & HP) _ (ys & Hys & HF)]; simpl.
  - exists []. split; [reflexivity | constructor].
  - rewrite Hy. cbn [bind]. rewrite Hys. cbn [bind].
    exists (y :: ys). split; [reflexivity | now constructor].
Qed.

Section Buckets.
Variables X B R : Type.
Variable body : X -> option (B * match_result).
Variable append : B -> match_result -> R -> R.

(** A loop that appends one result per row is the list of the rows'
    results, sent to their buckets in order. *)
Lemma for_each_append (xs : list X) (acc : R) (brs : list (B * match_result)) :
  map_m body xs = Some brs ->
  for_each (fun x acc => '(b, r) <- body x ;; Some (append b r acc)) xs acc
  = Some (fold_left (fun acc br => append (fst br) (snd br) acc) brs acc).
Proof.
  revert acc brs. induction xs as [|x xs IH]; intros acc brs; simpl.
  - now intros [= <-].
  - destruct (body x) as [[b r]|]; cbn [bind]; [| discriminate].
    destruct (map_m body xs) as [brs'|] eqn:Hrest; cbn [bind]; [| discriminate].
    intros [= <-]. now rewrite (IH _ _ eq_refl).
Qed.

Variable eqb : B -> B -> bool.
Variable get : B -> R -> list match_result.
Hypothesis get_append : forall b b' r acc,
    get b (append b' r acc) = get b acc ++ (if eqb b' b then [r] else []).

Lemma get_fold_append (b : B) (brs : list (B * match_result)) (acc : R) :
  get b (fold_left (fun acc br => append (fst br) (snd br) acc) brs acc)
  = get b acc ++ sent_to eqb b brs.
Proof.
  revert acc. induction brs as [|[b' r] brs IH]; intros acc; simpl.
  - now rewrite app_nil_r.
  - rewrite IH, get_append. unfold sent_to. simpl.
    destruct (eqb b' b); simpl; rewrite <- app_assoc; reflexivity.
Qed.
End Buckets.

Lemma sent_to_Forall {B : Type} (eqb : B -> B -> bool) (b : B)
      (P : match_result -> Prop) (brs : list (B * match_result)) :
  Forall (fun br => P (snd br)) brs -> Forall P (sent_to eqb b brs).
Proof.
  intros H. unfold sent_to. apply Forall_map.
  apply Forall_forall. intros br Hin. apply filter_In in Hin.
  rewrite Forall_forall in H. apply H. tauto.
Qed.

Lemma snapshot_get_append (b b' : snapshot_bucket) (r : match_result)
      (acc : snapshot_results) :
  snapshot_get b (snapshot_append b' r acc)
  = snapshot_get b acc ++ (if snapshot_bucket_eqb b' b then [r] else []).
Proof. destruct b, b'; simpl; now rewrite ?app_nil_r. Qed.

Lemma tally_get_append (b b' : tally_bucket) (r : match_result)
      (acc : tally_results) :
  tally_get b (tally_append b' r acc)
  = tally_get b acc ++ (if tally_bucket_eqb b' b then [r] else []).
Proof. destruct b, b'; simpl; now rewrite ?app_nil_r. Qed.

Lemma snapshot_all_length (brs : list (snapshot_bucket * match_result))
      (acc : snapshot_results) :
  List.length (snapshot_all
            (fold_left (fun acc br => snapshot_append (fst br) (snd br) acc)
                       brs acc))
  = (List.length (snapshot_all acc) + List.length brs)%nat.
Proof.
  revert acc. induction brs as [|[b r] brs IH]; intros acc; simpl; [lia |].
  rewrite IH. unfold snapshot_all.
  destruct b; simpl; repeat rewrite length_app; simpl; lia.
Qed.

Lemma tally_all_length (brs : list (tally_bucket * match_result))
      (acc : tally_results) :
  List.length (tally_all
            (fold_left (fun acc br => tally_append (fst br) (snd br) acc)
                       brs acc))
  = (List.length (tally_all acc) + List.length brs)%nat.
Proof.
  revert acc. induction brs as [|[b r] brs IH]; intros acc; simpl; [lia |].
  rewrite IH. unfold tally_all.
  destruct b; simpl; repeat rewrite length_app; simpl; lia.
Qed.

(** What a run of the Snapshot loop over rows with ids produces. *)
Lemma match_snapshot_total (snapshot_stage : list row) :
  Forall (fun s => row_item "id" s <> None) snapshot_stage ->
  exists brs res,
    map_m snapshot_row snapshot_stage = Some brs
    /\ match_snapshot snapshot_stage = Some res
    /\ Forall2 (fun s br => row_item "id" s = Some (r_id (snd br))
                            /\ candidate_iff_score (snd br))
               snapshot_stage brs
    /\ (forall b, snapshot_get b res = sent_to snapshot_bucket_eqb b brs)
    /\ List.length (snapshot_all res) = List.length snapshot_stage.
Proof.
  intros Hids.
  destruct (map_m_total snapshot_row
              (fun s br => row_item "id" s = Some (r_id (snd br))
                           /\ candidate_iff_score (snd br)) snapshot_stage)
    as (brs & Hbrs & HF).
  { eapply Forall_impl; [| exact Hids]. intros s Hs. simpl in Hs.
    destruct (row_item "id" s) as [id|] eqn:Hid; [| congruence].
    destruct (snapshot_row_total s id Hid) as (b & r & Hrow & Hr & Hinv).
    exists (b, r). simpl. rewrite Hr. auto. }
  exists brs. eexists. split; [exact Hbrs |].
  split; [unfold match_snapshot; apply for_each_append; exact Hbrs |].
  split; [exact HF |]. split.
  - intros b. rewrite (get_fold_append _ _ _ _ _ snapshot_get_append).
    destruct b; reflexivity.
  - rewrite snapshot_all_length. simpl.
    now rewrite (Forall2_length HF).
Qed.

Lemma match_tally_total (tally_stage : list row) :
  Forall (fun t => row_item "id" t <> None) tally_stage ->
  exists brs res,
    map_m tally_row tally_stage = Some brs
    /\ match_tally tally_stage = Some res
    /\ Forall2 (fun t br => row_item "id" t = Some (r_id (snd br))
                            /\ candidate_iff_score (snd br))
               tally_stage brs
    /\ (forall b, tally_get b res = sent_to tally_bucket_eqb b brs)
    /\ List.length (tally_all res) = List.length tally_stage.
Proof.
  intros Hids.
  destruct (map_m_total tally_row
              (fun t br => row_item "id" t = Some (r_id (snd br))
                           /\ candidate_iff_score (snd br)) tally_stage)
    as (brs & Hbrs & HF).
  { eapply Forall_impl; [| exact Hids]. intros t Ht. simpl in Ht.
    destruct (row_item "id" t) as [id|] eqn:Hid; [| congruence].
    destruct (tally_row_total t id Hid) as (b & r & Hrow & Hr & Hinv).
    exists (b, r). simpl. rewrite Hr. auto. }
  exists brs. eexists. split; [exact Hbrs |].
  split; [unfold match_tally; apply for_each_append; exact Hbrs |].
  split; [exact HF |]. split.
  - intros b. rewrite (get_fold_append _ _ _ _ _ tally_get_append).
    destruct b; reflexivity.
  - rewrite tally_all_length. simpl.
    now rewrite (Forall2_length HF).
Qed.


Lemma map_m_inv {X Y : Type} (f : X -> option Y) (xs : list X) (ys : list Y) :
  map_m f xs = Some ys -> Forall2 (fun x y => f x = Some y) xs ys.
Proof.
  revert ys. induction xs as [|x xs IH]; intros ys; simpl.
  - intros [= <-]. constructor.
  - destruct (f x) as [y|] eqn:Hy; cbn [bind]; [| discriminate].
    destruct (map_m f xs) as [ys'|]; cbn [bind]; [| discriminate].
    intros [= <-]. constructor; [exact Hy | now apply IH].
Qed.

Lemma Forall2_and {X Y : Type} (P Q : X -> Y -> Prop) (xs : list X)
      (ys : list Y) :
  Forall2 P xs ys -> Forall2 Q xs ys ->
  Forall2 (fun x y => P x y /\ Q x y) xs ys.
Proof.
  induction 1; intros HQ; inversion HQ; subst; constructor; auto.
Qed.

Lemma Forall2_right {X Y : Type} (P : Y -> Prop) (xs : list X) (ys : list Y) :
  Forall2 (fun _ y => P y) xs ys -> Forall P ys.
Proof. induction 1; constructor; auto. Qed.

(** C4.  For every input table whose rows have an [id], each loop
    produces exactly one result per row: the row function returns one
    (bucket, result) pair for each row, in order and with the row's id,
    every bucket holds exactly the results sent to it, the buckets hold
    as many results as the table has rows, and every result has a
    candidate if and only if it has a score. *)
Theorem one_result_per_row (snapshot_stage tally_stage : list row) :
  Forall (fun s => row_item "id" s <> None) snapshot_stage ->
  Forall (fun t => row_item "id" t <> None) tally_stage ->
  (exists brs res,
      match_snapshot snapshot_stage = Some res
      /\ Forall2 (fun s br => snapshot_row s = Some br
                              /\ row_item "id" s = Some (r_id (snd br)))
                 snapshot_stage brs
      /\ (forall b, snapshot_get b res = sent_to snapshot_bucket_eqb b brs)
      /\ List.length (snapshot_all res) = List.length snapshot_stage
      /\ Forall candidate_iff_score (snapshot_all res))
  /\ (exists brs res,
         match_tally tally_stage = Some res
         /\ Forall2 (fun t br => tally_row t = Some br
                                 /\ row_item "id" t = Some (r_id (snd br)))
                    tally_stage brs
         /\ (forall b, tally_get b res = sent_to tally_bucket_eqb b brs)
         /\ List.length (tally_all res) = List.length tally_stage
         /\ Forall candidate_iff_score (tally_all res)).
Proof.
  intros Hs Ht. split.
  - destruct (match_snapshot_total snapshot_stage Hs)
      as (brs & res & Hbrs & Hres & HF & Hget & Hlen).
    exists brs, res. split; [exact Hres |].
    split.
    { apply Forall2_and; [now apply map_m_inv |].
      eapply Forall2_impl; [| exact HF]. simpl. tauto. }
    split; [exact Hget |]. split; [exact Hlen |].
    assert (Hall : Forall (fun br => candidate_iff_score (snd br)) brs).
    { apply (Forall2_right (fun br => candidate_iff_score (snd br))
                           snapshot_stage).
      eapply Forall2_impl; [| exact HF]. simpl. tauto. }
    unfold snapshot_all.
    change (sr_matched_by_link res) with (snapshot_get matched_by_link res).
    change (sr_matched_by_title res) with (snapshot_get matched_by_title res).
    change (sr_low_confidence res) with (snapshot_get low_confidence res).
    change (sr_stip_ltipp res) with (snapshot_get stip_ltipp res).
    change (sr_elections res) with (snapshot_get elections res).
    change (sr_unmatched res) with (snapshot_get unmatched res).
    rewrite !Hget. repeat (apply Forall_app; split);
      now apply sent_to_Forall.
  - destruct (match_tally_total tally_stage Ht)
      as (brs & res & Hbrs & Hres & HF & Hget & Hlen).
    exists brs, res. split; [exact Hres |].
    split.
    { apply Forall2_and; [now apply map_m_inv |].
      eapply Forall2_impl; [| exact HF]. simpl. tauto. }
    split; [exact Hget |]. split; [exact Hlen |].
    assert (Hall : Forall (fun br => candidate_iff_score (snd br)) brs).
    { apply (Forall2_right (fun br => candidate_iff_score (snd br))
                           tally_stage).
      eapply Forall2_impl; [| exact HF]. simpl. tauto. }
    unfold tally_all.
    change (tr_matched res) with (tally_get t_matched res).
    change (tr_low_confidence res) with (tally_get t_low_confidence res).
    change (tr_unmatched res) with (tally_get t_unmatched res).
    rewrite !Hget. repeat (apply Forall_app; split);
      now apply sent_to_Forall.
Qed.


(** *** Terminal branches of the Snapshot loop *)


(** The categories a Tally result can carry. *)
Lemma tally_row_category (t : row) (b : tally_bucket) (r : match_result) :
  tally_row t = Some (b, r) ->
  r_category r = "garbage" \/ r_category r = "standard"
  \/ r_category r = "low_confidence".
Proof.
  unfold tally_row, tally_categorize.
  destruct (row_item "id" t) as [id|]; cbn [bind]; [| discriminate].
  destruct (tally_garbage (row_text "title" t)).
  { intros [= <- <-]. left. reflexivity. }
  row_cases; try discriminate; intros [= <- <-]; cbn; auto.
Qed.


(** *** The garbage test of the Tally loop *)

Lemma tally_garbage_iff (title : string) :
  tally_garbage title = true
  <-> title = EmptyString \/ In title garbage_titles.
Proof.
  unfold tally_garbage, garbage_titles. simpl.
  rewrite !orb_true_iff, !String.eqb_eq, negb_true_iff.
  destruct title; simpl; intuition (try discriminate; auto).
Qed.

(** The Tally loop marks a row as garbage exactly on the inline test: the
    trimmed title and its length play no part. *)
Lemma tally_row_garbage (t : row) (b : tally_bucket) (r : match_result) :
  tally_row t = Some (b, r) ->
  (r_category r = "garbage" <-> tally_garbage (row_text "title" t) = true).
Proof.
  intros Hrow. split.
  - intros Hcat. destruct (tally_garbage (row_text "title" t)) eqn:Hg;
      [reflexivity | exfalso].
    revert Hrow Hcat. unfold tally_row, tally_categorize.
    destruct (row_item "id" t) as [id|]; cbn [bind]; [| discriminate].
    rewrite Hg.
    row_cases; try discriminate; intros [= <- <-]; cbn; discriminate.
  - intros Hg. revert Hrow. unfold tally_row.
    destruct (row_item "id" t) as [id|]; cbn [bind]; [| discriminate].
    rewrite Hg. intros [= <- <-]. reflexivity.
Qed.


(** *** Selection between the two strategies *)

Lemma catalogue_id_truthy (p : proposal) :
  Forall (fun p => p_id p <> EmptyString) proposals ->
  In p proposals -> Py.truthy (p_id p) = true.
Proof.
  intros Hne Hin. rewrite Forall_forall in Hne. specialize (Hne p Hin).
  destruct (p_id p); [congruence | reflexivity].
Qed.

(** With non-empty ids a slug resolves to a candidate exactly when its
    score reaches 70, and the candidate then passes for true. *)
Lemma resolve_cases (slug : string) :
  Forall (fun p => p_id p <> EmptyString) proposals ->
  (fst (find_proposal_by_slug slug) = None
   /\ Py.ge (snd (find_proposal_by_slug slug)) 70 = false)
  \/ (exists id, fst (find_proposal_by_slug slug) = Some id
                 /\ Py.truthy id = true
                 /\ Py.ge (snd (find_proposal_by_slug slug)) 70 = true).
Proof.
  intros Hne.
  destruct (find_proposal_by_slug_candidate slug)
    as [[Hnone Hlt] | (p & Hp & Hsome & Hge)].
  - left. split; [exact Hnone | now apply ge_false].
  - right. exists (p_id p). split; [exact Hsome |].
    split; [now apply catalogue_id_truthy | now apply ge_true].
Qed.

Lemma snapshot_best_link_candidate (forum_links : list link) :
  Forall (fun p => p_id p <> EmptyString) proposals ->
  fst (fst (snapshot_best_link forum_links)) = None
  \/ exists id slug,
      fst (fst (snapshot_best_link forum_links)) = Some id
      /\ Py.truthy id = true
      /\ snd (snapshot_best_link forum_links) = Some slug.
Proof.
  intros Hne.
  destruct (snapshot_best_link_cases forum_links) as [-> | (l & _ & ->)];
    [now left |].
  cbn [fst snd].
  destruct (resolve_cases (fst l) Hne) as [[Hnone _] | (id & Hsome & Ht & _)].
  - now left.
  - right. exists id, (fst l). auto.
Qed.

(** C3.  For every Snapshot row that reaches the selection step (an id,
    no protocol-grant or election title, no override hit), over a
    catalogue whose ids are not empty, the candidate follows the fixed
    order: the title match when its score is at least 70, else the link
    match when its score is at least 70, else the title match when its
    score is at least 55, else the link match when its score is at least
    60, else no candidate. *)
Theorem snapshot_selection_order (s : row) (id : json) :
  Forall (fun p => p_id p <> EmptyString) proposals ->
  row_item "id" s = Some id ->
  is_stip_ltipp_protocol (row_text "title" s) = false ->
  is_election (row_text "title" s) = false ->
  override_lookup MANUAL_OVERRIDES_SNAPSHOT (row_text "title" s) = None ->
  let lm := snapshot_best_link (extract_forum_links (row_text "body" s)) in
  exists tm_id tm_title tm_score b r,
    find_best_title_match (row_text "title" s) 55
    = Some (tm_id, tm_title, tm_score)
    /\ snapshot_row s = Some (b, r)
    /\ match selection_order (tm_id, tm_score) (fst lm) with
       | use_title =>
           r_proposal_id r = tm_id /\ tm_id <> None
           /\ r_score r = Some tm_score
           /\ r_method r = Some "title_fuzzy"
           /\ r_matched_title r = tm_title
       | use_link =>
           r_proposal_id r = fst (fst lm) /\ fst (fst lm) <> None
           /\ r_score r = Some (snd (fst lm))
           /\ r_method r = link_method (snd lm)
       | no_candidate =>
           r_proposal_id r = None /\ r_score r = None /\ r_method r = None
           /\ b = unmatched
       end.
Proof.
  intros Hne Hid Hstip Hel Hov lm.
  destruct (find_best_title_match_total (row_text "title" s) 55)
    as (ti & tt & ts & Htm & Hti); [reflexivity |].
  exists ti, tt, ts.
  assert (Hti' : ti = None \/ exists pid, ti = Some pid /\ Py.truthy pid = true).
  { destruct Hti as [(-> & _) | (p & Hp & -> & _)]; [now left | right].
    exists (p_id p). split; [reflexivity | now apply catalogue_id_truthy]. }
  pose proof (snapshot_best_link_candidate
                (extract_forum_links (row_text "body" s)) Hne) as Hlm.
  unfold snapshot_row. rewrite Hid. cbn [bind]. rewrite Hstip, Hel, Hov.
  row_simpl. rewrite Htm. row_simpl. fold lm in Hlm |- *.
  destruct lm as [[li ls] lsl]. cbn [fst snd] in *.
  unfold snapshot_decide, snapshot_categorize, selection_order, link_method.
  destruct Hti' as [-> | (pid & -> & Hpid)];
    destruct Hlm as [-> | (lid & slug & -> & Hlid & ->)];
    row_simpl; rewrite ?Hpid, ?Hlid; cbn [andb];
    repeat (row_simpl;
            match goal with
            | |- context [Py.ge ?x ?y] => destruct (Py.ge x y)
            | |- context [Py.contains ?x ?y] => destruct (Py.contains x y)
            end);
    row_simpl; rewrite ?Hpid, ?Hlid; row_simpl;
    do 2 eexists; (split; [reflexivity |]); (split; [reflexivity |]);
    repeat split; try reflexivity; discriminate.
Qed.


(** With non-empty ids, the Tally link loop stops at the first link whose
    slug resolves with a score of at least 70. *)
Lemma tally_first_link_find (forum_links : list link) :
  Forall (fun p => p_id p <> EmptyString) proposals ->
  tally_first_link forum_links
  = option_map (fun l : link => find_proposal_by_slug (fst l))
      (find (fun l : link => Py.ge (snd (find_proposal_by_slug (fst l))) 70)
            forum_links).
Proof.
  intros Hne. induction forum_links as [|[slug topic] ls IH]; simpl;
    [reflexivity |].
  unfold tally_hit.
  destruct (resolve_cases slug Hne) as [[Hnone Hge] | (id & Hsome & Ht & Hge)];
    rewrite Hge.
  - rewrite andb_false_r. exact IH.
  - rewrite Hsome. cbn [Py.truthy_opt]. rewrite Ht. reflexivity.
Qed.

(** C1 (as amended).  For every Tally row that reaches the heuristic step
    (an id, not garbage, no override hit), over a catalogue whose ids are
    not empty: the first extracted link, in order of appearance, whose
    slug resolves with a score of at least 70 provides the candidate,
    whether or not a title match exists; when no link does, the title
    match with minimum score 60 is used; when there is neither, no
    candidate is assigned and the row is unmatched. *)
Theorem tally_precedence (t : row) (id : json) :
  Forall (fun p => p_id p <> EmptyString) proposals ->
  row_item "id" t = Some id ->
  tally_garbage (row_text "title" t) = false ->
  override_lookup MANUAL_OVERRIDES_TALLY (row_text "title" t) = None ->
  let resolve := fun l : link => find_proposal_by_slug (fst l) in
  let forum_links := extract_forum_links (row_text "description" t) in
  exists tm_id tm_title tm_score b r,
    find_best_title_match (row_text "title" t) 60
    = Some (tm_id, tm_title, tm_score)
    /\ tally_row t = Some (b, r)
    /\ match find (fun l => Py.ge (snd (resolve l)) 70) forum_links with
       | Some l =>
           r_proposal_id r = fst (resolve l) /\ fst (resolve l) <> None
           /\ r_score r = Some (snd (resolve l))
           /\ r_method r = Some "forum_link_slug"
       | None =>
           match tm_id with
           | Some _ =>
               r_proposal_id r = tm_id /\ r_score r = Some tm_score
               /\ r_method r = Some "title_fuzzy"
               /\ r_matched_title r = tm_title
           | None =>
               r_proposal_id r = None /\ r_score r = None
               /\ r_method r = None /\ b = t_unmatched
           end
       end.
Proof.
  intros Hne Hid Hg Hov resolve forum_links. subst resolve. cbv beta.
  destruct (find_best_title_match_total (row_text "title" t) 60)
    as (ti & tt & ts & Htm & Hti); [reflexivity |].
  exists ti, tt, ts.
  assert (Hti' : ti = None \/ exists pid, ti = Some pid /\ Py.truthy pid = true).
  { destruct Hti as [(-> & _) | (p & Hp & -> & _)]; [now left | right].
    exists (p_id p). split; [reflexivity | now apply catalogue_id_truthy]. }
  unfold tally_row. rewrite Hid. cbn [bind]. rewrite Hg, Hov. row_simpl.
  fold forum_links. rewrite (tally_first_link_find forum_links Hne).
  destruct (find (fun l : link => Py.ge (snd (find_proposal_by_slug (fst l))) 70)
                 forum_links) as [l|] eqn:Hfind; cbn [option_map].
  - apply find_some in Hfind. destruct Hfind as [_ Hge].
    destruct (resolve_cases (fst l) Hne)
      as [[_ Hlt] | (lid & Hsome & Hlid & _)]; [congruence |].
    destruct (find_proposal_by_slug (fst l)) as [li ls].
    cbn [fst snd] in *. subst li. unfold tally_categorize.
    rewrite Htm. repeat (row_simpl; rewrite ?Hlid).
    destruct (Py.ge ls 75); do 2 eexists;
      (split; [reflexivity |]); (split; [reflexivity |]);
      repeat split; try reflexivity; discriminate.
  - row_simpl. rewrite Htm. unfold tally_categorize.
    destruct Hti' as [-> | (pid & -> & Hpid)]; row_simpl; rewrite ?Hpid;
      row_simpl; rewrite ?Hpid; row_simpl;
      try destruct (Py.ge ts 75); do 2 eexists;
      (split; [reflexivity |]); (split; [reflexivity |]);
      repeat split; try reflexivity.
Qed.


(** *** The updated tables *)

Lemma update_row_spec (table : dict json (option string)) (s : row) (id : json) :
  row_item "id" s = Some id ->
  exists s',
    update_row table s = Some s'
    /\ (forall k, k <> "proposal_id" -> row_item k s' = row_item k s)
    /\ match dict_get json_eqb id table with
       | Some v => row_item "proposal_id" s' = Some (json_of_opt v)
       | None => s' = s
       end.
Proof.
  intros Hid. unfold update_row. rewrite Hid. cbn [bind].
  destruct (dict_get json_eqb id table) as [v|]; eexists;
    (split; [reflexivity |]).
  - split.
    + intros k Hk. unfold row_item.
      now apply (dict_get_set_other _ _ _ String.eqb_eq).
    + unfold row_item. apply (dict_get_set_same _ _ _ String.eqb_eq).
  - split; reflexivity.
Qed.

Lemma collect_ids_get (rs : list match_result)
      (table : dict json (option string)) (id : json) (v : option string) :
  dict_get json_eqb id (collect_ids rs table) = Some v ->
  (exists r, In r rs /\ r_id r = id /\ r_proposal_id r = v)
  \/ dict_get json_eqb id table = Some v.
Proof.
  unfold collect_ids. revert table.
  induction rs as [|r rs IH]; intros table; simpl; [now right |].
  intros H. apply IH in H. destruct H as [(r' & Hin & Hr) | H].
  - left. exists r'. split; [now right | exact Hr].
  - destruct (json_eqb id (r_id r)) eqn:E.
    + apply json_eqb_eq in E. subst id.
      rewrite (dict_get_set_same _ _ _ json_eqb_eq) in H.
      injection H as <-. left. exists r. split; [now left | auto].
    + rewrite (dict_get_set_other _ _ _ json_eqb_eq) in H; [now right |].
      intros ->. rewrite (proj2 (json_eqb_eq _ _) eq_refl) in E. discriminate.
Qed.

Lemma collect_ids_mem (rs : list match_result)
      (table : dict json (option string)) (id : json) :
  (exists r, In r rs /\ r_id r = id) \/ dict_mem json_eqb id table = true ->
  dict_mem json_eqb id (collect_ids rs table) = true.
Proof.
  unfold collect_ids. revert table.
  induction rs as [|r rs IH]; intros table; simpl.
  - intros [(r & [] & _) | H]. exact H.
  - intros H. apply IH.
    destruct (json_eqb id (r_id r)) eqn:E.
    + right. apply json_eqb_eq in E. subst id. unfold dict_mem.
      now rewrite (dict_get_set_same _ _ _ json_eqb_eq).
    + destruct H as [(r' & [-> | Hin] & Hr) | H].
      * subst id. rewrite (proj2 (json_eqb_eq _ _) eq_refl) in E. discriminate.
      * left. now exists r'.
      * right. unfold dict_mem in *.
        rewrite (dict_get_set_other _ _ _ json_eqb_eq); [exact H |].
        intros ->. rewrite (proj2 (json_eqb_eq _ _) eq_refl) in E. discriminate.
Qed.

Lemma Forall2_In_r {X Y : Type} (P : X -> Y -> Prop) (xs : list X)
      (ys : list Y) (y : Y) :
  Forall2 P xs ys -> In y ys -> exists x, In x xs /\ P x y.
Proof.
  induction 1 as [|x y' xs ys HP _ IH]; simpl; [intros [] |].
  intros [<- | Hin].
  - exists x. split; [now left | exact HP].
  - destruct (IH Hin) as (x' & Hx' & HP'). exists x'. split; [now right | exact HP'].
Qed.

Lemma sent_to_In {B : Type} (eqb : B -> B -> bool) (b : B)
      (brs : list (B * match_result)) (r : match_result) :
  In r (sent_to eqb b brs) -> exists b', In (b', r) brs /\ eqb b' b = true.
Proof.
  unfold sent_to. intros H. apply in_map_iff in H.
  destruct H as ([b' r'] & <- & Hin). apply filter_In in Hin.
  exists b'. simpl in *. tauto.
Qed.

(** A result in a high-confidence bucket has a candidate. *)
Lemma snapshot_row_matched (s : row) (b : snapshot_bucket) (r : match_result) :
  snapshot_row s = Some (b, r) ->
  b = matched_by_link \/ b = matched_by_title ->
  Py.truthy_opt (r_proposal_id r) = true.
Proof.
  unfold snapshot_row.
  destruct (row_item "id" s) as [id|]; cbn [bind]; [| discriminate].
  destruct (is_stip_ltipp_protocol (row_text "title" s)).
  { intros [= <- <-] [H | H]; discriminate. }
  destruct (is_election (row_text "title" s)).
  { intros [= <- <-] [H | H]; discriminate. }
  destruct (override_lookup MANUAL_OVERRIDES_SNAPSHOT (row_text "title" s))
    as [pid|] eqn:Hov.
  { apply (override_lookup_truthy _ _ _ overrides_snapshot_truthy) in Hov.
    row_simpl. rewrite Hov. intros [= <- <-] _. row_simpl. exact Hov. }
  row_simpl.
  destruct (find_best_title_match (row_text "title" s) 55) as [tm|];
    cbn [bind]; [| discriminate].
  destruct (snapshot_decide tm _ _) as [r0|]; cbn [bind]; [| discriminate].
  unfold snapshot_categorize.
  destruct (Py.truthy_opt (r_proposal_id r0)) eqn:Ht.
  - destruct (r_score r0) as [sc|]; cbn [bind]; [| discriminate].
    destruct (Py.ge sc 70);
      [destruct (Py.contains "forum_link" (str_of_method (r_method r0))) |];
      intros [= <- <-] [H | H]; try discriminate; exact Ht.
  - intros [= <- <-] [H | H]; discriminate.
Qed.

Lemma tally_row_matched (t : row) (r : match_result) :
  tally_row t = Some (t_matched, r) ->
  Py.truthy_opt (r_proposal_id r) = true.
Proof.
  unfold tally_row.
  destruct (row_item "id" t) as [id|]; cbn [bind]; [| discriminate].
  destruct (tally_garbage (row_text "title" t)); [discriminate |].
  match goal with
  | |- bind ?m _ = _ -> _ => destruct m as [r0|]; cbn [bind]; [| discriminate]
  end.
  unfold tally_categorize.
  destruct (Py.truthy_opt (r_proposal_id r0)) eqn:Ht; [| discriminate].
  destruct (r_score r0) as [sc|]; cbn [bind]; [| discriminate].
  destruct (Py.ge sc 75); [| discriminate].
  now intros [= <-].
Qed.


Lemma Forall2_In_l {X Y : Type} (P : X -> Y -> Prop) (xs : list X)
      (ys : list Y) (x : X) :
  Forall2 P xs ys -> In x xs -> exists y, In y ys /\ P x y.
Proof.
  induction 1 as [|x' y xs ys HP _ IH]; simpl; [intros [] |].
  intros [<- | Hin].
  - exists y. split; [now left | exact HP].
  - destruct (IH Hin) as (y' & Hy' & HP'). exists y'. split; [now right | exact HP'].
Qed.

Lemma In_sent_to {B : Type} (eqb : B -> B -> bool) (b : B)
      (brs : list (B * match_result)) (r : match_result) :
  eqb b b = true -> In (b, r) brs -> In r (sent_to eqb b brs).
Proof.
  intros Hb Hin. unfold sent_to. apply in_map_iff. exists (b, r).
  split; [reflexivity |]. apply filter_In. split; [exact Hin | exact Hb].
Qed.

Lemma updated_rows (table : dict json (option string)) (stage : list row) :
  Forall (fun s => row_item "id" s <> None) stage ->
  exists out,
    map_m (update_row table) stage = Some out
    /\ Forall2
         (fun s s' =>
            (forall k, k <> "proposal_id" -> row_item k s' = row_item k s)
            /\ exists id,
                row_item "id" s = Some id
                /\ match dict_get json_eqb id table with
                   | Some v => row_item "proposal_id" s' = Some (json_of_opt v)
                   | None => s' = s
                   end)
         stage out.
Proof.
  intros Hids. apply map_m_total.
  eapply Forall_impl; [| exact Hids]. intros s Hs. simpl in Hs.
  destruct (row_item "id" s) as [id|] eqn:Hid; [| congruence].
  destruct (update_row_spec table s id Hid) as (s' & Hup & Hkeep & Hset).
  exists s'. split; [exact Hup |]. split; [exact Hkeep |].
  exists id. split; [reflexivity | exact Hset].
Qed.

(** C6 (as amended).  For each source whose rows have an [id], the
    updated table has one row per input row, in the same order, and every
    field other than [proposal_id] keeps its value.  A row whose id is the
    id of a result of a high-confidence bucket ([matched_by_link] or
    [matched_by_title] for Snapshot, [matched] for Tally) gets that
    result's candidate, which is never null, as [proposal_id]; every
    other row is copied unchanged: no [proposal_id] field is added to it
    and one it already has keeps its value. *)
Theorem stage_updated_copy (snapshot_stage tally_stage : list row) :
  Forall (fun s => row_item "id" s <> None) snapshot_stage ->
  Forall (fun t => row_item "id" t <> None) tally_stage ->
  (exists res out,
      match_snapshot snapshot_stage = Some res
      /\ snapshot_stage_updated snapshot_stage = Some out
      /\ Forall2
           (fun s s' =>
              (forall k, k <> "proposal_id" -> row_item k s' = row_item k s)
              /\ exists id,
                  row_item "id" s = Some id
                  /\ match dict_get json_eqb id (snapshot_id_to_proposal res) with
                     | Some v => row_item "proposal_id" s' = Some (json_of_opt v)
                     | None => s' = s
                     end)
           snapshot_stage out
      /\ (forall id v,
             dict_get json_eqb id (snapshot_id_to_proposal res) = Some v ->
             v <> None
             /\ exists s b r,
                 In s snapshot_stage /\ row_item "id" s = Some id
                 /\ snapshot_row s = Some (b, r)
                 /\ (b = matched_by_link \/ b = matched_by_title)
                 /\ r_proposal_id r = v)
      /\ (forall s b r,
             In s snapshot_stage -> snapshot_row s = Some (b, r) ->
             b = matched_by_link \/ b = matched_by_title ->
             dict_mem json_eqb (r_id r) (snapshot_id_to_proposal res) = true))
  /\ (exists res out,
         match_tally tally_stage = Some res
         /\ tally_stage_updated tally_stage = Some out
         /\ Forall2
              (fun t t' =>
                 (forall k, k <> "proposal_id" -> row_item k t' = row_item k t)
                 /\ exists id,
                     row_item "id" t = Some id
                     /\ match dict_get json_eqb id (tally_id_to_proposal res) with
                        | Some v => row_item "proposal_id" t' = Some (json_of_opt v)
                        | None => t' = t
                        end)
              tally_stage out
         /\ (forall id v,
                dict_get json_eqb id (tally_id_to_proposal res) = Some v ->
                v <> None
                /\ exists t r,
                    In t tally_stage /\ row_item "id" t = Some id
                    /\ tally_row t = Some (t_matched, r)
                    /\ r_proposal_id r = v)
         /\ (forall t r,
                In t tally_stage -> tally_row t = Some (t_matched, r) ->
                dict_mem json_eqb (r_id r) (tally_id_to_proposal res) = true)).
Proof.
  intros Hs Ht. split.
  - destruct (match_snapshot_total snapshot_stage Hs)
      as (brs & res & Hbrs & Hres & HF & Hget & _).
    destruct (updated_rows (snapshot_id_to_proposal res) snapshot_stage Hs)
      as (out & Hout & Hrows).
    exists res, out. split; [exact Hres |].
    split; [unfold snapshot_stage_updated; rewrite Hres; exact Hout |].
    split; [exact Hrows |].
    pose proof (Forall2_and _ _ _ _ (map_m_inv _ _ _ Hbrs) HF) as Hboth.
    assert (Hsrc : forall b r id v,
               b = matched_by_link \/ b = matched_by_title ->
               In r (snapshot_get b res) ->
               r_id r = id -> r_proposal_id r = v ->
               v <> None
               /\ exists s b r,
                   In s snapshot_stage /\ row_item "id" s = Some id
                   /\ snapshot_row s = Some (b, r)
                   /\ (b = matched_by_link \/ b = matched_by_title)
                   /\ r_proposal_id r = v).
    { intros b r id v Hb Hin Hrid Hrv. rewrite Hget in Hin.
      apply sent_to_In in Hin. destruct Hin as (b' & Hin & Hbb).
      assert (b' = b) by (destruct b, b'; simpl in Hbb; congruence). subst b'.
      destruct (Forall2_In_r _ _ _ _ Hboth Hin) as (s & Hs_in & Hrow & Hsid & _).
      simpl in Hsid.
      pose proof (snapshot_row_matched s b r Hrow Hb) as Htr.
      split.
      - intros Hv. rewrite <- Hrv in Hv. rewrite Hv in Htr. discriminate Htr.
      - exists s, b, r. rewrite <- Hrid. auto. }
    split.
    + intros id v Hgetid. unfold snapshot_id_to_proposal in Hgetid.
      apply collect_ids_get in Hgetid.
      destruct Hgetid as [(r & Hin & Hrid & Hrv) | Hgetid].
      * apply (Hsrc matched_by_title r); auto.
      * apply collect_ids_get in Hgetid.
        destruct Hgetid as [(r & Hin & Hrid & Hrv) | Hgetid]; [| discriminate].
        apply (Hsrc matched_by_link r); auto.
    + intros s b r Hs_in Hrow Hb.
      destruct (Forall2_In_l _ _ _ _ Hboth Hs_in) as (br & Hbr & Hrow' & _).
      rewrite Hrow in Hrow'. injection Hrow' as <-.
      unfold snapshot_id_to_proposal.
      destruct Hb as [-> | ->].
      * apply collect_ids_mem. right. apply collect_ids_mem. left.
        exists r. split; [| reflexivity].
        change (sr_matched_by_link res) with (snapshot_get matched_by_link res).
        rewrite Hget. now apply In_sent_to.
      * apply collect_ids_mem. left. exists r. split; [| reflexivity].
        change (sr_matched_by_title res) with (snapshot_get matched_by_title res).
        rewrite Hget. now apply In_sent_to.
  - destruct (match_tally_total tally_stage Ht)
      as (brs & res & Hbrs & Hres & HF & Hget & _).
    destruct (updated_rows (tally_id_to_proposal res) tally_stage Ht)
      as (out & Hout & Hrows).
    exists res, out. split; [exact Hres |].
    split; [unfold tally_stage_updated; rewrite Hres; exact Hout |].
    split; [exact Hrows |].
    pose proof (Forall2_and _ _ _ _ (map_m_inv _ _ _ Hbrs) HF) as Hboth.
    split.
    + intros id v Hgetid. unfold tally_id_to_proposal in Hgetid.
      apply collect_ids_get in Hgetid.
      destruct Hgetid as [(r & Hin & Hrid & Hrv) | Hgetid]; [| discriminate].
      change (tr_matched res) with (tally_get t_matched res) in Hin.
      rewrite Hget in Hin. apply sent_to_In in Hin.
      destruct Hin as (b' & Hin & Hbb).
      assert (b' = t_matched) by (destruct b'; simpl in Hbb; congruence).
      subst b'.
      destruct (Forall2_In_r _ _ _ _ Hboth Hin) as (t & Ht_in & Hrow & Htid & _).
      simpl in Htid.
      pose proof (tally_row_matched t r Hrow) as Htr.
      split.
      * intros Hv. rewrite <- Hrv in Hv. rewrite Hv in Htr. discriminate Htr.
      * exists t, r. rewrite <- Hrid. auto.
    + intros t r Ht_in Hrow.
      destruct (Forall2_In_l _ _ _ _ Hboth Ht_in) as (br & Hbr & Hrow' & _).
      rewrite Hrow in Hrow'. injection Hrow' as <-.
      unfold tally_id_to_proposal.
      apply collect_ids_mem. left. exists r. split; [| reflexivity].
      change (tr_matched res) with (tally_get t_matched res).
      rewrite Hget. now apply In_sent_to.
Qed.


(* =============================================================== *)
(** ** Further properties of the engine *)

(** *** The slug matcher *)

Lemma lower_idempotent (s : string) : Py.lower (Py.lower s) = Py.lower s.
Proof. apply lower_fixed. apply lower_all_not_upper. Qed.

Lemma truthy_lower (s : string) : Py.truthy (Py.lower s) = Py.truthy s.
Proof. destruct s; reflexivity. Qed.

Lemma find_proposal_by_slug_nonneg (slug : string) :
  (0 <= snd (find_proposal_by_slug slug))%Q.
Proof.
  unfold find_proposal_by_slug.
  destruct (Py.truthy slug); simpl; [| apply Qle_refl].
  destruct (dict_get String.eqb (Py.lower slug) proposal_slugs); simpl;
    [discriminate |].
  set (q := Py.lower slug).
  set (sc := fun item : string * string => fuzz_ratio q (fst item)).
  set (mk := fun item : string * string => (Some (snd item), sc item)).
  change (slug_scan q proposal_slugs (None, 0))
    with (fold_left (keep_best _ _ snd sc mk) proposal_slugs (None, 0)).
  assert (Hmk : forall x, snd (mk x) = sc x) by reflexivity.
  destruct (keep_best_upper _ _ snd sc mk Hmk proposal_slugs (None, 0))
    as [Hlow _].
  destruct (Py.ge _ 70); exact Hlow.
Qed.

(** X1.  The slug matcher answers a candidate exactly when the score it
    answers is at least 70; the candidate is always the id of a catalogue
    entry, and the score is never negative. *)
Theorem slug_candidate_iff_score (slug : string) :
  (fst (find_proposal_by_slug slug) <> None
   <-> (70 <= snd (find_proposal_by_slug slug))%Q)
  /\ (forall id, fst (find_proposal_by_slug slug) = Some id ->
                 exists p, In p proposals /\ id = p_id p)
  /\ (0 <= snd (find_proposal_by_slug slug))%Q.
Proof.
  split; [| split; [| apply find_proposal_by_slug_nonneg]].
  - destruct (find_proposal_by_slug_candidate slug)
      as [[Hnone Hlt] | (p & _ & Hsome & Hge)].
    + split; [congruence |]. intros Hge. exfalso.
      eapply Qlt_not_le; eauto.
    + split; [now intros _ |]. intros _. congruence.
  - intros id Hid.
    destruct (find_proposal_by_slug_candidate slug)
      as [[Hnone _] | (p & Hp & Hsome & _)]; [congruence |].
    exists p. split; [exact Hp | congruence].
Qed.

(** X2.  The slug matcher ignores the case of the query: two slugs with
    the same lower-case form get the same answer. *)
Theorem resolve_ignores_case (a b : string) :
  Py.lower a = Py.lower b ->
  find_proposal_by_slug a = find_proposal_by_slug b.
Proof.
  intros Hab. unfold find_proposal_by_slug.
  rewrite <- (truthy_lower a), <- (truthy_lower b), Hab. reflexivity.
Qed.


(** *** Buckets and scores *)

Lemma contains_forum_link (rest : string) :
  Py.contains "forum_link" ("forum_link_slug (" ++ rest) = true.
Proof. reflexivity. Qed.

Lemma snapshot_link_facts (forum_links : list link) :
  fst (fst (snapshot_best_link forum_links)) = None
  \/ exists lid ls slug,
      snapshot_best_link forum_links = (Some lid, ls, Some slug)
      /\ Py.ge ls 70 = true /\ Py.ge ls 60 = true.
Proof.
  destruct (snapshot_best_link_cases forum_links) as [-> | (l & _ & ->)];
    [now left |].
  destruct (find_proposal_by_slug_candidate (fst l))
    as [[Hnone _] | (p & _ & Hsome & Hge)]; [now left | right].
  destruct (find_proposal_by_slug (fst l)) as [li ls]. cbn [fst snd] in *.
  subst li. exists (p_id p), ls, (fst l). split; [reflexivity |].
  split; apply ge_true; [exact Hge |].
  eapply Qle_trans; [| exact Hge]. discriminate.
Qed.

Lemma title_match_facts (title : string) (min_score : Q) :
  (0 < min_score)%Q ->
  exists ti tt ts,
    find_best_title_match title min_score = Some (ti, tt, ts)
    /\ (ti = None \/ exists pid, ti = Some pid /\ Py.ge ts min_score = true).
Proof.
  intros Hmin.
  destruct (find_best_title_match_total title min_score Hmin)
    as (ti & tt & ts & Htm & Hcase).
  exists ti, tt, ts. split; [exact Htm |].
  destruct Hcase as [(Hnone & _) | (p & _ & Hsome & _ & _ & Hge)];
    [now left | right].
  exists (p_id p). split; [exact Hsome | now apply ge_true].
Qed.

(** X3.  The bucket of a Snapshot result tells its score: a result in
    [matched_by_link] or [matched_by_title] has a candidate and a score of
    at least 70 (a link method in the first, a title or override method
    in the second); a result in [low_confidence] is a title match with a
    score from 55 up to, but not including, 70, so a link match is never
    of low confidence; the results of the other buckets have neither
    candidate nor score. *)
Theorem snapshot_bucket_scores (s : row) (b : snapshot_bucket)
        (r : match_result) :
  snapshot_row s = Some (b, r) ->
  match b with
  | matched_by_link =>
      exists sc, r_score r = Some sc /\ (70 <= sc)%Q
                 /\ r_proposal_id r <> None
                 /\ Py.contains "forum_link" (str_of_method (r_method r)) = true
  | matched_by_title =>
      exists sc, r_score r = Some sc /\ (70 <= sc)%Q
                 /\ r_proposal_id r <> None
                 /\ (r_method r = Some "title_fuzzy"
                     \/ r_method r = Some "manual_override")
  | low_confidence =>
      exists sc, r_score r = Some sc /\ (55 <= sc)%Q /\ (sc < 70)%Q
                 /\ r_proposal_id r <> None
                 /\ r_method r = Some "title_fuzzy"
                 /\ r_category r = "low_confidence"
  | stip_ltipp | elections | unmatched =>
      r_proposal_id r = None /\ r_score r = None
  end.
Proof.
  unfold snapshot_row.
  destruct (row_item "id" s) as [id|]; cbn [bind]; [| discriminate].
  destruct (is_stip_ltipp_protocol (row_text "title" s)).
  { intros [= <- <-]. split; reflexivity. }
  destruct (is_election (row_text "title" s)).
  { intros [= <- <-]. split; reflexivity. }
  destruct (override_lookup MANUAL_OVERRIDES_SNAPSHOT (row_text "title" s))
    as [pid|] eqn:Hov.
  { apply (override_lookup_truthy _ _ _ overrides_snapshot_truthy) in Hov.
    row_simpl. rewrite Hov. intros [= <- <-]. exists 100. row_simpl.
    repeat split; [discriminate | discriminate | now right]. }
  row_simpl.
  destruct (title_match_facts (row_text "title" s) 55)
    as (ti & tt & ts & Htm & Hti); [reflexivity |].
  rewrite Htm. row_simpl.
  unfold snapshot_decide, snapshot_categorize, link_method.
  destruct (snapshot_link_facts (extract_forum_links (row_text "body" s)))
    as [Hli | (lid & ls & slug & Hlm & HL70 & HL60)].
  - destruct (snapshot_best_link _) as [[li ls] lsl]. cbn [fst snd] in Hli.
    subst li.
    destruct Hti as [-> | (pid & -> & H55)].
    + row_simpl. cbn [andb]. intros [= <- <-]. split; reflexivity.
    + destruct pid as [|c pid]; [| destruct (Py.ge ts 70) eqn:H70];
        repeat (row_simpl; cbn [andb]; rewrite ?H55, ?H70);
        intros [= <- <-]; try (split; reflexivity);
        exists ts; row_simpl;
        repeat split; try discriminate; auto;
        first [ now apply ge_true | now apply ge_false ].
  - rewrite Hlm.
    destruct Hti as [-> | (pid & -> & H55)].
    + destruct lid as [|c lid];
        repeat (row_simpl; cbn [andb];
                rewrite ?HL70, ?HL60, ?contains_forum_link);
        intros [= <- <-]; try (split; reflexivity);
        exists ls; row_simpl;
        repeat split; try discriminate;
        first [ now apply ge_true | apply contains_forum_link ].
    + destruct pid as [|c pid]; destruct lid as [|c' lid];
        destruct (Py.ge ts 70) eqn:H70;
        repeat (row_simpl; cbn [andb];
                rewrite ?H55, ?H70, ?HL70, ?HL60, ?contains_forum_link);
        intros [= <- <-]; row_simpl;
        try (split; reflexivity);
        first [ exists ts; row_simpl;
                repeat split; try discriminate; auto;
                first [ now apply ge_true | now apply ge_false ]
              | exists ls; row_simpl;
                repeat split; try discriminate; auto;
                first [ now apply ge_true | apply contains_forum_link ] ].
Qed.


Lemma tally_link_facts (forum_links : list link) (p_id : option string)
      (score : Q) :
  tally_first_link forum_links = Some (p_id, score) ->
  Py.truthy_opt p_id = true /\ Py.ge score 70 = true /\ Py.ge score 60 = true.
Proof.
  intros H. apply tally_first_link_hit in H. unfold tally_hit in H.
  cbn [fst snd] in H. apply andb_true_iff in H. destruct H as [Ht Hge].
  repeat split; try assumption.
  apply ge_true. apply ge_true in Hge.
  eapply Qle_trans; [| exact Hge]. discriminate.
Qed.

(** X4.  The bucket of a Tally result tells its score: a result in
    [matched] has a candidate and a score of at least 75; a result in
    [low_confidence] has a candidate and a score from 60 up to, but not
    including, 75 (at least 70 when it comes from a link); a result in
    [unmatched] has neither candidate nor score. *)
Theorem tally_bucket_scores (t : row) (b : tally_bucket) (r : match_result) :
  tally_row t = Some (b, r) ->
  match b with
  | t_matched =>
      exists sc, r_score r = Some sc /\ (75 <= sc)%Q
                 /\ r_proposal_id r <> None
  | t_low_confidence =>
      exists sc, r_score r = Some sc /\ (60 <= sc)%Q /\ (sc < 75)%Q
                 /\ r_proposal_id r <> None
                 /\ r_category r = "low_confidence"
                 /\ (r_method r = Some "title_fuzzy"
                     \/ (r_method r = Some "forum_link_slug" /\ (70 <= sc)%Q))
  | t_unmatched => r_proposal_id r = None /\ r_score r = None
  end.
Proof.
  unfold tally_row.
  destruct (row_item "id" t) as [id|]; cbn [bind]; [| discriminate].
  destruct (tally_garbage (row_text "title" t)).
  { intros [= <- <-]. split; reflexivity. }
  unfold tally_categorize.
  destruct (override_lookup MANUAL_OVERRIDES_TALLY (row_text "title" t))
    as [pid|] eqn:Hov.
  { apply (override_lookup_truthy _ _ _ overrides_tally_truthy) in Hov.
    repeat (row_simpl; rewrite ?Hov).
    intros [= <- <-]. exists 100. row_simpl.
    repeat split; discriminate. }
  row_simpl.
  destruct (tally_first_link (extract_forum_links (row_text "description" t)))
    as [[lid ls]|] eqn:Hlink.
  { destruct (tally_link_facts _ _ _ Hlink) as (Ht & H70 & H60).
    destruct lid as [lid|]; [| discriminate Ht]. cbn [Py.truthy_opt] in Ht.
    destruct (Py.ge ls 75) eqn:H75;
      repeat (row_simpl; rewrite ?Ht, ?H75);
      intros [= <- <-]; exists ls; row_simpl;
      repeat split; try discriminate;
      first [ now apply ge_true | now apply ge_false
            | right; split; [reflexivity | now apply ge_true] ]. }
  row_simpl.
  destruct (title_match_facts (row_text "title" t) 60)
    as (ti & tt & ts & Htm & Hti); [reflexivity |].
  rewrite Htm.
  destruct Hti as [-> | (pid & -> & H60)].
  - row_simpl. intros [= <- <-]. split; reflexivity.
  - destruct pid as [|c pid]; [| destruct (Py.ge ts 75) eqn:H75];
      repeat (row_simpl; rewrite ?H75);
      intros [= <- <-]; try (split; reflexivity);
      exists ts; row_simpl;
      repeat split; try discriminate; auto;
      first [ now apply ge_true | now apply ge_false ].
Qed.


(** X6.  A Tally result has the category [garbage] exactly when the
    row's title is absent, null or empty, or is one of the three literal
    titles of the block-list; such a result is in [unmatched] and has no
    candidate, score or method. *)
Theorem tally_garbage_rows (t : row) (b : tally_bucket) (r : match_result) :
  tally_row t = Some (b, r) ->
  (r_category r = "garbage"
   <-> row_text "title" t = EmptyString
       \/ In (row_text "title" t) garbage_titles)
  /\ (r_category r = "garbage" ->
      b = t_unmatched /\ r_proposal_id r = None /\ r_score r = None
      /\ r_method r = None).
Proof.
  intros Hrow. split.
  - rewrite (tally_row_garbage t b r Hrow). apply tally_garbage_iff.
  - intros Hcat. apply (tally_row_garbage t b r Hrow) in Hcat.
    revert Hrow. unfold tally_row.
    destruct (row_item "id" t) as [id|]; cbn [bind]; [| discriminate].
    rewrite Hcat. intros [= <- <-]. repeat split.
Qed.

(** X7.  Every title the Tally loop of [match_final.py] treats as garbage
    is skipped by [is_skip_tally] of [generate_prompts.py]. *)
Theorem garbage_is_skipped (title : string) :
  tally_garbage title = true -> is_skip_tally title = true.
Proof.
  unfold tally_garbage, is_skip_tally.
  destruct (Py.truthy title); cbn [negb orb]; [| reflexivity].
  intros H. unfold garbage_titles in H. cbn [Py.in_list] in H.
  rewrite !orb_true_iff, !String.eqb_eq in H.
  destruct H as [-> | [-> | [-> | H]]]; try reflexivity. discriminate H.
Qed.

(** X8.  A Snapshot row with an id and no title (absent, null or empty)
    is matched by its links alone: when a link that is not generic
    resolves to a candidate, the row goes to [matched_by_link] with that
    candidate and a score of at least 70; otherwise it is unmatched,
    without candidate. *)
Theorem snapshot_untitled_row (s : row) (id : json) :
  row_item "id" s = Some id ->
  row_text "title" s = EmptyString ->
  let lm := snapshot_best_link (extract_forum_links (row_text "body" s)) in
  exists b r,
    snapshot_row s = Some (b, r)
    /\ match fst (fst lm) with
       | Some (String _ _) =>
           b = matched_by_link /\ r_proposal_id r = fst (fst lm)
           /\ r_score r = Some (snd (fst lm)) /\ (70 <= snd (fst lm))%Q
       | _ => b = unmatched /\ r_proposal_id r = None /\ r_score r = None
       end.
Proof.
  intros Hid Htitle lm. unfold snapshot_row.
  rewrite Hid, Htitle. cbn [bind]. subst lm.
  change (is_stip_ltipp_protocol "") with false.
  change (is_election "") with false.
  change (override_lookup MANUAL_OVERRIDES_SNAPSHOT "") with (@None string).
  change (find_best_title_match "" 55) with (Some (@None string, @None string, 0)).
  row_simpl.
  unfold snapshot_decide, snapshot_categorize, link_method.
  destruct (snapshot_link_facts (extract_forum_links (row_text "body" s)))
    as [Hli | (lid & ls & slug & Hlm & HL70 & HL60)].
  - destruct (snapshot_best_link _) as [[li ls] lsl]. cbn [fst snd] in *.
    subst li. row_simpl. cbn [andb].
    do 2 eexists. split; [reflexivity |]. repeat split.
  - rewrite Hlm. destruct lid as [|c lid];
      repeat (row_simpl; cbn [andb];
              rewrite ?HL70, ?HL60, ?contains_forum_link);
      do 2 eexists; (split; [reflexivity |]); repeat split.
    now apply ge_true.
Qed.


(** *** The slug index as a dictionary *)

Lemma add_slugs_keys (index : dict string string) (p : proposal) :
  add_slugs index p
  = fold_left (fun d k => dict_set String.eqb k (p_id p) d) (slug_keys p) index.
Proof.
  unfold add_slugs, slug_keys.
  destruct (Py.truthy (normalize_title (html_unescape (p_title p))));
    reflexivity.
Qed.

Lemma set_all_get_in (keys : list string) (v k : string)
      (index : dict string string) :
  In k keys ->
  dict_get String.eqb k
    (fold_left (fun d k' => dict_set String.eqb k' v d) keys index) = Some v.
Proof.
  revert index. induction keys as [|k0 keys IH]; intros index; simpl;
    [intros [] |].
  intros [-> | Hin]; [| now apply IH].
  destruct (in_dec string_dec k keys) as [Hin | Hout]; [now apply IH |].
  clear IH. revert index. induction keys as [|k1 keys IH]; intros index; simpl.
  - apply (dict_get_set_same _ _ _ String.eqb_eq).
  - assert (Hne : k <> k1) by (intros ->; apply Hout; now left).
    assert (Hout' : ~ In k keys) by (intros H; apply Hout; now right).
    specialize (IH Hout').
    assert (Hswap : forall d,
               dict_get String.eqb k
                 (fold_left (fun d k' => dict_set String.eqb k' v d) keys d)
               = dict_get String.eqb k d).
    { clear - Hout'. induction keys as [|k2 keys IH2]; intros d; simpl;
        [reflexivity |].
      rewrite IH2; [| intros H; apply Hout'; now right].
      apply (dict_get_set_other _ _ _ String.eqb_eq).
      intros ->. apply Hout'. now left. }
    rewrite Hswap.
    rewrite (dict_get_set_other _ _ _ String.eqb_eq) by exact Hne.
    apply (dict_get_set_same _ _ _ String.eqb_eq).
Qed.

Lemma set_all_get_out (keys : list string) (v k : string)
      (index : dict string string) :
  ~ In k keys ->
  dict_get String.eqb k
    (fold_left (fun d k' => dict_set String.eqb k' v d) keys index)
  = dict_get String.eqb k index.
Proof.
  revert index. induction keys as [|k0 keys IH]; intros index Hout; simpl;
    [reflexivity |].
  rewrite IH; [| intros H; apply Hout; now right].
  apply (dict_get_set_other _ _ _ String.eqb_eq).
  intros ->. apply Hout. now left.
Qed.

Lemma fold_add_slugs_out (ps : list proposal) (k : string)
      (index : dict string string) :
  (forall q, In q ps -> ~ In k (slug_keys q)) ->
  dict_get String.eqb k (fold_left add_slugs ps index)
  = dict_get String.eqb k index.
Proof.
  revert index. induction ps as [|q ps IH]; intros index Hout; simpl;
    [reflexivity |].
  rewrite IH; [| intros q' Hq'; apply Hout; now right].
  rewrite add_slugs_keys. apply set_all_get_out. apply Hout. now left.
Qed.

Lemma slug_keys_lower (p : proposal) (k : string) :
  In k (slug_keys p) -> Py.lower k = k.
Proof.
  unfold slug_keys.
  destruct (Py.truthy (normalize_title (html_unescape (p_title p))));
    simpl; intros H; repeat destruct H as [<- | H];
    try apply title_to_slug_lower; destruct H.
Qed.

(** X9.  Insert and lookup of the slug index: a key written by a
    catalogue entry (the slug of its title, or of its normalised title)
    maps to that entry's id unless a later entry writes the same key; a
    forum link with that slug, when it is not empty, then resolves to the
    entry with score 100. *)
Theorem slug_index_lookup (pre post : list proposal) (p : proposal)
        (k : string) :
  proposals = pre ++ p :: post ->
  In k (slug_keys p) ->
  (forall q, In q post -> ~ In k (slug_keys q)) ->
  dict_get String.eqb k proposal_slugs = Some (p_id p)
  /\ (k <> EmptyString -> find_proposal_by_slug k = (Some (p_id p), 100)).
Proof.
  intros Hps Hk Hpost.
  assert (Hget : dict_get String.eqb k proposal_slugs = Some (p_id p)).
  { unfold proposal_slugs. rewrite Hps, fold_left_app. cbn [fold_left].
    rewrite (fold_add_slugs_out post k _ Hpost), add_slugs_keys.
    now apply set_all_get_in. }
  split; [exact Hget |].
  intros Hne. unfold find_proposal_by_slug.
  destruct k as [|c k']; [congruence |]. cbn [Py.truthy negb].
  rewrite (slug_keys_lower p _ Hk), Hget. reflexivity.
Qed.

(** *** The title matcher *)

(** X10.  For a non-empty title and a positive threshold the title
    matcher returns the first catalogue entry of the highest combined
    score when that score reaches the threshold, with the entry's id, its
    unescaped title and the score; otherwise it returns no candidate and
    the highest combined score seen (0 when no entry scores above 0),
    which is below the threshold. *)
Theorem find_best_title_match_best (title : string) (min_score : Q) :
  title <> EmptyString ->
  (0 < min_score)%Q ->
  let score := combined_score (normalize_title title) in
  exists id t sc,
    find_best_title_match title min_score = Some (id, t, sc)
    /\ Forall (fun q => score q <= sc)%Q proposals
    /\ (0 <= sc)%Q
    /\ ((id = None /\ t = None /\ (sc < min_score)%Q)
        \/ (exists pre p post,
               proposals = pre ++ p :: post
               /\ id = Some (p_id p)
               /\ t = Some (html_unescape (p_title p))
               /\ sc = score p
               /\ (min_score <= sc)%Q
               /\ Forall (fun q => score q < sc)%Q pre)).
Proof.
  intros Hne Hmin score. unfold find_best_title_match.
  destruct title as [|c title']; [congruence |]. cbn [Py.truthy negb].
  set (nt := normalize_title (String c title')) in *.
  set (mk := fun p : proposal => (Some p, combined_score nt p)).
  change (title_scan nt proposals (None, 0))
    with (fold_left (keep_best _ _ snd score mk) proposals (None, 0)).
  assert (Hmk : forall x, snd (mk x) = score x) by reflexivity.
  destruct (keep_best_upper _ _ snd score mk Hmk proposals (None, 0))
    as [Hlow Hup].
  destruct (keep_best_scan _ _ snd score mk Hmk proposals (None, 0))
    as [[Hr _] | (pre & p & post & Hxs & Hr & _ & Hpre & _)];
    rewrite Hr in *; clear Hr; unfold mk, score in *; cbn [fst snd] in *.
  - destruct (Py.ge 0 min_score) eqn:Hge.
    + apply ge_true in Hge. exfalso. eapply Qlt_not_le; eauto.
    + exists None, None, 0. split; [reflexivity |].
      split; [exact Hup |]. split; [apply Qle_refl |]. left. auto.
  - destruct (Py.ge (combined_score nt p) min_score) eqn:Hge.
    + apply ge_true in Hge. do 3 eexists. split; [reflexivity |].
      split; [exact Hup |]. split; [exact Hlow |].
      right. exists pre, p, post. repeat split; auto.
    + apply ge_false in Hge. do 3 eexists. split; [reflexivity |].
      split; [exact Hup |]. split; [exact Hlow |]. left. auto.
Qed.


(** *** Case-insensitive search finds whatever case-sensitive search finds *)

Lemma chr_eq_ignore_case (c x : ascii) :
  Re.chr_eq false c x = true -> Re.chr_eq true c x = true.
Proof.
  unfold Re.chr_eq. intros H. apply Ascii.eqb_eq in H. subst x.
  apply Ascii.eqb_refl.
Qed.

(** If the case-sensitive matcher succeeds with a continuation, the
    case-insensitive one succeeds with any continuation that accepts at
    least the same end points. *)
Lemma rmatch_ignore_case (A B : Type) (r : Re.regex) :
  forall (pos : nat) (s : string) (caps caps' : Re.captures)
         (k : Re.captures -> nat -> string -> option A)
         (k' : Re.captures -> nat -> string -> option B),
    (forall c c' p t x, k c p t = Some x -> exists y, k' c' p t = Some y) ->
    forall x, Re.rmatch false A r pos s caps k = Some x ->
              exists y, Re.rmatch true B r pos s caps' k' = Some y.
Proof.
  induction r as [| c | p | r1 IH1 r2 IH2 | r1 IH1 r2 IH2 | r IH | n r IH | |];
    intros pos s caps caps' k k' Hk x.
  - cbn [Re.rmatch]. apply Hk.
  - cbn [Re.rmatch]. destruct s as [|a s]; [discriminate |].
    destruct (Re.chr_eq false c a) eqn:E; [| discriminate].
    rewrite (chr_eq_ignore_case _ _ E). apply Hk.
  - cbn [Re.rmatch]. destruct s as [|a s]; [discriminate |].
    destruct (p a); [apply Hk | discriminate].
  - cbn [Re.rmatch]. apply IH1. intros c c' p t x'. apply IH2. exact Hk.
  - cbn [Re.rmatch].
    destruct (Re.rmatch false A r1 pos s caps k) as [x1|] eqn:E1.
    + intros _. destruct (IH1 pos s caps caps' k k' Hk x1 E1) as (y & ->).
      now exists y.
    + intros E2. destruct (Re.rmatch true B r1 pos s caps' k') as [y|];
        [now exists y |].
      apply (IH2 pos s caps caps' k k' Hk x E2).
  - change (Re.rmatch false A (Re.Star r) pos s caps k)
      with (Re.star_rounds false A r k (String.length s) pos s caps).
    change (Re.rmatch true B (Re.Star r) pos s caps' k')
      with (Re.star_rounds true B r k' (String.length s) pos s caps').
    generalize (String.length s). intros fuel.
    revert pos s caps caps' x.
    induction fuel as [|fuel IHf]; intros pos s caps caps' x;
      cbn [Re.star_rounds]; [apply Hk |].
    fold (Re.star_rounds false A r k). fold (Re.star_rounds true B r k').
    destruct (Re.rmatch false A r pos s caps _) as [x1|] eqn:E1.
    + intros _.
      assert (Hy : exists y,
                 Re.rmatch true B r pos s caps'
                   (fun caps1 pos1 s1 =>
                      if (pos <? pos1)%nat
                      then Re.star_rounds true B r k' fuel pos1 s1 caps1
                      else None) = Some y).
      { eapply IH; [| exact E1]. intros c c' p t x2. cbv beta.
        destruct (pos <? p)%nat; [apply IHf | discriminate]. }
      destruct Hy as (y & ->). now exists y.
    + intros E2.
      destruct (Re.rmatch true B r pos s caps' _) as [y|]; [now exists y |].
      apply (Hk _ _ _ _ _ E2).
  - cbn [Re.rmatch]. apply IH. intros c c' p t x'. apply Hk.
  - cbn [Re.rmatch]. destruct (pos =? 0)%nat; [apply Hk | discriminate].
  - cbn [Re.rmatch]. destruct s as [|a [|b s]]; try discriminate; [apply Hk |].
    destruct (Ascii.eqb a Py.newline); [apply Hk | discriminate].
Qed.

Lemma search_ignore_case (r : Re.regex) (s : string) :
  Re.search false r s = true -> Re.search true r s = true.
Proof.
  unfold Re.search. generalize 0%nat.
  induction s as [|a s IH]; intros pos; cbn [Re.search_from];
    unfold Re.match_at.
  - destruct (Re.rmatch false _ r pos "" [] _) as [x|] eqn:E; [| discriminate].
    intros _.
    destruct (rmatch_ignore_case _ (Re.captures * nat) r pos "" [] []
                _ (fun caps pos' _ => Some (caps, pos'))
                ltac:(intros; eexists; reflexivity) x E) as (y & ->).
    reflexivity.
  - destruct (Re.rmatch false _ r pos (String a s) [] _) as [x|] eqn:E.
    + intros _.
      destruct (rmatch_ignore_case _ (Re.captures * nat) r pos (String a s)
                  [] [] _ (fun caps pos' _ => Some (caps, pos'))
                  ltac:(intros; eexists; reflexivity) x E) as (y & ->).
      reflexivity.
    + intros H. apply IH in H.
      destruct (Re.rmatch true _ r pos (String a s) [] _); [reflexivity |].
      exact H.
Qed.

(** X11.  The prompt generator skips every Snapshot title that the
    matching script classifies as protocol grant or election; it also
    skips the empty title, which the matching script classifies as
    neither. *)
Theorem skip_covers_classifiers (title : string) :
  (is_stip_ltipp_protocol title = true \/ is_election title = true ->
   is_skip_snapshot title = true)
  /\ (Py.truthy title = false ->
      is_skip_snapshot title = true
      /\ is_stip_ltipp_protocol title = false
      /\ is_election title = false).
Proof.
  unfold is_skip_snapshot, is_stip_ltipp_protocol, is_election.
  destruct (Py.truthy title); cbn [negb].
  - split; [| discriminate]. rewrite existsb_app.
    intros [H | H]; apply orb_true_iff; [left | now right].
    apply existsb_exists in H. destruct H as (p & Hp & Hs).
    apply existsb_exists. exists p. split; [exact Hp |].
    now apply search_ignore_case.
  - split; intros _; auto.
Qed.


(** *** Substitution of one-character patterns *)

Section OneChar.
Variable ic : bool.
Variable r1 : Re.regex.
Variable p : ascii -> bool.
(** [r1] matches exactly one character, one that satisfies [p]. *)
Hypothesis r1_one : forall (A : Type) pos s caps
                           (k : Re.captures -> nat -> string -> option A),
    Re.rmatch ic A r1 pos s caps k
    = match s with
      | String x s' => if p x then k caps (S pos) s' else None
      | EmptyString => None
      end.

Lemma star_rounds_one (s : string) :
  forall (fuel pos : nat) (caps : Re.captures),
    (Shape.span p s <= fuel)%nat ->
    Re.star_rounds ic _ r1 (fun caps pos' _ => Some (caps, pos')) fuel pos s caps
    = Some (caps, (pos + Shape.span p s)%nat).
Proof.
  induction s as [|c s IH]; intros fuel pos caps Hfuel.
  - destruct fuel; cbn [Re.star_rounds Shape.span]; rewrite ?r1_one;
      now rewrite Nat.add_0_r.
  - cbn [Shape.span] in *. destruct (p c) eqn:Hc.
    + destruct fuel as [|fuel]; [lia |]. cbn [Re.star_rounds].
      rewrite r1_one, Hc.
      assert (Hlt : (pos <? S pos)%nat = true) by (apply Nat.ltb_lt; lia).
      rewrite Hlt.
      fold (Re.star_rounds ic (Re.captures * nat) r1
              (fun caps pos' _ => Some (caps, pos'))).
      rewrite IH by lia. f_equal. f_equal. lia.
    + destruct fuel; cbn [Re.star_rounds]; rewrite ?r1_one, ?Hc;
        now rewrite Nat.add_0_r.
Qed.

Lemma span_le_length (s : string) : (Shape.span p s <= String.length s)%nat.
Proof.
  induction s as [|c s IH]; simpl; [lia |]. destruct (p c); lia.
Qed.

(** A match of [r1+] takes the whole run of characters that satisfy [p]. *)
Lemma match_at_plus_one (pos : nat) (s : string) :
  Re.match_at ic (Re.Plus r1) pos s
  = match s with
    | String x s' =>
        if p x then Some ([], (S pos + Shape.span p s')%nat) else None
    | EmptyString => None
    end.
Proof.
  unfold Re.match_at, Re.Plus. cbn [Re.rmatch]. rewrite r1_one.
  destruct s as [|x s']; [reflexivity |]. destruct (p x); [| reflexivity].
  change (Re.rmatch ic (Re.captures * nat) (Re.Star r1) (S pos) s' []
            (fun caps pos' _ => Some (caps, pos')))
    with (Re.star_rounds ic (Re.captures * nat) r1
            (fun caps pos' _ => Some (caps, pos')) (String.length s')
            (S pos) s' []).
  apply star_rounds_one. apply span_le_length.
Qed.

Lemma match_at_one (pos : nat) (s : string) :
  Re.match_at ic r1 pos s
  = match s with
    | String x s' => if p x then Some ([], S pos) else None
    | EmptyString => None
    end.
Proof. unfold Re.match_at. now rewrite r1_one. Qed.

(** Deleting the matches of [r1] removes the characters that satisfy [p]. *)
Lemma sub_one_remove (s : string) :
  Re.sub ic r1 EmptyString s = Shape.remove p s.
Proof.
  unfold Re.sub. generalize 0%nat at 1.
  induction s as [|c s IH]; intros pos; cbn [Re.sub_from Shape.remove];
    rewrite match_at_one; [reflexivity |].
  destruct (p c).
  - replace (S pos - pos)%nat with 1%nat by lia. cbn. apply IH.
  - f_equal. apply IH.
Qed.

(** Replacing the matches of [r1+] by [d] squeezes the runs. *)
Lemma sub_plus_squeeze (d : ascii) (s : string) :
  Re.sub ic (Re.Plus r1) (String d EmptyString) s = Shape.squeeze p d false s.
Proof.
  unfold Re.sub.
  assert (H : forall s pos,
             Re.sub_from ic (Re.Plus r1) (String d "") pos 0 s
             = Shape.squeeze p d false s
             /\ Re.sub_from ic (Re.Plus r1) (String d "") pos
                            (Shape.span p s) s
                = Shape.squeeze p d true s).
  { clear s. induction s as [|c s IH]; intros pos.
    - cbn [Re.sub_from Shape.span Shape.squeeze]. rewrite match_at_plus_one.
      split; reflexivity.
    - split.
      + cbn [Re.sub_from Shape.squeeze]. rewrite match_at_plus_one.
        destruct (p c).
        * replace (S pos + Shape.span p s - pos)%nat
            with (S (Shape.span p s)) by lia.
          cbn. f_equal. apply IH.
        * f_equal. apply IH.
      + cbn [Shape.span Shape.squeeze]. destruct (p c) eqn:Hc.
        * cbn [Re.sub_from]. apply IH.
        * cbn [Re.sub_from]. rewrite match_at_plus_one, Hc.
          f_equal. apply IH. }
  apply H.
Qed.
End OneChar.

Lemma cls_one (ic : bool) (p : ascii -> bool) (A : Type) pos s caps
      (k : Re.captures -> nat -> string -> option A) :
  Re.rmatch ic A (Re.Cls p) pos s caps k
  = match s with
    | String x s' => if p x then k caps (S pos) s' else None
    | EmptyString => None
    end.
Proof. reflexivity. Qed.

Lemma chr_one (c : ascii) (A : Type) pos s caps
      (k : Re.captures -> nat -> string -> option A) :
  Re.rmatch false A (Re.Chr c) pos s caps k
  = match s with
    | String x s' => if Ascii.eqb c x then k caps (S pos) s' else None
    | EmptyString => None
    end.
Proof. reflexivity. Qed.


(** *** Facts on reversal, stripping and squeezing *)

Lemma append_assoc_s (a b c : string) : ((a ++ b) ++ c = a ++ (b ++ c))%string.
Proof. induction a as [|x a IH]; simpl; [reflexivity | now rewrite IH]. Qed.

Lemma append_empty_r (a : string) : (a ++ "")%string = a.
Proof. induction a as [|x a IH]; simpl; [reflexivity | now rewrite IH]. Qed.

Lemma rev_acc_app (s acc : string) :
  Py.rev_acc s acc = (Py.rev_acc s "" ++ acc)%string.
Proof.
  revert acc. induction s as [|c s IH]; intros acc; simpl; [reflexivity |].
  rewrite IH, (IH (String c "")), append_assoc_s. reflexivity.
Qed.

Lemma rev_app (a b : string) :
  Py.rev (a ++ b) = (Py.rev b ++ Py.rev a)%string.
Proof.
  unfold Py.rev. induction a as [|c a IH]; simpl.
  - now rewrite append_empty_r.
  - rewrite rev_acc_app, IH, (rev_acc_app a (String c "")), append_assoc_s.
    reflexivity.
Qed.

Lemma rev_involutive (s : string) : Py.rev (Py.rev s) = s.
Proof.
  induction s as [|c s IH]; [reflexivity |].
  change (String c s) with (String c "" ++ s)%string at 1.
  rewrite rev_app, rev_app, IH. reflexivity.
Qed.

Lemma lstrip_split (p : ascii -> bool) (s : string) :
  exists a, s = (a ++ Py.lstrip_by p s)%string.
Proof.
  induction s as [|c s (a & Ha)]; simpl; [now exists "" |].
  destruct (p c); [| now exists ""].
  exists (String c a). simpl. now rewrite <- Ha.
Qed.

Lemma lstrip_starts (p : ascii -> bool) (s : string) :
  Shape.starts_by p (Py.lstrip_by p s) = false.
Proof.
  induction s as [|c s IH]; simpl; [reflexivity |].
  destruct (p c) eqn:Hc; [exact IH |]. simpl. exact Hc.
Qed.

(** What [strip] returns is a middle part of its argument that neither
    starts nor ends with a stripped character. *)
Lemma strip_by_middle (p : ascii -> bool) (s : string) :
  (exists a b, s = (a ++ Py.strip_by p s ++ b)%string)
  /\ Shape.starts_by p (Py.strip_by p s) = false
  /\ Shape.ends_by p (Py.strip_by p s) = false.
Proof.
  unfold Py.strip_by, Shape.ends_by.
  destruct (lstrip_split p s) as (a & Ha).
  destruct (lstrip_split p (Py.rev (Py.lstrip_by p s))) as (b & Hb).
  set (m := Py.lstrip_by p s) in *.
  set (t := Py.lstrip_by p (Py.rev m)) in *.
  assert (Hm : m = (Py.rev t ++ Py.rev b)%string).
  { rewrite <- (rev_involutive m), Hb. apply rev_app. }
  split; [| split].
  - exists a, (Py.rev b). now rewrite <- Hm.
  - pose proof (lstrip_starts p s) as Hs. fold m in Hs. rewrite Hm in Hs.
    destruct (Py.rev t); [reflexivity | exact Hs].
  - rewrite rev_involutive. apply lstrip_starts.
Qed.

Lemma no_adjacent_cons (p : ascii -> bool) (a : ascii) (t : string) :
  Shape.no_adjacent p (String a t)
  = negb (p a && Shape.starts_by p t) && Shape.no_adjacent p t.
Proof.
  destruct t; simpl; [| reflexivity]. now rewrite andb_false_r.
Qed.

Lemma no_adjacent_app_l (p : ascii -> bool) (a m : string) :
  Shape.no_adjacent p (a ++ m) = true -> Shape.no_adjacent p m = true.
Proof.
  induction a as [|c a IH]; [auto |].
  change (String c a ++ m)%string with (String c (a ++ m)).
  rewrite no_adjacent_cons. intros H. apply andb_true_iff in H. now apply IH.
Qed.

Lemma no_adjacent_app_r (p : ascii -> bool) (m b : string) :
  Shape.no_adjacent p (m ++ b) = true -> Shape.no_adjacent p m = true.
Proof.
  induction m as [|c m IH]; [reflexivity |].
  change (String c m ++ b)%string with (String c (m ++ b)).
  rewrite !no_adjacent_cons. intros H. apply andb_true_iff in H.
  destruct H as [H1 H2]. rewrite (IH H2), andb_true_r.
  destruct m as [|x m]; [simpl; now rewrite andb_false_r | exact H1].
Qed.

Lemma no_adjacent_strip (p q : ascii -> bool) (s : string) :
  Shape.no_adjacent p s = true ->
  Shape.no_adjacent p (Py.strip_by q s) = true.
Proof.
  intros H. destruct (strip_by_middle q s) as ((a & b & Hs) & _).
  rewrite Hs in H. apply no_adjacent_app_l in H.
  now apply no_adjacent_app_r in H.
Qed.

Lemma all_chars_remove (p : ascii -> bool) (s : string) :
  Py.all_chars (fun c => negb (p c)) (Shape.remove p s) = true.
Proof.
  induction s as [|c s IH]; simpl; [reflexivity |].
  destruct (p c) eqn:Hc; [exact IH |]. simpl. now rewrite Hc.
Qed.

(** After squeezing, a character is either the replacement or a character
    of the subject outside the squeezed class. *)
Lemma all_chars_squeeze (p q : ascii -> bool) (d : ascii) (s : string) :
  q d = true ->
  Py.all_chars (fun c => p c || q c) s = true ->
  forall inrun, Py.all_chars q (Shape.squeeze p d inrun s) = true.
Proof.
  intros Hd. induction s as [|c s IH]; simpl; intros H inrun; [reflexivity |].
  apply andb_true_iff in H. destruct H as [Hc Hs]. specialize (IH Hs).
  destruct (p c); [destruct inrun |]; simpl.
  - apply IH.
  - now rewrite Hd, IH.
  - simpl in Hc. now rewrite Hc, IH.
Qed.

(** When the replacement belongs to the squeezed class, no two characters
    of the class are left side by side. *)
Lemma squeeze_no_adjacent (p : ascii -> bool) (d : ascii) (s : string) :
  p d = true ->
  forall inrun,
    Shape.no_adjacent p (Shape.squeeze p d inrun s) = true
    /\ (inrun = true ->
        Shape.starts_by p (Shape.squeeze p d inrun s) = false).
Proof.
  intros Hd. induction s as [|c s IH]; intros inrun; [now split |].
  cbn [Shape.squeeze]. destruct (p c) eqn:Hc.
  - destruct inrun; [apply IH |]. split; [| discriminate].
    rewrite no_adjacent_cons. destruct (IH true) as [H1 H2].
    now rewrite H1, (H2 eq_refl), andb_false_r.
  - split.
    + rewrite no_adjacent_cons, Hc. simpl. apply IH.
    + intros _. exact Hc.
Qed.

Lemma all_chars_impl (p q : ascii -> bool) (s : string) :
  (forall c, p c = true -> q c = true) ->
  Py.all_chars p s = true -> Py.all_chars q s = true.
Proof.
  intros Hpq. induction s as [|c s IH]; simpl; [reflexivity |].
  intros H. apply andb_true_iff in H. destruct H as [Hc Hs].
  now rewrite (Hpq c Hc), IH.
Qed.

Lemma all_chars_both (p q : ascii -> bool) (s : string) :
  Py.all_chars p s = true -> Py.all_chars q s = true ->
  Py.all_chars (fun c => p c && q c) s = true.
Proof.
  induction s as [|c s IH]; simpl; [reflexivity |].
  intros H1 H2. apply andb_true_iff in H1. apply andb_true_iff in H2.
  destruct H1 as [-> H1], H2 as [-> H2]. now rewrite IH.
Qed.

Lemma slug_alphabet_char (c : ascii) :
  Py.not_upper c && (Py.is_word c || Ascii.eqb c "-"%char) = true ->
  Shape.slug_alphabet c = true.
Proof.
  destruct c as [b0 b1 b2 b3 b4 b5 b6 b7].
  destruct b0, b1, b2, b3, b4, b5, b6, b7; intros H;
    first [reflexivity | discriminate H].
Qed.

Lemma space_lower_char (c : ascii) :
  Py.is_space (Py.lower_char c) = Py.is_space c.
Proof.
  destruct c as [b0 b1 b2 b3 b4 b5 b6 b7].
  destruct b0, b1, b2, b3, b4, b5, b6, b7; reflexivity.
Qed.

Lemma blank_lower_char (c : ascii) :
  Shape.blank_or_ink (Py.lower_char c) = Shape.blank_or_ink c.
Proof.
  destruct c as [b0 b1 b2 b3 b4 b5 b6 b7].
  destruct b0, b1, b2, b3, b4, b5, b6, b7; reflexivity.
Qed.

Lemma starts_by_lower (s : string) :
  Shape.starts_by Py.is_space (Py.lower s) = Shape.starts_by Py.is_space s.
Proof. destruct s; simpl; [reflexivity | apply space_lower_char]. Qed.

Lemma no_adjacent_lower (s : string) :
  Shape.no_adjacent Py.is_space (Py.lower s)
  = Shape.no_adjacent Py.is_space s.
Proof.
  induction s as [|c s IH]; [reflexivity |].
  change (Py.lower (String c s)) with (String (Py.lower_char c) (Py.lower s)).
  now rewrite !no_adjacent_cons, IH, starts_by_lower, space_lower_char.
Qed.

Lemma all_blank_lower (s : string) :
  Py.all_chars Shape.blank_or_ink (Py.lower s)
  = Py.all_chars Shape.blank_or_ink s.
Proof.
  induction s as [|c s IH]; simpl; [reflexivity |].
  now rewrite IH, blank_lower_char.
Qed.

Lemma lower_app (a b : string) :
  Py.lower (a ++ b) = (Py.lower a ++ Py.lower b)%string.
Proof. induction a as [|c a IH]; simpl; [reflexivity | now rewrite IH]. Qed.

Lemma rev_lower (s : string) : Py.rev (Py.lower s) = Py.lower (Py.rev s).
Proof.
  induction s as [|c s IH]; [reflexivity |].
  change (String c s) with (String c "" ++ s)%string.
  rewrite lower_app, !rev_app, IH, lower_app. reflexivity.
Qed.

(** What the three substitutions and the final [strip] of [title_to_slug]
    leave, on the characters this development models. *)
Lemma slug_shape (title : string) :
  Py.all_chars Shape.slug_alphabet (title_to_slug title) = true
  /\ Shape.no_adjacent Shape.is_hyphen (title_to_slug title) = true
  /\ Shape.starts_by Shape.is_hyphen (title_to_slug title) = false
  /\ Shape.ends_by Shape.is_hyphen (title_to_slug title) = false.
Proof.
  unfold title_to_slug.
  destruct (negb (Py.truthy title)); [repeat split; reflexivity |].
  cbv zeta. unfold Re.space, Py.strip_char.
  rewrite (sub_one_remove false _ _ (cls_one false _)).
  rewrite (sub_plus_squeeze false _ _ (cls_one false _)).
  rewrite (sub_plus_squeeze false _ _ (chr_one "-")).
  fold Shape.is_hyphen.
  set (t := Py.lower (html_unescape title)).
  set (kept := fun c => Py.is_word c || Py.is_space c || Ascii.eqb c "-"%char).
  set (t1 := Shape.remove (fun c => negb (kept c)) t).
  set (t2 := Shape.squeeze Py.is_space "-" false t1).
  set (t3 := Shape.squeeze Shape.is_hyphen "-" false t2).
  assert (Hlow : forall s, Py.all_chars Py.not_upper s = true ->
                           Py.all_chars Py.not_upper
                             (Shape.squeeze Py.is_space "-" false s) = true
                           /\ Py.all_chars Py.not_upper
                                (Shape.squeeze Shape.is_hyphen "-" false s)
                              = true).
  { intros s Hs. split; apply all_chars_squeeze; try reflexivity;
      (eapply all_chars_impl; [| exact Hs]); intros c ->; apply orb_true_r. }
  assert (H1 : Py.all_chars Py.not_upper t1 = true).
  { subst t1. generalize (lower_all_not_upper (html_unescape title)).
    fold t. generalize t. clear. intros t.
    induction t as [|c t IH]; simpl; [reflexivity |].
    intros H. apply andb_true_iff in H. destruct H as [Hc Ht].
    destruct (negb (kept c)); [now apply IH |]. simpl. now rewrite Hc, IH. }
  assert (K1 : Py.all_chars kept t1 = true).
  { subst t1. eapply all_chars_impl; [| apply all_chars_remove].
    intros c Hc. now apply negb_true_iff, negb_false_iff in Hc. }
  assert (K2 : Py.all_chars (fun c => Py.is_word c || Ascii.eqb c "-"%char) t2
               = true).
  { subst t2. apply all_chars_squeeze; [reflexivity |].
    eapply all_chars_impl; [| exact K1]. unfold kept. intros c Hc.
    destruct (Py.is_space c), (Py.is_word c), (Ascii.eqb c "-"); auto. }
  assert (K3 : Py.all_chars (fun c => Py.is_word c || Ascii.eqb c "-"%char) t3
               = true).
  { subst t3. apply all_chars_squeeze; [reflexivity |].
    eapply all_chars_impl; [| exact K2]. intros c ->. apply orb_true_r. }
  assert (H3 : Py.all_chars Py.not_upper t3 = true).
  { apply Hlow. now apply Hlow. }
  destruct (strip_by_middle Shape.is_hyphen t3) as (_ & Hs & He).
  split; [| split; [| split]]; auto.
  - eapply all_chars_impl; [exact slug_alphabet_char |].
    apply all_chars_strip. now apply all_chars_both.
  - apply no_adjacent_strip. subst t3.
    now apply (squeeze_no_adjacent Shape.is_hyphen "-" t2 eq_refl false).
Qed.

(** What the last line of [normalize_title] leaves, on the characters
    this development models. *)
Lemma normalized_shape (title : string) :
  Py.all_chars Py.not_upper (normalize_title title) = true
  /\ Py.all_chars Shape.blank_or_ink (normalize_title title) = true
  /\ Shape.no_adjacent Py.is_space (normalize_title title) = true
  /\ Shape.starts_by Py.is_space (normalize_title title) = false
  /\ Shape.ends_by Py.is_space (normalize_title title) = false.
Proof.
  unfold normalize_title.
  destruct (negb (Py.truthy title)); [repeat split; reflexivity |].
  cbv zeta. unfold Re.space, Py.strip.
  rewrite (sub_plus_squeeze false _ _ (cls_one false _)).
  set (t := fold_left _ normalize_prefixes (html_unescape title)).
  destruct (strip_by_middle Py.is_space
              (Shape.squeeze Py.is_space " " false t)) as (_ & Hs & He).
  split; [apply lower_all_not_upper |].
  rewrite all_blank_lower, no_adjacent_lower, starts_by_lower.
  unfold Shape.ends_by in *. rewrite rev_lower, starts_by_lower.
  repeat split; auto.
  - apply all_chars_strip. apply all_chars_squeeze; [reflexivity |].
    clear. induction t as [|c t IH]; simpl; [reflexivity |].
    rewrite IH, andb_true_r. unfold Shape.blank_or_ink.
    destruct (Py.is_space c); reflexivity.
  - apply no_adjacent_strip.
    now apply (squeeze_no_adjacent Py.is_space " " t eq_refl false).
Qed.


(** *** Slugging a slug *)

Lemma remove_none (p : ascii -> bool) (s : string) :
  Py.all_chars (fun c => negb (p c)) s = true -> Shape.remove p s = s.
Proof.
  induction s as [|c s IH]; simpl; [reflexivity |].
  intros H. apply andb_true_iff in H. destruct H as [Hc Hs].
  apply negb_true_iff in Hc. now rewrite Hc, IH.
Qed.

Lemma squeeze_none (p : ascii -> bool) (d : ascii) (s : string) :
  Py.all_chars (fun c => negb (p c)) s = true ->
  forall inrun, Shape.squeeze p d inrun s = s.
Proof.
  induction s as [|c s IH]; simpl; [reflexivity |].
  intros H inrun. apply andb_true_iff in H. destruct H as [Hc Hs].
  apply negb_true_iff in Hc. now rewrite Hc, IH.
Qed.

(** Squeezing the runs of one character changes nothing where that
    character never stands twice in a row. *)
Lemma squeeze_single (d : ascii) (s : string) :
  Shape.no_adjacent (Ascii.eqb d) s = true ->
  forall inrun,
    (inrun = true -> Shape.starts_by (Ascii.eqb d) s = false) ->
    Shape.squeeze (Ascii.eqb d) d inrun s = s.
Proof.
  induction s as [|c s IH]; [reflexivity |].
  rewrite no_adjacent_cons. intros H inrun Hrun.
  apply andb_true_iff in H. destruct H as [Hc Hs].
  cbn [Shape.squeeze Shape.starts_by] in *.
  destruct (Ascii.eqb d c) eqn:E.
  - apply Ascii.eqb_eq in E. subst c.
    destruct inrun; [now specialize (Hrun eq_refl) |].
    rewrite (IH Hs true); [reflexivity |]. intros _.
    cbn [andb] in Hc. now apply negb_true_iff in Hc.
  - rewrite (IH Hs false); [reflexivity | discriminate].
Qed.

Lemma lstrip_none (p : ascii -> bool) (s : string) :
  Shape.starts_by p s = false -> Py.lstrip_by p s = s.
Proof. destruct s as [|c s]; simpl; [reflexivity |]. now intros ->. Qed.

Lemma strip_none (p : ascii -> bool) (s : string) :
  Shape.starts_by p s = false -> Shape.ends_by p s = false ->
  Py.strip_by p s = s.
Proof.
  intros Hs He. unfold Py.strip_by.
  rewrite (lstrip_none p s Hs), (lstrip_none p (Py.rev s) He).
  apply rev_involutive.
Qed.

Lemma slug_alphabet_kept (c : ascii) :
  Shape.slug_alphabet c = true ->
  negb (negb (Py.is_word c || Py.is_space c || Ascii.eqb c "-"%char)) = true
  /\ negb (Py.is_space c) = true.
Proof.
  destruct c as [b0 b1 b2 b3 b4 b5 b6 b7].
  destruct b0, b1, b2, b3, b4, b5, b6, b7; intros H;
    first [split; reflexivity | discriminate H].
Qed.

(** X15.  Slugging is idempotent: where unescaping leaves strings of slug
    characters as they are, the slug of a slug is that slug. *)
Theorem title_to_slug_idempotent (title : string) :
  (forall s, Py.all_chars Shape.slug_alphabet s = true -> html_unescape s = s) ->
  title_to_slug (title_to_slug title) = title_to_slug title.
Proof.
  intros Hun.
  destruct (slug_shape title) as (Ha & Hn & Hs & He).
  pose proof (title_to_slug_lower title) as Hlow.
  revert Ha Hn Hs He Hlow. generalize (title_to_slug title). intros g.
  intros Ha Hn Hs He Hlow. unfold title_to_slug.
  destruct g as [|c g']; [reflexivity |]. cbn [Py.truthy negb]. cbv zeta.
  set (g := String c g') in *.
  rewrite (Hun g Ha), Hlow. unfold Re.space, Py.strip_char.
  rewrite (sub_one_remove false _ _ (cls_one false _)).
  rewrite (sub_plus_squeeze false _ _ (cls_one false _)).
  rewrite (sub_plus_squeeze false _ _ (chr_one "-")).
  rewrite remove_none.
  2:{ eapply all_chars_impl; [| exact Ha]. intros x Hx.
      apply (slug_alphabet_kept x Hx). }
  rewrite (squeeze_none Py.is_space).
  2:{ eapply all_chars_impl; [| exact Ha]. intros x Hx.
      apply (slug_alphabet_kept x Hx). }
  rewrite squeeze_single; [| exact Hn | discriminate].
  now apply strip_none.
Qed.

(** *** Rows without an id *)

Lemma for_each_fails {X S : Type} (body : X -> S -> option S) (xs : list X) :
  Exists (fun x => forall acc, body x acc = None) xs ->
  forall acc, for_each body xs acc = None.
Proof.
  induction 1 as [x xs Hx | x xs _ IH]; intros acc; simpl.
  - now rewrite Hx.
  - destruct (body x acc); [apply IH | reflexivity].
Qed.

Lemma some_id_or_none (stage : list row) :
  Forall (fun s => row_item "id" s <> None) stage
  \/ Exists (fun s => row_item "id" s = None) stage.
Proof.
  induction stage as [|s stage [IH | IH]].
  - left. constructor.
  - destruct (row_item "id" s) eqn:E.
    + left. constructor; [congruence | exact IH].
    + right. now constructor.
  - right. now constructor 2.
Qed.


(** *** The id tables *)

Lemma collect_ids_app (a b : list match_result)
      (table : dict json (option string)) :
  collect_ids (a ++ b) table = collect_ids b (collect_ids a table).
Proof. unfold collect_ids. apply fold_left_app. Qed.

Lemma collect_ids_other (rs : list match_result) (id : json)
      (table : dict json (option string)) :
  Forall (fun r => r_id r <> id) rs ->
  dict_get json_eqb id (collect_ids rs table) = dict_get json_eqb id table.
Proof.
  unfold collect_ids. revert table.
  induction rs as [|r rs IH]; intros table H; simpl; [reflexivity |].
  inversion H as [|? ? Hr Hrs]; subst. rewrite (IH _ Hrs).
  apply (dict_get_set_other _ _ _ json_eqb_eq). congruence.
Qed.

Lemma collect_ids_last (pre post : list match_result) (r : match_result)
      (table : dict json (option string)) :
  Forall (fun r' => r_id r' <> r_id r) post ->
  dict_get json_eqb (r_id r) (collect_ids (pre ++ r :: post) table)
  = Some (r_proposal_id r).
Proof.
  intros Hpost. rewrite collect_ids_app.
  change (r :: post) with ([r] ++ post). rewrite collect_ids_app.
  rewrite (collect_ids_other post _ _ Hpost). unfold collect_ids. simpl.
  apply (dict_get_set_same _ _ _ json_eqb_eq).
Qed.

(** X17.  The Snapshot id table is written from the results matched by
    link and then from those matched by title, so an id carries the
    candidate of the last result of that id in this order: a title match
    replaces a link match of the same id, whatever the order of the rows. *)
Theorem snapshot_id_table_last_wins (res : snapshot_results)
        (pre post : list match_result) (r : match_result) :
  sr_matched_by_link res ++ sr_matched_by_title res = pre ++ r :: post ->
  Forall (fun r' => r_id r' <> r_id r) post ->
  dict_get json_eqb (r_id r) (snapshot_id_to_proposal res)
  = Some (r_proposal_id r).
Proof.
  intros Hall Hpost. unfold snapshot_id_to_proposal.
  rewrite <- collect_ids_app, Hall. now apply collect_ids_last.
Qed.

(** X18.  The Tally id table carries, for an id, the candidate of the
    last matched result of that id. *)
Theorem tally_id_table_last_wins (res : tally_results)
        (pre post : list match_result) (r : match_result) :
  tr_matched res = pre ++ r :: post ->
  Forall (fun r' => r_id r' <> r_id r) post ->
  dict_get json_eqb (r_id r) (tally_id_to_proposal res)
  = Some (r_proposal_id r).
Proof.
  intros Hall Hpost. unfold tally_id_to_proposal.
  rewrite Hall. now apply collect_ids_last.
Qed.


(** *** The final counts *)

Lemma snapshot_updated_cases (snapshot_stage : list row) :
  (Exists (fun s => row_item "id" s = None) snapshot_stage
   /\ snapshot_stage_updated snapshot_stage = None)
  \/ (Forall (fun s => row_item "id" s <> None) snapshot_stage
      /\ exists out,
          snapshot_stage_updated snapshot_stage = Some out
          /\ List.length out = List.length snapshot_stage).
Proof.
  destruct (some_id_or_none snapshot_stage) as [H | H]; [right | left].
  - split; [exact H |].
    destruct (match_snapshot_total _ H) as (? & res & _ & Hres & _).
    destruct (updated_rows (snapshot_id_to_proposal res) _ H)
      as (out & Hout & Hrows).
    exists out. unfold snapshot_stage_updated. rewrite Hres. cbn [bind].
    split; [exact Hout | symmetry; exact (Forall2_length Hrows)].
  - split; [exact H |]. unfold snapshot_stage_updated, match_snapshot.
    rewrite for_each_fails; [reflexivity |].
    eapply Exists_impl; [| exact H]. intros s Hid acc.
    unfold snapshot_row. now rewrite Hid.
Qed.

Lemma tally_updated_cases (tally_stage : list row) :
  (Exists (fun t => row_item "id" t = None) tally_stage
   /\ tally_stage_updated tally_stage = None)
  \/ (Forall (fun t => row_item "id" t <> None) tally_stage
      /\ exists out,
          tally_stage_updated tally_stage = Some out
          /\ List.length out = List.length tally_stage).
Proof.
  destruct (some_id_or_none tally_stage) as [H | H]; [right | left].
  - split; [exact H |].
    destruct (match_tally_total _ H) as (? & res & _ & Hres & _).
    destruct (updated_rows (tally_id_to_proposal res) _ H)
      as (out & Hout & Hrows).
    exists out. unfold tally_stage_updated. rewrite Hres. cbn [bind].
    split; [exact Hout | symmetry; exact (Forall2_length Hrows)].
  - split; [exact H |]. unfold tally_stage_updated, match_tally.
    rewrite for_each_fails; [reflexivity |].
    eapply Exists_impl; [| exact H]. intros t Hid acc.
    unfold tally_row. now rewrite Hid.
Qed.

Lemma some_id_not_none (stage : list row) :
  Forall (fun s => row_item "id" s <> None) stage ->
  Exists (fun s => row_item "id" s = None) stage -> False.
Proof.
  intros Hall Hex. apply Exists_exists in Hex. destruct Hex as (s & Hin & Hs).
  rewrite Forall_forall in Hall. exact (Hall s Hin Hs).
Qed.

Lemma with_proposal_le (rows : list row) :
  (with_proposal rows <= List.length rows)%nat.
Proof.
  unfold with_proposal. induction rows as [|t rows IH]; simpl; [lia |].
  destruct (json_truthy (row_get "proposal_id" t)); simpl; lia.
Qed.

Lemma percent_none (n total : nat) :
  percent n total = None <-> total = 0%nat.
Proof.
  unfold percent. destruct (Nat.eqb_spec total 0); split; intros H;
    congruence.
Qed.

Lemma percent_bounds (n total : nat) (share : Q) :
  percent n total = Some share -> (n <= total)%nat ->
  (0 <= share /\ share <= 100)%Q.
Proof.
  unfold percent. destruct (Nat.eqb_spec total 0) as [| Hpos]; [discriminate |].
  intros [= <-] Hle.
  assert (Ht : (0 < inject_Z (Z.of_nat total))%Q).
  { unfold Qlt, inject_Z. simpl. lia. }
  split.
  - apply Qle_shift_div_l; [exact Ht |].
    rewrite Qmult_0_l. unfold Qle, inject_Z. cbn [Qnum Qden]. lia.
  - apply Qle_shift_div_r; [exact Ht |].
    unfold Qle, inject_Z, Qmult. cbn [Qnum Qden]. lia.
Qed.

(** X20.  The lines that report the final counts divide by the number of
    input rows: they fail exactly when a table is empty or a row has no
    [id].  When they succeed each count is at most the number of input
    rows and each share lies between 0 and 100. *)
Theorem final_counts_edge (snapshot_stage tally_stage : list row) :
  (final_matched_counts snapshot_stage tally_stage = None
   <-> snapshot_stage = [] \/ tally_stage = []
       \/ Exists (fun s => row_item "id" s = None) snapshot_stage
       \/ Exists (fun t => row_item "id" t = None) tally_stage)
  /\ (forall tally_n tally_share snapshot_n snapshot_share,
         final_matched_counts snapshot_stage tally_stage
         = Some ((tally_n, tally_share), (snapshot_n, snapshot_share)) ->
         (tally_n <= List.length tally_stage)%nat
         /\ (snapshot_n <= List.length snapshot_stage)%nat
         /\ (0 <= tally_share /\ tally_share <= 100)%Q
         /\ (0 <= snapshot_share /\ snapshot_share <= 100)%Q).
Proof.
  unfold final_matched_counts.
  destruct (snapshot_updated_cases snapshot_stage)
    as [[Hex Hnone] | (Hall & so & Hso & Hlen)].
  { rewrite Hnone. cbn [bind].
    split; [split; [auto | reflexivity] | discriminate]. }
  rewrite Hso. cbn [bind].
  destruct (tally_updated_cases tally_stage)
    as [[Hex Hnone] | (Hall' & to & Hto & Hlen')].
  { rewrite Hnone. cbn [bind].
    split; [split; [auto | reflexivity] | discriminate]. }
  rewrite Hto. cbn [bind]. cbv zeta.
  pose proof (with_proposal_le to) as Hto_le. rewrite Hlen' in Hto_le.
  pose proof (with_proposal_le so) as Hso_le. rewrite Hlen in Hso_le.
  destruct (percent (with_proposal to) (List.length tally_stage))
    as [tp|] eqn:Et; cbn [bind].
  - destruct (percent (with_proposal so) (List.length snapshot_stage))
      as [sp|] eqn:Es; cbn [bind].
    + split.
      * split; [discriminate |].
        intros [-> | [-> | [H | H]]]; try discriminate.
        -- destruct (some_id_not_none _ Hall H).
        -- destruct (some_id_not_none _ Hall' H).
      * intros tn ts sn ss [= <- <- <- <-].
        split; [exact Hto_le |]. split; [exact Hso_le |].
        split; [exact (percent_bounds _ _ _ Et Hto_le)
               | exact (percent_bounds _ _ _ Es Hso_le)].
    + apply percent_none in Es. apply length_zero_iff_nil in Es.
      split; [split; [auto | reflexivity] | discriminate].
  - apply percent_none in Et. apply length_zero_iff_nil in Et.
    split; [split; [auto | reflexivity] | discriminate].
Qed.


(** *** What a result keeps of its row *)

Lemma snapshot_decide_keeps (tm : option string * option string * Q)
      (lm : option string * Q * option string) (r0 r : match_result) :
  snapshot_decide tm lm r0 = Some r ->
  r_id r = r_id r0 /\ r_title r = r_title r0 /\ r_author r = r_author r0
  /\ r_forum_links r = r_forum_links r0 /\ r_category r = r_category r0
  /\ (r_method r = r_method r0 \/ r_method r = Some "title_fuzzy"
      \/ exists rest, r_method r = Some ("forum_link_slug (" ++ rest)%string).
Proof.
  destruct tm as [[ti tt] ts], lm as [[li ls] [slug|]];
    unfold snapshot_decide, link_method; cbv zeta; cbn [bind];
    repeat match goal with
           | |- context [if ?c then _ else _] => destruct c
           end;
    intros [= <-]; row_simpl; repeat (split; [reflexivity |]);
    first [ left; reflexivity | right; left; reflexivity
          | right; right; eexists; reflexivity ].
Qed.

Lemma snapshot_categorize_keeps (r0 : match_result) (b : snapshot_bucket)
      (r : match_result) :
  snapshot_categorize r0 = Some (b, r) ->
  r_id r = r_id r0 /\ r_title r = r_title r0 /\ r_author r = r_author r0
  /\ r_forum_links r = r_forum_links r0 /\ r_method r = r_method r0
  /\ snapshot_bucket_eqb b elections = false
  /\ snapshot_bucket_eqb b stip_ltipp = false
  /\ r_category r
     = match b with
       | low_confidence => "low_confidence"
       | _ => r_category r0
       end.
Proof.
  unfold snapshot_categorize.
  destruct (Py.truthy_opt (r_proposal_id r0));
    [destruct (r_score r0) as [sc|]; cbn [bind]; [| discriminate];
     destruct (Py.ge sc 70);
     [destruct (Py.contains "forum_link" (str_of_method (r_method r0))) |] |];
    intros [= <- <-]; row_simpl; repeat split.
Qed.

(** X21.  A Snapshot result keeps the id, the title and the author of its
    row, and its bucket fixes its category.  The links of the body are
    recorded in it unless the row is an election or is resolved by the
    override table; then it records no link, whatever the body holds. *)
Theorem snapshot_result_fields (s : row) (b : snapshot_bucket)
        (r : match_result) :
  snapshot_row s = Some (b, r) ->
  row_item "id" s = Some (r_id r)
  /\ r_title r = row_text "title" s
  /\ r_author r = row_get "author_name" s
  /\ r_category r
     = match b with
       | stip_ltipp => "stip_ltipp_protocol"
       | elections => "election"
       | low_confidence => "low_confidence"
       | _ => "standard"
       end
  /\ r_forum_links r
     = Some (if snapshot_bucket_eqb b elections
                || String.eqb (str_of_method (r_method r)) "manual_override"
             then []
             else extract_forum_links (row_text "body" s)).
Proof.
  unfold snapshot_row.
  destruct (row_item "id" s) as [id|]; cbn [bind]; [| discriminate].
  destruct (is_stip_ltipp_protocol (row_text "title" s)).
  { intros [= <- <-]. repeat split. }
  destruct (is_election (row_text "title" s)).
  { intros [= <- <-]. repeat split. }
  destruct (override_lookup MANUAL_OVERRIDES_SNAPSHOT (row_text "title" s))
    as [pid|] eqn:Hov.
  { apply (override_lookup_truthy _ _ _ overrides_snapshot_truthy) in Hov.
    row_simpl. rewrite Hov. intros [= <- <-]. repeat split. }
  row_simpl.
  destruct (find_best_title_match (row_text "title" s) 55) as [tm|];
    cbn [bind]; [| discriminate].
  match goal with
  | |- context [snapshot_decide tm ?lm ?r0] =>
      destruct (snapshot_decide tm lm r0) as [r1|] eqn:Hdec
  end; cbn [bind]; [| discriminate].
  intros Hcat.
  apply snapshot_decide_keeps in Hdec.
  apply snapshot_categorize_keeps in Hcat.
  destruct Hdec as (Hid & Ht & Ha & Hl & Hc & Hm).
  destruct Hcat as (Hid' & Ht' & Ha' & Hl' & Hm' & Hb & Hb' & Hc').
  rewrite Hid', Ht', Ha', Hl', Hm', Hid, Ht, Ha, Hl, Hc', Hb.
  row_simpl. cbn [orb].
  split; [reflexivity |]. split; [reflexivity |]. split; [reflexivity |].
  split.
  - rewrite Hc. row_simpl.
    destruct b; try reflexivity; [discriminate Hb' | discriminate Hb].
  - destruct Hm as [-> | [-> | (rest & ->)]]; reflexivity.
Qed.

(** X22.  A Tally result keeps the id, the title and the author of its
    row and has no list of links; its method is one of [manual_override],
    [forum_link_slug] and [title_fuzzy], or none, and it has a method
    exactly when it has a candidate. *)
Theorem tally_result_fields (t : row) (b : tally_bucket) (r : match_result) :
  tally_row t = Some (b, r) ->
  row_item "id" t = Some (r_id r)
  /\ r_title r = row_text "title" t
  /\ r_author r = row_get "author_name" t
  /\ r_forum_links r = None
  /\ (r_method r = None /\ r_proposal_id r = None
      \/ r_proposal_id r <> None
         /\ (r_method r = Some "manual_override"
             \/ r_method r = Some "forum_link_slug"
             \/ r_method r = Some "title_fuzzy")).
Proof.
  unfold tally_row, tally_categorize.
  destruct (row_item "id" t) as [id|]; cbn [bind]; [| discriminate].
  destruct (tally_garbage (row_text "title" t)).
  { intros [= <- <-]. repeat split. now left. }
  destruct (override_lookup MANUAL_OVERRIDES_TALLY (row_text "title" t))
    as [pid|] eqn:Hov.
  { apply (override_lookup_truthy _ _ _ overrides_tally_truthy) in Hov.
    repeat (row_simpl; rewrite ?Hov).
    destruct (Py.ge 100 75); intros [= <- <-]; row_simpl;
      repeat (split; [reflexivity |]);
      (right; split; [discriminate | auto]). }
  row_simpl.
  destruct (tally_first_link (extract_forum_links (row_text "description" t)))
    as [[pi sc]|] eqn:Hl.
  { apply tally_link_facts in Hl. destruct Hl as (Hp & _).
    destruct pi as [[|c pi]|]; try discriminate Hp. row_simpl.
    destruct (Py.ge sc 75); intros [= <- <-]; row_simpl;
      repeat (split; [reflexivity |]);
      (right; split; [discriminate | auto]). }
  row_simpl.
  destruct (find_best_title_match (row_text "title" t) 60)
    as [[[[[|c ti]|] tt] ts]|]; row_simpl; try discriminate;
    try destruct (Py.ge ts 75); intros [= <- <-]; row_simpl;
    repeat (split; [reflexivity |]);
    first [ left; split; reflexivity
          | right; split; [discriminate | auto] ].
Qed.


(** *** Shapes of slugs and normalised titles *)

(** X12.  When the unescaped title is ASCII, the slug made from it
    consists of lower-case letters, digits, underscores and hyphens only;
    it has no two hyphens in a row and neither starts nor ends with a
    hyphen. *)
Theorem title_to_slug_shape (title : string) :
  Py.all_chars Shape.is_ascii (html_unescape title) = true ->
  Py.all_chars Shape.slug_alphabet (title_to_slug title) = true
  /\ Shape.no_adjacent Shape.is_hyphen (title_to_slug title) = true
  /\ Shape.starts_by Shape.is_hyphen (title_to_slug title) = false
  /\ Shape.ends_by Shape.is_hyphen (title_to_slug title) = false.
Proof. intros _. apply slug_shape. Qed.

(** X13.  When the unescaped title is ASCII, the normalised title has no
    upper-case letter, its only white space is the blank, no two blanks
    stand side by side, and it neither starts nor ends with a blank. *)
Theorem normalize_title_shape (title : string) :
  Py.all_chars Shape.is_ascii (html_unescape title) = true ->
  Py.all_chars Py.not_upper (normalize_title title) = true
  /\ Py.all_chars Shape.blank_or_ink (normalize_title title) = true
  /\ Shape.no_adjacent Py.is_space (normalize_title title) = true
  /\ Shape.starts_by Py.is_space (normalize_title title) = false
  /\ Shape.ends_by Py.is_space (normalize_title title) = false.
Proof. intros _. apply normalized_shape. Qed.

(** *** Election titles *)

Lemma election_not_garbage (title : string) :
  is_election title = true -> tally_garbage title = false.
Proof.
  intros Hel. destruct (tally_garbage title) eqn:Hg; [| reflexivity].
  apply tally_garbage_iff in Hg.
  destruct Hg as [-> | [<- | [<- | [<- | []]]]]; vm_compute in Hel;
    discriminate Hel.
Qed.

(** C5 (as amended).  A Snapshot row whose title matches an election
    pattern and no protocol-grant pattern is put in the bucket
    [elections] with category [election] and without candidate, score or
    method, whatever the override table and the body hold.  Tally rows
    are never classified as elections: a Tally row with an election title
    is not garbage and goes through the override table, then its links,
    then the title matcher, like any other row. *)
Theorem election_is_terminal (s : row) (id : json) :
  row_item "id" s = Some id ->
  is_election (row_text "title" s) = true ->
  is_stip_ltipp_protocol (row_text "title" s) = false ->
  (exists r,
      snapshot_row s = Some (elections, r)
      /\ r_id r = id
      /\ r_proposal_id r = None /\ r_score r = None /\ r_method r = None
      /\ r_category r = "election")
  /\ (forall t b r, tally_row t = Some (b, r) -> r_category r <> "election")
  /\ (forall t tally_id,
         row_item "id" t = Some tally_id ->
         is_election (row_text "title" t) = true ->
         exists b r,
           tally_row t = Some (b, r)
           /\ r_id r = tally_id
           /\ match override_lookup MANUAL_OVERRIDES_TALLY
                                    (row_text "title" t) with
              | Some proposal_id =>
                  b = t_matched
                  /\ r_proposal_id r = Some proposal_id
                  /\ r_score r = Some 100
                  /\ r_method r = Some "manual_override"
              | None =>
                  match tally_first_link
                          (extract_forum_links (row_text "description" t)) with
                  | Some (p_id, score) =>
                      r_proposal_id r = p_id /\ p_id <> None
                      /\ r_score r = Some score
                      /\ r_method r = Some "forum_link_slug"
                  | None =>
                      exists tm_id tm_title tm_score,
                        find_best_title_match (row_text "title" t) 60
                        = Some (tm_id, tm_title, tm_score)
                        /\ if Py.truthy_opt tm_id
                           then r_proposal_id r = tm_id
                                /\ r_score r = Some tm_score
                                /\ r_method r = Some "title_fuzzy"
                           else r_proposal_id r = None /\ r_score r = None
                                /\ r_method r = None /\ b = t_unmatched
                  end
              end).
Proof.
  intros Hid Hel Hstip. split; [| split].
  - unfold snapshot_row. rewrite Hid. cbn [bind]. rewrite Hstip, Hel.
    eexists. split; [reflexivity |]. repeat split.
  - intros t b r Hrow.
    destruct (tally_row_category t b r Hrow) as [H | [H | H]];
      rewrite H; discriminate.
  - intros t tid Htid Helt.
    pose proof (election_not_garbage _ Helt) as Hg.
    unfold tally_row, tally_categorize. rewrite Htid. cbn [bind]. rewrite Hg.
    destruct (override_lookup MANUAL_OVERRIDES_TALLY (row_text "title" t))
      as [pid|] eqn:Hov.
    { apply (override_lookup_truthy _ _ _ overrides_tally_truthy) in Hov.
      repeat (row_simpl; rewrite ?Hov).
      change (Py.ge 100 75) with true. cbv iota.
      do 2 eexists. split; [reflexivity |]. repeat split. }
    row_simpl.
    destruct (tally_first_link
                (extract_forum_links (row_text "description" t)))
      as [[pi sc]|] eqn:Hl.
    { apply tally_first_link_hit in Hl. unfold tally_hit in Hl.
      cbn [fst snd] in Hl. apply andb_true_iff in Hl. destruct Hl as [Hp _].
      destruct pi as [[|c pi]|]; try discriminate Hp. row_simpl.
      destruct (Py.ge sc 75); do 2 eexists; (split; [reflexivity |]);
        row_simpl; repeat split; discriminate. }
    row_simpl.
    destruct (find_best_title_match_total (row_text "title" t) 60)
      as (ti & tt & ts & Htm & _); [reflexivity |].
    rewrite Htm. row_simpl.
    destruct ti as [[|c ti]|]; row_simpl;
      try destruct (Py.ge ts 75);
      do 2 eexists; (split; [reflexivity |]); (split; [reflexivity |]);
      match goal with
      | H : _ = Some (?ti', _, _) |- _ => exists ti', tt, ts
      end; (split; [reflexivity |]); row_simpl; repeat split.
Qed.

(** *** Override results in their bucket *)

Lemma snapshot_bucket_eqb_eq (a b : snapshot_bucket) :
  snapshot_bucket_eqb a b = true -> a = b.
Proof. destruct a, b; simpl; intros H; first [reflexivity | discriminate H]. Qed.

(** Only the override branch of the Snapshot loop writes the method
    [manual_override], and it sends its result to [matched_by_title]. *)
Lemma override_result_bucket (s : row) (b : snapshot_bucket)
      (r : match_result) :
  snapshot_row s = Some (b, r) ->
  r_method r = Some "manual_override" ->
  b = matched_by_title.
Proof.
  unfold snapshot_row.
  destruct (row_item "id" s) as [id|]; cbn [bind]; [| discriminate].
  destruct (is_stip_ltipp_protocol (row_text "title" s)).
  { intros [= <- <-]. discriminate. }
  destruct (is_election (row_text "title" s)).
  { intros [= <- <-]. discriminate. }
  destruct (override_lookup MANUAL_OVERRIDES_SNAPSHOT (row_text "title" s))
    as [pid|] eqn:Hov.
  { apply (override_lookup_truthy _ _ _ overrides_snapshot_truthy) in Hov.
    row_simpl. rewrite Hov. now intros [= <- <-]. }
  row_simpl.
  destruct (find_best_title_match (row_text "title" s) 55) as [tm|];
    cbn [bind]; [| discriminate].
  match goal with
  | |- context [snapshot_decide tm ?lm ?r0] =>
      destruct (snapshot_decide tm lm r0) as [r1|] eqn:Hdec
  end; cbn [bind]; [| discriminate].
  intros Hcat Hm.
  apply snapshot_decide_keeps in Hdec.
  apply snapshot_categorize_keeps in Hcat.
  destruct Hdec as (_ & _ & _ & _ & _ & Hm1).
  destruct Hcat as (_ & _ & _ & _ & Hm' & _).
  rewrite Hm' in Hm. exfalso.
  destruct Hm1 as [H | [H | (rest & H)]]; rewrite H in Hm; discriminate Hm.
Qed.

(** C10.  A Snapshot row resolved by a manual override (no
    protocol-grant or election title, and a key of the override table in
    its title) gets the override's proposal with method
    [manual_override] and score 100; in the results of the run over a
    table that holds the row, this result is in the bucket
    [matched_by_title] and in no other bucket. *)
Theorem manual_override_bucket (snapshot_stage : list row) (s : row)
        (id : json) (proposal_id : string) :
  Forall (fun s => row_item "id" s <> None) snapshot_stage ->
  In s snapshot_stage ->
  row_item "id" s = Some id ->
  is_stip_ltipp_protocol (row_text "title" s) = false ->
  is_election (row_text "title" s) = false ->
  override_lookup MANUAL_OVERRIDES_SNAPSHOT (row_text "title" s)
  = Some proposal_id ->
  exists res r,
    match_snapshot snapshot_stage = Some res
    /\ snapshot_row s = Some (matched_by_title, r)
    /\ r_id r = id
    /\ r_proposal_id r = Some proposal_id
    /\ r_score r = Some 100
    /\ r_method r = Some "manual_override"
    /\ r_category r = "standard"
    /\ In r (sr_matched_by_title res)
    /\ (forall b, b <> matched_by_title -> ~ In r (snapshot_get b res)).
Proof.
  intros Hids Hin Hid Hstip Hel Hov.
  destruct (match_snapshot_total _ Hids)
    as (brs & res & Hbrs & Hres & _ & Hget & _).
  apply map_m_inv in Hbrs.
  assert (Hrow : exists r,
             snapshot_row s = Some (matched_by_title, r)
             /\ r_id r = id
             /\ r_proposal_id r = Some proposal_id
             /\ r_score r = Some 100
             /\ r_method r = Some "manual_override"
             /\ r_category r = "standard").
  { unfold snapshot_row. rewrite Hid. cbn [bind]. rewrite Hstip, Hel, Hov.
    apply (override_lookup_truthy _ _ _ overrides_snapshot_truthy) in Hov.
    row_simpl. rewrite Hov.
    eexists. split; [reflexivity |]. repeat split. }
  destruct Hrow as (r & Hrow & Hrid & Hp & Hsc & Hm & Hc).
  exists res, r. repeat (split; [assumption |]). split.
  - change (sr_matched_by_title res) with (snapshot_get matched_by_title res).
    rewrite Hget. apply In_sent_to; [reflexivity |].
    destruct (Forall2_In_l _ _ _ s Hbrs Hin) as (br & Hbr & Hs).
    rewrite Hrow in Hs. injection Hs as <-. exact Hbr.
  - intros b Hb Hinb. rewrite Hget in Hinb.
    apply sent_to_In in Hinb. destruct Hinb as (b' & Hinb & Heq).
    apply snapshot_bucket_eqb_eq in Heq. subst b'.
    destruct (Forall2_In_r _ _ _ (b, r) Hbrs Hinb) as (s' & _ & Hs').
    apply Hb. exact (override_result_bucket s' b r Hs' Hm).
Qed.

(** *** Rows without an id *)

(** X16.  A row without the key [id] stops the run with a [KeyError]: the
    run of the two loops and the two copies fails exactly when a row of
    the Snapshot table or of the Tally table has no [id]; a row of either
    table is enough to leave both updated tables unbuilt.  A run that
    does not fail returns the results of the two loops and one updated
    row per input row. *)
Theorem missing_id_fails (snapshot_stage tally_stage : list row) :
  (matching_run snapshot_stage tally_stage = None
   <-> Exists (fun s => row_item "id" s = None) snapshot_stage
       \/ Exists (fun t => row_item "id" t = None) tally_stage)
  /\ (forall snapshot_res tally_res snapshot_out tally_out,
         matching_run snapshot_stage tally_stage
         = Some (snapshot_res, tally_res, snapshot_out, tally_out) ->
         match_snapshot snapshot_stage = Some snapshot_res
         /\ match_tally tally_stage = Some tally_res
         /\ List.length snapshot_out = List.length snapshot_stage
         /\ List.length tally_out = List.length tally_stage).
Proof.
  unfold matching_run.
  destruct (some_id_or_none snapshot_stage) as [Hs | Hs].
  2:{ unfold match_snapshot. rewrite for_each_fails.
      - cbn [bind]. split; [split; [auto | reflexivity] | discriminate].
      - eapply Exists_impl; [| exact Hs]. intros s Hid acc.
        unfold snapshot_row. now rewrite Hid. }
  destruct (match_snapshot_total _ Hs) as (? & sres & _ & Hsres & _).
  rewrite Hsres. cbn [bind].
  destruct (some_id_or_none tally_stage) as [Ht | Ht].
  2:{ unfold match_tally. rewrite for_each_fails.
      - cbn [bind]. split; [split; [auto | reflexivity] | discriminate].
      - eapply Exists_impl; [| exact Ht]. intros t Hid acc.
        unfold tally_row. now rewrite Hid. }
  destruct (match_tally_total _ Ht) as (? & tres & _ & Htres & _).
  rewrite Htres. cbn [bind].
  destruct (updated_rows (snapshot_id_to_proposal sres) _ Hs)
    as (sout & Hsout & Hsrows).
  destruct (updated_rows (tally_id_to_proposal tres) _ Ht)
    as (tout & Htout & Htrows).
  rewrite Hsout. cbn [bind]. rewrite Htout. cbn [bind].
  split.
  - split; [discriminate |].
    intros [H | H]; [destruct (some_id_not_none _ Hs H)
                    | destruct (some_id_not_none _ Ht H)].
  - intros ? ? ? ? [= <- <- <- <-].
    split; [reflexivity |]. split; [reflexivity |].
    split; symmetry; [exact (Forall2_length Hsrows)
                     | exact (Forall2_length Htrows)].
Qed.

End Engine.

(* ================================================================= *)
(** ** Sample runs *)

(** C9 (counterexample to the claim as stated).  For the normalised title
    [ab] against the entry [abcdef] the discounted substring score (95)
    exceeds the plain ratio (50), and the test [combined_score >= ratio],
    which the claim calls false in that case, is true. *)
Lemma combined_score_not_below_ratio :
  let p := {| p_id := "P1"; p_title := "abcdef" |} in
  let c := combined_score (fun s => s) Fuzz.ratio Fuzz.partial_ratio
                          Fuzz.token_set_ratio Qmult "ab" p in
  Py.gt (Qmult (Fuzz.partial_ratio "ab" "abcdef") (95 # 100))
        (Fuzz.ratio "ab" "abcdef") = true
  /\ Py.ge c (Fuzz.ratio "ab" "abcdef") = true.
Proof. vm_compute. split; reflexivity. Qed.


(** C8 (counterexample to the claim as stated).  With a catalogue entry
    titled [!!!] the empty slug is a key of the index, and the query for
    it answers [(None, 0)], not the entry's id with score 100. *)
Lemma empty_slug_key_not_resolved :
  dict_get String.eqb EmptyString
           (proposal_slugs Sample.unescape Sample.punctuation) = Some "P1"
  /\ find_proposal_by_slug Sample.unescape Fuzz.ratio Sample.punctuation
                           EmptyString = (None, 0).
Proof. split; reflexivity. Qed.

(** C8 (witness).  The query [alpha-plans] is no key of the sample index;
    the scan answers the entry of [alpha-plan], whose ratio 2000/21 is the
    best of all keys. *)
Lemma find_proposal_by_slug_sample :
  "alpha-plans" <> EmptyString
  /\ find_proposal_by_slug Sample.unescape Fuzz.ratio Sample.catalogue
                           "alpha-plans" = (Some "P-alpha", 2000 # 21)
  /\ Forall (fun item => Fuzz.ratio "alpha-plans" (fst item) <= 2000 # 21)%Q
            (proposal_slugs Sample.unescape Sample.catalogue).
Proof.
  assert (Hne : "alpha-plans" <> EmptyString) by discriminate.
  split; [exact Hne |]. split; [reflexivity |].
  destruct (find_proposal_by_slug_spec Sample.unescape Fuzz.ratio
              Sample.catalogue "alpha-plans" Hne) as (_ & _ & Hscan).
  destruct (Hscan eq_refl) as (Hup & _).
  exact Hup.
Defined.


(** The engine over the sample catalogue, with the stand-in metrics and
    the exact product. *)
Local Abbreviation run_snapshot_row :=
  (snapshot_row Sample.unescape Fuzz.ratio Fuzz.partial_ratio
                Fuzz.token_set_ratio Qmult Sample.catalogue).
Local Abbreviation run_tally_row :=
  (tally_row Sample.unescape Fuzz.ratio Fuzz.partial_ratio
             Fuzz.token_set_ratio Qmult Sample.catalogue).
Local Abbreviation run_title_match :=
  (find_best_title_match Sample.unescape Fuzz.ratio Fuzz.partial_ratio
                         Fuzz.token_set_ratio Qmult Sample.catalogue).
Local Abbreviation run_resolve :=
  (find_proposal_by_slug Sample.unescape Fuzz.ratio Sample.catalogue).

Lemma sample_ids_not_empty :
  Forall (fun p => p_id p <> EmptyString) Sample.catalogue.
Proof. repeat constructor; discriminate. Qed.

Lemma sample_snapshot_ids :
  Forall (fun s => row_item "id" s <> None) Sample.snapshot_stage.
Proof. repeat constructor; discriminate. Qed.

Lemma sample_tally_ids :
  Forall (fun t => row_item "id" t <> None) Sample.tally_stage.
Proof. repeat constructor; discriminate. Qed.

(** C1 (counterexample to the claim as stated).  The Tally row titled
    [Beta Plan] has a title match (the entry [P-beta], score 100) and its
    description links to [alpha-plan] (the entry [P-alpha], score 100).
    The claimed order takes the title match; the loop takes the link. *)
Lemma tally_link_beats_title :
  run_title_match "Beta Plan" 60 = Some (Some "P-beta", Some "Beta Plan", 1800 # 18)
  /\ map (fun l : link => run_resolve (fst l))
         (extract_forum_links (row_text "description" Sample.t_conflict))
     = [(Some "P-alpha", 100)]
  /\ tally_order_claimed (Some "P-beta", 1800 # 18) (Some "P-alpha", 100)
     = use_title
  /\ option_map (fun br => (r_proposal_id (snd br), r_method (snd br)))
                (run_tally_row Sample.t_conflict)
     = Some (Some "P-alpha", Some "forum_link_slug").
Proof. repeat split; reflexivity. Qed.

(** C1 (witness).  The row [t_conflict] reaches the heuristic step and
    gets the candidate of its link. *)
Lemma tally_precedence_sample :
  Forall (fun p => p_id p <> EmptyString) Sample.catalogue
  /\ row_item "id" Sample.t_conflict = Some (JStr "t1")
  /\ tally_garbage (row_text "title" Sample.t_conflict) = false
  /\ override_lookup MANUAL_OVERRIDES_TALLY (row_text "title" Sample.t_conflict)
     = None
  /\ exists b r,
      run_tally_row Sample.t_conflict = Some (b, r)
      /\ r_proposal_id r = Some "P-alpha"
      /\ r_method r = Some "forum_link_slug".
Proof.
  split; [exact sample_ids_not_empty |]. repeat (split; [reflexivity |]).
  destruct (tally_precedence Sample.unescape Fuzz.ratio Fuzz.partial_ratio
              Fuzz.token_set_ratio Qmult Sample.catalogue Sample.t_conflict
              (JStr "t1") sample_ids_not_empty eq_refl eq_refl eq_refl)
    as (ti & tt & ts & b & r & _ & Hrow & Hsel).
  exists b, r. split; [exact Hrow |].
  vm_compute in Hsel.
  destruct Hsel as (Hp & _ & _ & Hm). split; [exact Hp | exact Hm].
Defined.

(** C2 (counterexample to the claim as stated).  In the Tally loop the
    generic link [short-term-incentive-program], which the Snapshot loop
    skips, provides the candidate of the row [t_generic]; and of the two
    links of [t_two_links] the first (score 2000/21) is kept although the
    second scores 100, the link the Snapshot strategy keeps. *)
Lemma tally_links_not_filtered_nor_ranked :
  generic_link "short-term-incentive-program" = true
  /\ option_map (fun br => (r_proposal_id (snd br), r_method (snd br)))
                (run_tally_row Sample.t_generic)
     = Some (Some "P-stip", Some "forum_link_slug")
  /\ map (fun l : link => run_resolve (fst l))
         (extract_forum_links (row_text "description" Sample.t_two_links))
     = [(Some "P-alpha", 2000 # 21); (Some "P-beta", 100)]
  /\ option_map (fun br => (r_proposal_id (snd br), r_score (snd br)))
                (run_tally_row Sample.t_two_links)
     = Some (Some "P-alpha", Some (2000 # 21))
  /\ snapshot_best_link Sample.unescape Fuzz.ratio Sample.catalogue
       (extract_forum_links (row_text "description" Sample.t_two_links))
     = (Some "P-beta", 100, Some "beta-plan").
Proof. repeat split; reflexivity. Qed.

(** C3 (witness).  The Snapshot row [s_link] reaches the selection step:
    its title matches nothing at 55 and its link resolves with score 100,
    so the link match is used. *)
Lemma snapshot_selection_sample :
  Forall (fun p => p_id p <> EmptyString) Sample.catalogue
  /\ row_item "id" Sample.s_link = Some (JStr "s5")
  /\ is_stip_ltipp_protocol (row_text "title" Sample.s_link) = false
  /\ is_election (row_text "title" Sample.s_link) = false
  /\ override_lookup MANUAL_OVERRIDES_SNAPSHOT (row_text "title" Sample.s_link)
     = None
  /\ exists b r,
      run_snapshot_row Sample.s_link = Some (b, r)
      /\ r_proposal_id r = Some "P-alpha"
      /\ r_score r = Some 100.
Proof.
  split; [exact sample_ids_not_empty |]. repeat (split; [reflexivity |]).
  destruct (snapshot_selection_order Sample.unescape Fuzz.ratio
              Fuzz.partial_ratio Fuzz.token_set_ratio Qmult Sample.catalogue
              Sample.s_link (JStr "s5") sample_ids_not_empty
              eq_refl eq_refl eq_refl eq_refl)
    as (ti & tt & ts & b & r & Htm & Hrow & Hsel).
  exists b, r. split; [exact Hrow |].
  vm_compute in Htm. injection Htm as <- <- <-.
  vm_compute in Hsel.
  destruct Hsel as (Hp & _ & Hs & _). split; [exact Hp | exact Hs].
Defined.

(** C4 (witness).  Both sample tables have an id in every row; each loop
    fills its buckets with one result per row. *)
Lemma one_result_per_row_sample :
  Forall (fun s => row_item "id" s <> None) Sample.snapshot_stage
  /\ Forall (fun t => row_item "id" t <> None) Sample.tally_stage
  /\ (exists res,
         match_snapshot Sample.unescape Fuzz.ratio Fuzz.partial_ratio
                        Fuzz.token_set_ratio Qmult Sample.catalogue
                        Sample.snapshot_stage = Some res
         /\ List.length (snapshot_all res) = 7%nat
         /\ Forall candidate_iff_score (snapshot_all res))
  /\ (exists res,
         match_tally Sample.unescape Fuzz.ratio Fuzz.partial_ratio
                     Fuzz.token_set_ratio Qmult Sample.catalogue
                     Sample.tally_stage = Some res
         /\ List.length (tally_all res) = 7%nat
         /\ Forall candidate_iff_score (tally_all res)).
Proof.
  split; [exact sample_snapshot_ids |]. split; [exact sample_tally_ids |].
  destruct (one_result_per_row Sample.unescape Fuzz.ratio Fuzz.partial_ratio
              Fuzz.token_set_ratio Qmult Sample.catalogue
              Sample.snapshot_stage Sample.tally_stage
              sample_snapshot_ids sample_tally_ids)
    as [(brs & res & Hres & _ & _ & Hlen & Hinv)
        (brs' & res' & Hres' & _ & _ & Hlen' & Hinv')].
  split; [exists res | exists res']; auto.
Defined.


(** C5 (counterexample to the claim as stated).  The Tally row
    [t_election] has an election title and is resolved by the override
    table into the bucket [matched]; the Snapshot row [s_stip_election]
    has an election title and goes to the protocol-grant bucket. *)
Lemma election_title_not_terminal :
  is_election (row_text "title" Sample.t_election) = true
  /\ option_map (fun br => (fst br, r_proposal_id (snd br),
                            r_category (snd br)))
                (run_tally_row Sample.t_election)
     = Some (t_matched, Some "8b760c14-6f2b-4069-b326-23653e5c20f9",
             "standard")
  /\ is_election (row_text "title" Sample.s_stip_election) = true
  /\ option_map (fun br => (fst br, r_category (snd br)))
                (run_snapshot_row Sample.s_stip_election)
     = Some (stip_ltipp, "stip_ltipp_protocol").
Proof. repeat split; reflexivity. Qed.


(** C6 (counterexample to the claim as stated).  In the updated Snapshot
    table the unresolved row [s_stale] still carries the [proposal_id] it
    came with, and the unresolved row [s_null] has no [proposal_id] field
    at all. *)
Lemma unresolved_rows_copied_unchanged :
  option_map (fun br => (fst br, r_proposal_id (snd br)))
             (run_snapshot_row Sample.s_stale) = Some (elections, None)
  /\ option_map (fun br => (fst br, r_proposal_id (snd br)))
                (run_snapshot_row Sample.s_null) = Some (unmatched, None)
  /\ option_map
       (fun out => (row_item "proposal_id" (nth 6 out []),
                    row_item "proposal_id" (nth 5 out [])))
       (snapshot_stage_updated Sample.unescape Fuzz.ratio Fuzz.partial_ratio
          Fuzz.token_set_ratio Qmult Sample.catalogue Sample.snapshot_stage)
     = Some (Some (JStr "stale"), None).
Proof. repeat split; reflexivity. Qed.

(** C6 (witness).  Both sample tables are updated row by row. *)
Lemma stage_updated_copy_sample :
  Forall (fun s => row_item "id" s <> None) Sample.snapshot_stage
  /\ Forall (fun t => row_item "id" t <> None) Sample.tally_stage
  /\ (exists out,
         snapshot_stage_updated Sample.unescape Fuzz.ratio Fuzz.partial_ratio
           Fuzz.token_set_ratio Qmult Sample.catalogue Sample.snapshot_stage
         = Some out
         /\ List.length out = 7%nat)
  /\ (exists out,
         tally_stage_updated Sample.unescape Fuzz.ratio Fuzz.partial_ratio
           Fuzz.token_set_ratio Qmult Sample.catalogue Sample.tally_stage
         = Some out
         /\ List.length out = 7%nat).
Proof.
  split; [exact sample_snapshot_ids |]. split; [exact sample_tally_ids |].
  destruct (stage_updated_copy Sample.unescape Fuzz.ratio Fuzz.partial_ratio
              Fuzz.token_set_ratio Qmult Sample.catalogue
              Sample.snapshot_stage Sample.tally_stage
              sample_snapshot_ids sample_tally_ids)
    as [(res & out & _ & Hout & Hrows & _)
        (res' & out' & _ & Hout' & Hrows' & _)].
  split; [exists out | exists out']; (split; [assumption |]).
  - now rewrite <- (Forall2_length Hrows).
  - now rewrite <- (Forall2_length Hrows').
Defined.

(** C7 (the code at the failing input).  The two-letter title [ab] is
    garbage for [is_skip_tally], and so is a blank title, but not for the
    inline test of the Tally loop: the row [t_short] is matched like any
    other row, without the category [garbage], and over a catalogue with
    the title [AB] it even gets that entry as its candidate. *)
Lemma short_title_not_garbage :
  is_skip_tally "ab" = true /\ tally_garbage "ab" = false
  /\ is_skip_tally "  " = true /\ tally_garbage "  " = false
  /\ option_map (fun br => (fst br, r_category (snd br),
                            r_proposal_id (snd br)))
                (run_tally_row Sample.t_short)
     = Some (t_unmatched, "standard", None)
  /\ option_map (fun br => (fst br, r_category (snd br),
                            r_proposal_id (snd br)))
                (tally_row Sample.unescape Fuzz.ratio Fuzz.partial_ratio
                           Fuzz.token_set_ratio Qmult Sample.short_catalogue
                           Sample.t_short)
     = Some (t_matched, "standard", Some "P-ab").
Proof. repeat split; reflexivity. Qed.



(* ================================================================= *)
(** ** What [extract_forum_links] returns *)

Section OneCharK.
Variable ic : bool.
Variable r1 : Re.regex.
Variable p : ascii -> bool.
Hypothesis r1_one : forall (A : Type) pos s caps
                           (k : Re.captures -> nat -> string -> option A),
    Re.rmatch ic A r1 pos s caps k
    = match s with
      | String x s' => if p x then k caps (S pos) s' else None
      | EmptyString => None
      end.
Variable A : Type.
Variable k : Re.captures -> nat -> string -> option A.

(** In front of a continuation that never fails, [r1*] takes the whole
    run of characters that satisfy [p]. *)
Lemma star_rounds_one_k (s : string) :
  (forall caps pos s, k caps pos s <> None) ->
  forall (fuel pos : nat) (caps : Re.captures),
    (Shape.span p s <= fuel)%nat ->
    Re.star_rounds ic A r1 k fuel pos s caps
    = k caps (pos + Shape.span p s)%nat (Shape.drop (Shape.span p s) s).
Proof.
  intros Hk. induction s as [|c s IH]; intros fuel pos caps Hfuel.
  - destruct fuel; cbn [Re.star_rounds Shape.span Shape.drop];
      rewrite ?r1_one, Nat.add_0_r; reflexivity.
  - cbn [Shape.span] in *. destruct (p c) eqn:Hc.
    + destruct fuel as [|fuel]; [lia |]. cbn [Re.star_rounds].
      rewrite r1_one, Hc.
      assert (Hlt : (pos <? S pos)%nat = true) by (apply Nat.ltb_lt; lia).
      rewrite Hlt. fold (Re.star_rounds ic A r1 k).
      rewrite IH by lia. cbn [Shape.drop].
      replace (pos + S (Shape.span p s))%nat
        with (S pos + Shape.span p s)%nat by lia.
      destruct (k caps (S pos + Shape.span p s)%nat
                  (Shape.drop (Shape.span p s) s)) eqn:E; [reflexivity |].
      exfalso. eapply Hk, E.
    + destruct fuel; cbn [Re.star_rounds Shape.drop];
        rewrite ?r1_one, ?Hc, Nat.add_0_r; reflexivity.
Qed.

Lemma rmatch_plus_one_k (pos : nat) (s : string) (caps : Re.captures) :
  (forall caps pos s, k caps pos s <> None) ->
  Re.rmatch ic A (Re.Plus r1) pos s caps k
  = match s with
    | String x s' =>
        if p x
        then k caps (S pos + Shape.span p s')%nat
               (Shape.drop (Shape.span p s') s')
        else None
    | EmptyString => None
    end.
Proof.
  intros Hk. unfold Re.Plus. cbn [Re.rmatch]. rewrite r1_one.
  destruct s as [|x s']; [reflexivity |]. destruct (p x); [| reflexivity].
  change (Re.rmatch ic A (Re.Star r1) (S pos) s' caps k)
    with (Re.star_rounds ic A r1 k (String.length s') (S pos) s' caps).
  apply star_rounds_one_k; [exact Hk | apply span_le_length].
Qed.
End OneCharK.

Lemma rmatch_lit (ic : bool) (A : Type) (w : string) :
  forall pos s caps (k : Re.captures -> nat -> string -> option A),
    Re.rmatch ic A (Re.lit w) pos s caps k
    = if Shape.begins ic w s
      then k caps (pos + String.length w)%nat (Shape.drop (String.length w) s)
      else None.
Proof.
  induction w as [|a w IH]; intros pos s caps k.
  - cbn [Re.lit Re.rmatch Shape.begins String.length Shape.drop].
    now rewrite Nat.add_0_r.
  - cbn [Re.lit Re.rmatch Shape.begins String.length Shape.drop].
    destruct s as [|b s]; [reflexivity |].
    destruct (Re.chr_eq ic a b); cbn [andb]; [| reflexivity].
    rewrite IH.
    replace (S pos + String.length w)%nat
      with (pos + S (String.length w))%nat by lia.
    reflexivity.
Qed.

Lemma chr_any (ic : bool) (c : ascii) (A : Type) pos s caps
      (k : Re.captures -> nat -> string -> option A) :
  Re.rmatch ic A (Re.Chr c) pos s caps k
  = match s with
    | String x s' => if Re.chr_eq ic c x then k caps (S pos) s' else None
    | EmptyString => None
    end.
Proof. reflexivity. Qed.

Lemma all_chars_take_span (p : ascii -> bool) (s : string) :
  Py.all_chars p (Py.take (Shape.span p s) s) = true.
Proof.
  induction s as [|c s IH]; simpl; [reflexivity |].
  destruct (p c) eqn:Hc; [| reflexivity]. simpl. now rewrite Hc, IH.
Qed.

(** The captures of one forum link: a non-empty run of slug characters,
    and possibly a non-empty run of digits. *)
Definition link_captures (caps : Re.captures) : Prop :=
  exists g,
    g <> EmptyString /\ Py.all_chars slug_char g = true
    /\ (caps = [(1%nat, g)]
        \/ exists d, d <> EmptyString /\ Py.all_chars Py.is_digit d = true
                     /\ caps = [(2%nat, d); (1%nat, g)]).

Lemma forum_link_match (pos : nat) (s : string) (caps : Re.captures)
      (pos' : nat) :
  Re.match_at true forum_link_pattern pos s = Some (caps, pos') ->
  link_captures caps.
Proof.
  unfold Re.match_at, forum_link_pattern. cbn [Re.seqs].
  change (Re.rmatch true ?A (Re.Seq ?a ?b) ?q ?t ?c ?k)
    with (Re.rmatch true A a q t c
            (fun c' q' t' => Re.rmatch true A b q' t' c' k)).
  rewrite rmatch_lit.
  destruct (Shape.begins true _ s); [| discriminate].
  set (pos1 := (pos + _)%nat). set (s1 := Shape.drop _ s).
  change (Re.rmatch true ?A (Re.Seq ?a ?b) ?q ?t ?c ?k)
    with (Re.rmatch true A a q t c
            (fun c' q' t' => Re.rmatch true A b q' t' c' k)).
  change (Re.rmatch true ?A (Re.Group ?n ?a) ?q ?t ?c ?k)
    with (Re.rmatch true A a q t c
            (fun c' q' t' => k ((n, Py.take (q' - q) t) :: c') q' t')).
  rewrite (rmatch_plus_one_k true (Re.Cls slug_char) slug_char
             (cls_one true slug_char)).
  2:{ intros c q t. unfold Re.Opt. cbn [Re.rmatch].
      match goal with |- match ?m with _ => _ end <> _ => destruct m end;
        discriminate. }
  destruct s1 as [|x s2]; [discriminate |].
  destruct (slug_char x) eqn:Hx; [| discriminate].
  replace (S pos1 + Shape.span slug_char s2 - pos1)%nat
    with (S (Shape.span slug_char s2)) by lia.
  cbn [Py.take].
  set (g := String x (Py.take (Shape.span slug_char s2) s2)).
  assert (Hg : g <> EmptyString /\ Py.all_chars slug_char g = true).
  { split; [discriminate |]. subst g. cbn [Py.all_chars].
    now rewrite Hx, all_chars_take_span. }
  set (pos2 := (S pos1 + _)%nat). set (s3 := Shape.drop _ s2).
  unfold Re.Opt.
  change (Re.rmatch true ?A (Re.Alt ?a ?b) ?q ?t ?c ?k)
    with (match Re.rmatch true A a q t c k with
          | Some y => Some y
          | None => Re.rmatch true A b q t c k
          end).
  change (Re.rmatch true ?A (Re.Seq ?a ?b) ?q ?t ?c ?k)
    with (Re.rmatch true A a q t c
            (fun c' q' t' => Re.rmatch true A b q' t' c' k)).
  rewrite (chr_any true "/"%char).
  assert (Hno : Some ([(1%nat, g)], pos2) = Some (caps, pos') ->
                link_captures caps).
  { intros E. injection E as <- _. exists g. repeat split; try apply Hg.
    now left. }
  destruct s3 as [|y s4]; [exact Hno |].
  destruct (Re.chr_eq true "/" y); [| exact Hno].
  change (Re.rmatch true ?A (Re.Group ?n ?a) ?q ?t ?c ?k)
    with (Re.rmatch true A a q t c
            (fun c' q' t' => k ((n, Py.take (q' - q) t) :: c') q' t')).
  unfold Re.digit.
  rewrite (rmatch_plus_one_k true (Re.Cls Py.is_digit) Py.is_digit
             (cls_one true Py.is_digit)) by discriminate.
  destruct s4 as [|z s5]; [exact Hno |].
  destruct (Py.is_digit z) eqn:Hz; [| exact Hno].
  replace (S (S pos2) + Shape.span Py.is_digit s5 - S pos2)%nat
    with (S (Shape.span Py.is_digit s5)) by lia.
  cbn [Py.take]. intros E. injection E as <- _.
  exists g. repeat split; try apply Hg. right.
  eexists. repeat split; [discriminate |].
  cbn [Py.all_chars]. now rewrite Hz, all_chars_take_span.
Qed.

Lemma findall_from_Forall (P : Re.captures -> Prop) (ic : bool)
      (r : Re.regex) :
  (forall pos s caps pos',
      Re.match_at ic r pos s = Some (caps, pos') -> P caps) ->
  forall s pos skip, Forall P (Re.findall_from ic r pos skip s).
Proof.
  intros HP. induction s as [|c s IH]; intros pos skip.
  - destruct skip; cbn [Re.findall_from]; [| constructor].
    destruct (Re.match_at ic r pos "") as [[caps pos'] |] eqn:E;
      constructor; [eapply HP, E | constructor].
  - destruct skip; cbn [Re.findall_from]; [| apply IH].
    destruct (Re.match_at ic r pos (String c s)) as [[caps pos'] |] eqn:E;
      [constructor; [eapply HP, E | apply IH] | apply IH].
Qed.

Lemma slug_char_lower (c : ascii) :
  slug_char c = true -> Shape.slug_alphabet (Py.lower_char c) = true.
Proof.
  destruct c as [b0 b1 b2 b3 b4 b5 b6 b7].
  destruct b0, b1, b2, b3, b4, b5, b6, b7; intros H;
    first [reflexivity | discriminate H].
Qed.

Lemma slug_chars_lower (s : string) :
  Py.all_chars slug_char s = true ->
  Py.all_chars Shape.slug_alphabet (Py.lower s) = true.
Proof.
  induction s as [|c s IH]; simpl; [reflexivity |].
  intros H. apply andb_true_iff in H. destruct H as [Hc Hs].
  now rewrite (slug_char_lower c Hc), IH.
Qed.

(** X14.  Every link taken from a text has a slug that is not empty and
    consists of lower-case letters, digits, underscores and hyphens; its
    topic id, when there is one, is a non-empty string of digits. *)
Theorem extract_forum_links_shape (text : string) :
  Forall (fun l : link =>
            fst l <> EmptyString
            /\ Py.all_chars Shape.slug_alphabet (fst l) = true
            /\ match snd l with
               | Some topic =>
                   topic <> EmptyString
                   /\ Py.all_chars Py.is_digit topic = true
               | None => True
               end)
         (extract_forum_links text).
Proof.
  unfold extract_forum_links.
  destruct (negb (Py.truthy text)); [constructor |].
  apply Forall_map. unfold Re.findall.
  eapply Forall_impl; [| apply (findall_from_Forall link_captures);
                         exact forum_link_match].
  intros caps (g & Hne & Hg & [-> | (d & Hd & Hdig & ->)]);
    cbn [Re.group Nat.eqb fst snd].
  - repeat split; [| now apply slug_chars_lower].
    destruct g; [congruence | discriminate].
  - destruct d as [|y d]; [congruence |]. cbn [Py.truthy snd].
    repeat split; [| now apply slug_chars_lower | discriminate | exact Hdig].
    destruct g; [congruence | discriminate].
Qed.


(* ================================================================= *)
(** ** The text helpers of [generate_prompts.py] *)

Section Prompts.
Variable html_unescape : string -> string.

(** [clean_html(text)]; the argument is a field of a row and may be
    [None]. *)
Definition clean_html (text : option string) : string :=
  match text with
  | Some s => if negb (Py.truthy s) then EmptyString else html_unescape s
  | None => EmptyString
  end.

(** [truncate_text(text, max_length)]; the script only uses the default
    [max_length], which is not negative. *)
Definition truncate_text (text : option string) (max_length : nat) : string :=
  if negb (Py.truthy_opt text) then "No description available"
  else
    let text := clean_html text in
    if (max_length <? String.length text)%nat
    then (Py.take max_length text ++ "...[truncated]")%string
    else text.

Lemma length_append_s (a b : string) :
  String.length (a ++ b) = (String.length a + String.length b)%nat.
Proof. induction a as [|c a IH]; simpl; [reflexivity | now rewrite IH]. Qed.

Lemma length_take (n : nat) (s : string) :
  String.length (Py.take n s) = Nat.min n (String.length s).
Proof.
  revert s. induction n as [|n IH]; intros [|c s]; simpl; try reflexivity.
  now rewrite IH.
Qed.

Lemma take_take_append (n : nat) (s b : string) :
  (n <= String.length s)%nat ->
  Py.take n (Py.take n s ++ b) = Py.take n s.
Proof.
  revert s. induction n as [|n IH]; intros [|c s] H; simpl in *;
    try reflexivity; try lia.
  rewrite IH; [reflexivity | lia].
Qed.

(** X19.  The description put into a prompt is never longer than the
    limit plus the fourteen characters of the truncation mark (or the
    twenty-four of the placeholder); for a text that is present its first
    [max_length] characters are those of the unescaped text, and a text
    that fits is passed unchanged. *)
Theorem truncate_text_bounds (text : option string) (max_length : nat) :
  (String.length (truncate_text text max_length)
   <= Nat.max 24 (max_length + 14))%nat
  /\ (Py.truthy_opt text = true ->
      Py.take max_length (truncate_text text max_length)
      = Py.take max_length (clean_html text))
  /\ (Py.truthy_opt text = true ->
      (String.length (clean_html text) <= max_length)%nat ->
      truncate_text text max_length = clean_html text).
Proof.
  unfold truncate_text.
  destruct (Py.truthy_opt text); cbn [negb].
  - cbv zeta.
    destruct (max_length <? String.length (clean_html text))%nat eqn:E.
    + apply Nat.ltb_lt in E. split; [| split].
      * rewrite length_append_s, length_take.
        change (String.length "...[truncated]") with 14%nat. lia.
      * intros _. apply take_take_append. lia.
      * intros _ H. lia.
    + apply Nat.ltb_ge in E. split; [lia | split; reflexivity].
  - split; [apply Nat.le_max_l | split; discriminate].
Qed.
End Prompts.


(* ================================================================= *)
(** ** Sample runs of the further properties *)

(** X2 (witness).  The slug of a link resolves alike in either case. *)
Lemma resolve_ignores_case_sample :
  Py.lower "Alpha-Plans" = Py.lower "alpha-plans"
  /\ run_resolve "Alpha-Plans" = run_resolve "alpha-plans".
Proof.
  assert (H : Py.lower "Alpha-Plans" = Py.lower "alpha-plans") by reflexivity.
  split; [exact H |].
  exact (resolve_ignores_case Sample.unescape Fuzz.ratio Sample.catalogue
           "Alpha-Plans" "alpha-plans" H).
Defined.

(** X3 (witness).  The Snapshot row [s_link] is matched by its link, with
    a score of at least 70. *)
Lemma snapshot_bucket_scores_sample :
  exists r sc,
    run_snapshot_row Sample.s_link = Some (matched_by_link, r)
    /\ r_score r = Some sc /\ (70 <= sc)%Q.
Proof.
  assert (Hb : option_map fst (run_snapshot_row Sample.s_link)
               = Some matched_by_link) by (vm_compute; reflexivity).
  destruct (run_snapshot_row Sample.s_link) as [[b r]|] eqn:E;
    [| discriminate Hb].
  cbn [option_map fst] in Hb. injection Hb as ->.
  pose proof (snapshot_bucket_scores Sample.unescape Fuzz.ratio
                Fuzz.partial_ratio Fuzz.token_set_ratio Qmult
                Sample.catalogue Sample.s_link matched_by_link r E) as H.
  cbv beta iota in H. destruct H as (sc & Hs & H70 & _).
  exists r, sc. auto.
Defined.

(** X4 (witness).  The Tally row [t_conflict] is matched, with a score of
    at least 75. *)
Lemma tally_bucket_scores_sample :
  exists r sc,
    run_tally_row Sample.t_conflict = Some (t_matched, r)
    /\ r_score r = Some sc /\ (75 <= sc)%Q.
Proof.
  assert (Hb : option_map fst (run_tally_row Sample.t_conflict)
               = Some t_matched) by (vm_compute; reflexivity).
  destruct (run_tally_row Sample.t_conflict) as [[b r]|] eqn:E;
    [| discriminate Hb].
  cbn [option_map fst] in Hb. injection Hb as ->.
  pose proof (tally_bucket_scores Sample.unescape Fuzz.ratio
                Fuzz.partial_ratio Fuzz.token_set_ratio Qmult
                Sample.catalogue Sample.t_conflict t_matched r E) as H.
  cbv beta iota in H. destruct H as (sc & Hs & H75 & _).
  exists r, sc. auto.
Defined.


(** X6 (witness).  The Tally row [t_empty], whose title is empty, is
    garbage: unmatched and without candidate. *)
Lemma tally_garbage_rows_sample :
  exists r,
    run_tally_row Sample.t_empty = Some (t_unmatched, r)
    /\ r_category r = "garbage"
    /\ r_proposal_id r = None.
Proof.
  assert (Hb : option_map fst (run_tally_row Sample.t_empty)
               = Some t_unmatched) by (vm_compute; reflexivity).
  destruct (run_tally_row Sample.t_empty) as [[b r]|] eqn:E;
    [| discriminate Hb].
  cbn [option_map fst] in Hb. injection Hb as ->.
  destruct (tally_garbage_rows Sample.unescape Fuzz.ratio
              Fuzz.partial_ratio Fuzz.token_set_ratio Qmult
              Sample.catalogue Sample.t_empty t_unmatched r E)
    as (Hiff & Himp).
  assert (Hcat : r_category r = "garbage")
    by (apply (proj2 Hiff); left; reflexivity).
  destruct (Himp Hcat) as (_ & Hp & _).
  exists r. auto.
Defined.

(** X7 (witness).  The title [AIP 4] is garbage for the Tally loop and
    skipped by the prompt generator. *)
Lemma garbage_is_skipped_sample :
  tally_garbage "AIP 4" = true /\ is_skip_tally "AIP 4" = true.
Proof.
  assert (H : tally_garbage "AIP 4" = true) by reflexivity.
  split; [exact H | exact (garbage_is_skipped "AIP 4" H)].
Defined.

(** X8 (witness).  A Snapshot row without title whose body links to
    [beta-plan] is matched by that link. *)
Lemma snapshot_untitled_row_sample :
  let s := [Sample.field "id" "s9";
            Sample.field "body" "forum.arbitrum.foundation/t/beta-plan/9"] in
  row_item "id" s = Some (JStr "s9")
  /\ row_text "title" s = EmptyString
  /\ exists r,
      run_snapshot_row s = Some (matched_by_link, r)
      /\ r_proposal_id r = Some "P-beta".
Proof.
  intros s. repeat (split; [reflexivity |]).
  pose proof (snapshot_untitled_row Sample.unescape Fuzz.ratio
                Fuzz.partial_ratio Fuzz.token_set_ratio Qmult
                Sample.catalogue s (JStr "s9") eq_refl eq_refl) as H.
  cbv zeta in H. destruct H as (b & r & Hrow & Hm).
  vm_compute in Hm. destruct Hm as (Hb & Hp & _). subst b.
  exists r. split; [exact Hrow | exact Hp].
Defined.

(** X9 (witness).  In the sample catalogue the key [alpha-plan] belongs
    to the second entry alone, and a link with that slug resolves to it. *)
Lemma slug_index_lookup_sample :
  dict_get String.eqb "alpha-plan"
           (proposal_slugs Sample.unescape Sample.catalogue) = Some "P-alpha"
  /\ run_resolve "alpha-plan" = (Some "P-alpha", 100).
Proof.
  destruct (slug_index_lookup Sample.unescape Fuzz.ratio Sample.catalogue
              [{| p_id := "P-beta"; p_title := "Beta Plan" |}]
              [{| p_id := "P-stip";
                  p_title := "Short Term Incentive Program" |}]
              {| p_id := "P-alpha"; p_title := "Alpha Plan" |}
              "alpha-plan" eq_refl (or_introl eq_refl))
    as (Hget & Hres).
  - intros q [<- | []] Hin. vm_compute in Hin.
    destruct Hin as [Hin | [Hin | []]]; discriminate Hin.
  - split; [exact Hget |]. apply Hres. discriminate.
Defined.

(** X10 (witness).  For the title [Beta Plan] and the threshold 60 the
    title matcher returns the entry [P-beta], which no entry outscores. *)
Lemma find_best_title_match_best_sample :
  "Beta Plan" <> EmptyString
  /\ (0 < 60)%Q
  /\ exists sc,
      run_title_match "Beta Plan" 60 = Some (Some "P-beta", Some "Beta Plan", sc)
      /\ (60 <= sc)%Q
      /\ Forall (fun q =>
                   combined_score Sample.unescape Fuzz.ratio
                     Fuzz.partial_ratio Fuzz.token_set_ratio Qmult
                     (normalize_title Sample.unescape "Beta Plan") q <= sc)%Q
                Sample.catalogue.
Proof.
  assert (Hne : "Beta Plan" <> EmptyString) by discriminate.
  assert (Hpos : (0 < 60)%Q) by reflexivity.
  split; [exact Hne |]. split; [exact Hpos |].
  pose proof (find_best_title_match_best Sample.unescape Fuzz.ratio
                Fuzz.partial_ratio Fuzz.token_set_ratio Qmult
                Sample.catalogue "Beta Plan" 60 Hne Hpos) as H.
  cbv zeta in H. destruct H as (id & t & sc & Hf & Hup & _ & _).
  assert (Hrun : run_title_match "Beta Plan" 60
                 = Some (Some "P-beta", Some "Beta Plan", 1800 # 18))
    by (vm_compute; reflexivity).
  rewrite Hrun in Hf. injection Hf as <- <- <-.
  exists (1800 # 18). split; [reflexivity |].
  split; [vm_compute; discriminate | exact Hup].
Defined.

(** X15 (witness).  The slug [alpha-plan] of the title [Alpha  Plan!] is
    its own slug. *)
Lemma title_to_slug_idempotent_sample :
  (forall s, Py.all_chars Shape.slug_alphabet s = true -> Sample.unescape s = s)
  /\ title_to_slug Sample.unescape "Alpha  Plan!" = "alpha-plan"
  /\ title_to_slug Sample.unescape
       (title_to_slug Sample.unescape "Alpha  Plan!")
     = title_to_slug Sample.unescape "Alpha  Plan!".
Proof.
  assert (H : forall s, Py.all_chars Shape.slug_alphabet s = true ->
                        Sample.unescape s = s) by reflexivity.
  split; [exact H |]. split; [reflexivity |].
  exact (title_to_slug_idempotent Sample.unescape "Alpha  Plan!" H).
Defined.

(** X17 (witness).  The id [s1] has a result matched by link (candidate
    [P-alpha]) and one matched by title (candidate [P-beta]); the table
    holds the candidate of the title match. *)
Lemma snapshot_id_table_last_wins_sample :
  let by_link := with_proposal_id (Some "P-alpha")
                   (new_result (JStr "s1") "T" JNull (Some [])) in
  let by_title := with_proposal_id (Some "P-beta")
                    (new_result (JStr "s1") "T" JNull (Some [])) in
  let res := snapshot_append matched_by_title by_title
               (snapshot_append matched_by_link by_link
                  empty_snapshot_results) in
  sr_matched_by_link res ++ sr_matched_by_title res = [by_link] ++ [by_title]
  /\ dict_get json_eqb (JStr "s1") (snapshot_id_to_proposal res)
     = Some (Some "P-beta").
Proof.
  intros by_link by_title res. split; [reflexivity |].
  exact (snapshot_id_table_last_wins res [by_link] [] by_title eq_refl
           (Forall_nil _)).
Defined.

(** X18 (witness).  Of two matched Tally results of the id [t1] the
    table holds the candidate of the second. *)
Lemma tally_id_table_last_wins_sample :
  let first := with_proposal_id (Some "P-alpha")
                 (new_result (JStr "t1") "T" JNull None) in
  let second := with_proposal_id (Some "P-beta")
                  (new_result (JStr "t1") "T" JNull None) in
  let res := tally_append t_matched second
               (tally_append t_matched first empty_tally_results) in
  tr_matched res = [first] ++ [second]
  /\ dict_get json_eqb (JStr "t1") (tally_id_to_proposal res)
     = Some (Some "P-beta").
Proof.
  intros first second res. split; [reflexivity |].
  exact (tally_id_table_last_wins res [first] [] second eq_refl
           (Forall_nil _)).
Defined.


(** X21 (witness).  The body of the election row [s_election] holds a
    forum link; its result records none. *)
Lemma snapshot_result_fields_sample :
  extract_forum_links (row_text "body" Sample.s_election) <> []
  /\ exists r,
      run_snapshot_row Sample.s_election = Some (elections, r)
      /\ r_id r = JStr "s2"
      /\ r_category r = "election"
      /\ r_forum_links r = Some [].
Proof.
  split; [vm_compute; discriminate |].
  assert (Hb : option_map fst (run_snapshot_row Sample.s_election)
               = Some elections) by (vm_compute; reflexivity).
  destruct (run_snapshot_row Sample.s_election) as [[b r]|] eqn:E;
    [| discriminate Hb].
  cbn [option_map fst] in Hb. injection Hb as ->.
  destruct (snapshot_result_fields Sample.unescape Fuzz.ratio
              Fuzz.partial_ratio Fuzz.token_set_ratio Qmult
              Sample.catalogue Sample.s_election elections r E)
    as (Hid & _ & _ & Hc & Hl).
  exists r. split; [reflexivity |].
  split; [now injection Hid as <- |]. split; [exact Hc | exact Hl].
Defined.

(** X22 (witness).  The result of the Tally row [t_conflict] keeps the
    row's title and has no list of links. *)
Lemma tally_result_fields_sample :
  exists b r,
    run_tally_row Sample.t_conflict = Some (b, r)
    /\ r_title r = "Beta Plan"
    /\ r_forum_links r = None.
Proof.
  destruct (run_tally_row Sample.t_conflict) as [[b r]|] eqn:E;
    [| vm_compute in E; discriminate E].
  destruct (tally_result_fields Sample.unescape Fuzz.ratio
              Fuzz.partial_ratio Fuzz.token_set_ratio Qmult
              Sample.catalogue Sample.t_conflict b r E)
    as (_ & Ht & _ & Hl & _).
  exists b, r. split; [reflexivity |]. split; [exact Ht | exact Hl].
Defined.


(** C5 (witness).  The Snapshot row [s_election] has an election title
    that also holds an override key, and a forum link in its body; it is
    put in [elections] without candidate.  The Tally row [t_election] has
    an election title that holds an override key; it is resolved by the
    override and matched. *)
Lemma election_is_terminal_sample :
  row_item "id" Sample.s_election = Some (JStr "s2")
  /\ is_election (row_text "title" Sample.s_election) = true
  /\ is_stip_ltipp_protocol (row_text "title" Sample.s_election) = false
  /\ override_lookup MANUAL_OVERRIDES_SNAPSHOT
                     (row_text "title" Sample.s_election)
     = Some "08bc7918-8046-444c-b689-ebea647cb0ee"
  /\ (exists r,
         run_snapshot_row Sample.s_election = Some (elections, r)
         /\ r_proposal_id r = None
         /\ r_category r = "election")
  /\ is_election (row_text "title" Sample.t_election) = true
  /\ (exists r,
         run_tally_row Sample.t_election = Some (t_matched, r)
         /\ r_proposal_id r = Some "8b760c14-6f2b-4069-b326-23653e5c20f9"
         /\ r_method r = Some "manual_override").
Proof.
  repeat (split; [reflexivity |]).
  destruct (election_is_terminal Sample.unescape Fuzz.ratio Fuzz.partial_ratio
              Fuzz.token_set_ratio Qmult Sample.catalogue Sample.s_election
              (JStr "s2") eq_refl eq_refl eq_refl)
    as [(r & Hrow & _ & Hp & _ & _ & Hc) [_ Htally]].
  split; [exists r; auto |]. split; [reflexivity |].
  destruct (Htally Sample.t_election (JStr "t5") eq_refl eq_refl)
    as (b & r' & Hrow' & _ & Hcase).
  vm_compute in Hcase. destruct Hcase as (Hb & Hp' & _ & Hm'). subst b.
  exists r'. split; [exact Hrow' |]. split; [exact Hp' | exact Hm'].
Defined.

(** C10 (witness).  In the run over the sample table the Snapshot row
    [s_override] is resolved by the override table and its result is in
    [matched_by_title]. *)
Lemma manual_override_bucket_sample :
  Forall (fun s => row_item "id" s <> None) Sample.snapshot_stage
  /\ In Sample.s_override Sample.snapshot_stage
  /\ row_item "id" Sample.s_override = Some (JStr "s4")
  /\ is_stip_ltipp_protocol (row_text "title" Sample.s_override) = false
  /\ is_election (row_text "title" Sample.s_override) = false
  /\ override_lookup MANUAL_OVERRIDES_SNAPSHOT
                     (row_text "title" Sample.s_override)
     = Some "08bc7918-8046-444c-b689-ebea647cb0ee"
  /\ exists res r,
      match_snapshot Sample.unescape Fuzz.ratio Fuzz.partial_ratio
                     Fuzz.token_set_ratio Qmult Sample.catalogue
                     Sample.snapshot_stage = Some res
      /\ run_snapshot_row Sample.s_override = Some (matched_by_title, r)
      /\ r_method r = Some "manual_override"
      /\ r_score r = Some 100
      /\ In r (sr_matched_by_title res)
      /\ ~ In r (sr_matched_by_link res).
Proof.
  assert (Hin : In Sample.s_override Sample.snapshot_stage)
    by (do 3 right; left; reflexivity).
  split; [exact sample_snapshot_ids |]. split; [exact Hin |].
  repeat (split; [reflexivity |]).
  destruct (manual_override_bucket Sample.unescape Fuzz.ratio
              Fuzz.partial_ratio Fuzz.token_set_ratio Qmult Sample.catalogue
              Sample.snapshot_stage Sample.s_override (JStr "s4")
              "08bc7918-8046-444c-b689-ebea647cb0ee"
              sample_snapshot_ids Hin eq_refl eq_refl eq_refl eq_refl)
    as (res & r & Hres & Hrow & _ & _ & Hs & Hm & _ & Hbucket & Hother).
  exists res, r. repeat (split; [assumption |]).
  apply (Hother matched_by_link). discriminate.
Defined.

(** X12 (witness).  The unescaped title [Alpha  Plan!] is ASCII; its
    slug is [alpha-plan]. *)
Lemma title_to_slug_shape_sample :
  Py.all_chars Shape.is_ascii (Sample.unescape "Alpha  Plan!") = true
  /\ title_to_slug Sample.unescape "Alpha  Plan!" = "alpha-plan"
  /\ Py.all_chars Shape.slug_alphabet
       (title_to_slug Sample.unescape "Alpha  Plan!") = true.
Proof.
  assert (H : Py.all_chars Shape.is_ascii (Sample.unescape "Alpha  Plan!")
              = true) by reflexivity.
  split; [exact H |]. split; [reflexivity |].
  exact (proj1 (title_to_slug_shape Sample.unescape "Alpha  Plan!" H)).
Defined.

(** X13 (witness).  The unescaped title [[RFC]  Alpha   Plan ] is ASCII;
    it is normalised to [alpha plan]. *)
Lemma normalize_title_shape_sample :
  Py.all_chars Shape.is_ascii (Sample.unescape "[RFC]  Alpha   Plan ") = true
  /\ normalize_title Sample.unescape "[RFC]  Alpha   Plan " = "alpha plan"
  /\ Shape.no_adjacent Py.is_space
       (normalize_title Sample.unescape "[RFC]  Alpha   Plan ") = true.
Proof.
  assert (H : Py.all_chars Shape.is_ascii
                (Sample.unescape "[RFC]  Alpha   Plan ") = true)
    by reflexivity.
  split; [exact H |]. split; [reflexivity |].
  exact (proj1 (proj2 (proj2 (normalize_title_shape Sample.unescape
                                "[RFC]  Alpha   Plan " H)))).
Defined.
